(** * Opqua simulation core: Population bookkeeping and the Gillespie driver

    A shallow embedding of [opqua/internal/population.py] and
    [opqua/internal/gillespie.py].

    Conventions of the embedding.
    - In the bookkeeping of the populations and of the driver, Python
      numbers are exact rationals [Q] and rounding is not represented.
      The weighted draw and the event search, whose results depend on
      rounding, are embedded a second time over binary64 in the module
      [Binary64]; statements about the numbers they return are made
      there.
    - A Python statement that raises is an outcome [Raise e s] that keeps
      the state [s] as mutated up to the raise, as in-place mutation does.
    - Draws of the process-wide random generator are read from oracles
      (functions of the draw number, or of the sampled collection).
    - The classes [Host], [Vector], [Setup] and [Model] are not part of the
      two files; what the files use of them is a field of the classes
      [IndividualContract] and [ModelContract], or a definition marked as
      modelled from the specification. *)

From Stdlib Require Import String Ascii.
From Stdlib Require Import List Arith Bool Lia.
From Stdlib Require Import QArith Qfield Lqa DecimalString.
Import ListNotations.

Local Open Scope Q_scope.

(** ** Numbers *)

(** [x < y] on numbers, as a test. *)
Definition Qltb (x y : Q) : bool := negb (Qle_bool y x).

(** [np.sum] of a one-dimensional array. *)
Definition np_sum (r : list Q) : Q := fold_right Qplus 0 r.

(** ** Population.getWeightedRandom *)

(** The loop [for i,e in enumerate(r)] with its running sum [r_cum]. *)
Fixpoint weighted_scan (u r_cum : Q) (i : nat) (r : list Q)
  : option (nat * Q) :=
  match r with
  | [] => None
  | e :: r' =>
      let r_cum := r_cum + e in
      if Qltb u r_cum then Some (i, (u - r_cum + e) / e)
      else weighted_scan u r_cum (S i) r'
  end.

(** [None] is Python's implicit [return None] when the loop ends without
    a [return]. *)
Definition getWeightedRandom (rand : Q) (r : list Q) : option (nat * Q) :=
  let r_tot := np_sum r in
  let u := rand * r_tot in
  weighted_scan u 0 0 r.

(** ** Raising and in-place mutation *)

Inductive exn : Type :=
  ValueError | TypeError | NameError | IndexError | KeyError.

(** The result of running a method on a state: a returned value, or a
    raised error; both with the state as it stands at that point. *)
Inductive outcome (S A : Type) : Type :=
| Ret (a : A) (s : S)
| Raise (e : exn) (s : S).

Arguments Ret {S A} a s.
Arguments Raise {S A} e s.

Definition M (S A : Type) : Type := S -> outcome S A.

Definition ret {S A : Type} (a : A) : M S A := fun s => Ret a s.

Definition raise {S A : Type} (e : exn) : M S A := fun s => Raise e s.

Definition bind {S A B : Type} (m : M S A) (k : A -> M S B) : M S B :=
  fun s =>
    match m s with
    | Ret a s' => k a s'
    | Raise e s' => Raise e s'
    end.

Definition get {S : Type} : M S S := fun s => Ret s s.

Definition modify {S : Type} (f : S -> S) : M S unit := fun s => Ret tt (f s).

Definition final_state {S A : Type} (o : outcome S A) : S :=
  match o with Ret _ s => s | Raise _ s => s end.

Declare Scope py_scope.
Delimit Scope py_scope with py.
Notation "x <- m ;; k" := (bind m (fun x => k))
  (at level 100, m at next level, right associativity) : py_scope.
Notation "m ;;; k" := (bind m (fun _ => k))
  (at level 100, right associativity) : py_scope.
Local Open Scope py_scope.

(** [for x in l: body(x)] *)
Fixpoint for_each {S A : Type} (l : list A) (body : A -> M S unit)
  : M S unit :=
  match l with
  | [] => ret tt
  | x :: l' => body x ;;; for_each l' body
  end.

(** An optional value whose absence raises [e]. *)
Definition or_raise {S A : Type} (e : exn) (o : option A) : M S A :=
  match o with Some a => ret a | None => raise e end.

(** ** Python dictionaries with string keys, in insertion order *)

Definition dict (V : Type) : Type := list (string * V).

Definition keys {V : Type} (d : dict V) : list string := map fst d.

Fixpoint dict_get {V : Type} (k : string) (d : dict V) : option V :=
  match d with
  | [] => None
  | (k', v) :: d' => if String.eqb k k' then Some v else dict_get k d'
  end.

(** [d[k] = v]: an existing key keeps its place. *)
Fixpoint dict_set {V : Type} (k : string) (v : V) (d : dict V) : dict V :=
  match d with
  | [] => [(k, v)]
  | (k', v') :: d' =>
      if String.eqb k k' then (k, v) :: d' else (k', v') :: dict_set k v d'
  end.

(** ** numpy arrays *)

Definition zeros (n : nat) : list Q := repeat 0 n.

(** [a[:, k]] *)
Definition column (k : nat) (a : list (list Q)) : list Q :=
  map (fun row => nth k row 0) a.

(** [np.multiply(a, b)] on vectors of one length. *)
Definition np_multiply (a b : list Q) : list Q :=
  map (fun ab => fst ab * snd ab) (combine a b).

(** [1 - a] *)
Definition one_minus (a : list Q) : list Q := map (fun x => 1 - x) a.

(** [np.delete(a, i, 0)] for an integer [i >= 0]; [None] is the
    IndexError of an index out of bounds. *)
Definition np_delete {A : Type} (a : list A) (i : nat) : option (list A) :=
  if i <? length a then Some (firstn i a ++ skipn (S i) a) else None.

(** [a[i, :] = row]; [None] is the IndexError of an index out of
    bounds. *)
Definition set_row {A : Type} (i : nat) (row : A) (a : list A)
  : option (list A) :=
  if i <? length a then Some (firstn i a ++ row :: skipn (S i) a) else None.

(** [str(n)] *)
Definition str (n : nat) : string := NilZero.string_of_uint (Nat.to_uint n).

(** ** Individuals *)

(** What the two files read and write of a [Host] or [Vector] object.
    [obj] is the identity of the Python object: [in] and [list.remove]
    compare objects by identity. [name] is its attribute [id];
    [pathogens] maps each carried genome to its multiplicity. *)
Record Individual : Type := {
  obj : nat;
  name : string;
  coefficient_index : nat;
  pathogens : dict nat;
  protection_sequences : list string }.

Definition set_coefficient_index (v : nat) (h : Individual) : Individual :=
  {| obj := obj h; name := name h; coefficient_index := v; pathogens :=
     pathogens h; protection_sequences := protection_sequences h |}.

Definition set_pathogens (v : dict nat) (h : Individual) : Individual :=
  {| obj := obj h; name := name h; coefficient_index := coefficient_index h;
     pathogens := v; protection_sequences := protection_sequences h |}.

(** The migration and population-contact neighbor attributes of a
    [Population], keyed by population id. *)
Record Neighbors : Type := {
  neighbors_hosts : dict Q;
  neighbors_vectors : dict Q;
  total_migration_rate_hosts : Q;
  total_migration_rate_vectors : Q;
  neighbors_contact_hosts : dict Q;
  neighbors_contact_vectors : dict Q;
  total_population_contact_rate_host_host : Q;
  total_population_contact_rate_host_vector : Q;
  total_population_contact_rate_vector_host : Q }.


(** ** Population *)

(** [hosts] and [vectors] hold the live objects themselves, in list
    order; [infected_hosts], [healthy_hosts] and [infected_vectors] hold
    references (object identities) to objects of [hosts] and [vectors], so
    that a change of an object through one list is seen through the
    others. [next_obj] is the identity the next created object gets. *)
Record Population : Type := {
  id : string;
  num_loci : nat;
  possible_alleles : list string;
  coefficients_hosts : list (list Q);
  coefficients_vectors : list (list Q);
  hosts : list Individual;
  vectors : list Individual;
  infected_hosts : list nat;
  healthy_hosts : list nat;
  infected_vectors : list nat;
  dead_hosts : list Individual;
  dead_vectors : list Individual;
  links : Neighbors;
  next_obj : nat }.

Definition set_coefficients_hosts (v : list (list Q)) (p : Population) : Population :=
  {| id := id p; num_loci := num_loci p; possible_alleles :=
     possible_alleles p; coefficients_hosts := v; coefficients_vectors :=
     coefficients_vectors p; hosts := hosts p; vectors := vectors p;
     infected_hosts := infected_hosts p; healthy_hosts := healthy_hosts p;
     infected_vectors := infected_vectors p; dead_hosts := dead_hosts p;
     dead_vectors := dead_vectors p; links := links p; next_obj := next_obj
     p |}.

Definition set_coefficients_vectors (v : list (list Q)) (p : Population) : Population :=
  {| id := id p; num_loci := num_loci p; possible_alleles :=
     possible_alleles p; coefficients_hosts := coefficients_hosts p;
     coefficients_vectors := v; hosts := hosts p; vectors := vectors p;
     infected_hosts := infected_hosts p; healthy_hosts := healthy_hosts p;
     infected_vectors := infected_vectors p; dead_hosts := dead_hosts p;
     dead_vectors := dead_vectors p; links := links p; next_obj := next_obj
     p |}.

Definition set_hosts (v : list Individual) (p : Population) : Population :=
  {| id := id p; num_loci := num_loci p; possible_alleles :=
     possible_alleles p; coefficients_hosts := coefficients_hosts p;
     coefficients_vectors := coefficients_vectors p; hosts := v; vectors :=
     vectors p; infected_hosts := infected_hosts p; healthy_hosts :=
     healthy_hosts p; infected_vectors := infected_vectors p; dead_hosts :=
     dead_hosts p; dead_vectors := dead_vectors p; links := links p;
     next_obj := next_obj p |}.

Definition set_vectors (v : list Individual) (p : Population) : Population :=
  {| id := id p; num_loci := num_loci p; possible_alleles :=
     possible_alleles p; coefficients_hosts := coefficients_hosts p;
     coefficients_vectors := coefficients_vectors p; hosts := hosts p;
     vectors := v; infected_hosts := infected_hosts p; healthy_hosts :=
     healthy_hosts p; infected_vectors := infected_vectors p; dead_hosts :=
     dead_hosts p; dead_vectors := dead_vectors p; links := links p;
     next_obj := next_obj p |}.

Definition set_infected_hosts (v : list nat) (p : Population) : Population :=
  {| id := id p; num_loci := num_loci p; possible_alleles :=
     possible_alleles p; coefficients_hosts := coefficients_hosts p;
     coefficients_vectors := coefficients_vectors p; hosts := hosts p;
     vectors := vectors p; infected_hosts := v; healthy_hosts :=
     healthy_hosts p; infected_vectors := infected_vectors p; dead_hosts :=
     dead_hosts p; dead_vectors := dead_vectors p; links := links p;
     next_obj := next_obj p |}.

Definition set_healthy_hosts (v : list nat) (p : Population) : Population :=
  {| id := id p; num_loci := num_loci p; possible_alleles :=
     possible_alleles p; coefficients_hosts := coefficients_hosts p;
     coefficients_vectors := coefficients_vectors p; hosts := hosts p;
     vectors := vectors p; infected_hosts := infected_hosts p; healthy_hosts
     := v; infected_vectors := infected_vectors p; dead_hosts := dead_hosts
     p; dead_vectors := dead_vectors p; links := links p; next_obj :=
     next_obj p |}.

Definition set_infected_vectors (v : list nat) (p : Population) : Population :=
  {| id := id p; num_loci := num_loci p; possible_alleles :=
     possible_alleles p; coefficients_hosts := coefficients_hosts p;
     coefficients_vectors := coefficients_vectors p; hosts := hosts p;
     vectors := vectors p; infected_hosts := infected_hosts p; healthy_hosts
     := healthy_hosts p; infected_vectors := v; dead_hosts := dead_hosts p;
     dead_vectors := dead_vectors p; links := links p; next_obj := next_obj
     p |}.

Definition set_next_obj (v : nat) (p : Population) : Population :=
  {| id := id p; num_loci := num_loci p; possible_alleles :=
     possible_alleles p; coefficients_hosts := coefficients_hosts p;
     coefficients_vectors := coefficients_vectors p; hosts := hosts p;
     vectors := vectors p; infected_hosts := infected_hosts p; healthy_hosts
     := healthy_hosts p; infected_vectors := infected_vectors p; dead_hosts
     := dead_hosts p; dead_vectors := dead_vectors p; links := links p;
     next_obj := v |}.

Definition INFECTED : nat := 0.
Definition CONTACT : nat := 1.
Definition LETHALITY : nat := 2.
Definition RECOVERY : nat := 3.
Definition MIGRATION : nat := 4.
Definition POPULATION_CONTACT : nat := 5.
Definition MUTATION : nat := 6.
Definition RECOMBINATION : nat := 7.

Definition NUM_COEFFICIENTS : nat := 8.

(** *** Object lists *)

(** The object of identity [o] in a list of objects. *)
Definition find_obj (o : nat) (l : list Individual) : option Individual :=
  find (fun h => obj h =? o) l.

(** [o in l] on a list of references. *)
Definition mem_ref (o : nat) (l : list nat) : bool := existsb (Nat.eqb o) l.

(** [l.remove(o)] on a list of references: the first occurrence goes;
    [None] is the ValueError of an absent element. *)
Fixpoint list_remove (o : nat) (l : list nat) : option (list nat) :=
  match l with
  | [] => None
  | x :: l' =>
      if x =? o then Some l'
      else match list_remove o l' with
           | Some r => Some (x :: r)
           | None => None
           end
  end.

(** [l.remove(o)] on a list of objects known to hold [o]. *)
Fixpoint remove_obj (o : nat) (l : list Individual) : list Individual :=
  match l with
  | [] => []
  | x :: l' => if obj x =? o then l' else x :: remove_obj o l'
  end.

(** The object of identity [o] replaced by its new state [h]. *)
Definition store_obj (h : Individual) (l : list Individual)
  : list Individual :=
  map (fun x => if obj x =? obj h then h else x) l.

(** ** Random draws *)

(** The draws of [np.random], as oracles.
    - [choice_oracle a k]: the [k] elements [np.random.choice(a, k,
      replace=False)] samples from [a];
    - [pick_oracle n]: the position [np.random.choice(a)] picks in a list
      of length [n];
    - [exponential_oracle i scale] and [random_oracle i]: the [i]-th draw
      of the driver, from [np.random.exponential(scale)] and
      [np.random.random()]. *)
Class Random : Type := {
  choice_oracle : list nat -> nat -> list nat;
  pick_oracle : nat -> nat;
  exponential_oracle : nat -> Q -> Q;
  random_oracle : nat -> Q }.

(** The sampler returns [k] elements of the list it samples. *)
Definition sampler_sound (R : Random) : Prop :=
  forall a k, (k <= length a)%nat ->
    length (choice_oracle a k) = k /\ incl (choice_oracle a k) a.

(** ** The Host and Vector classes *)

(** The methods of [Host] and [Vector] that the two files call and whose
    bodies are outside them, acting on the owning population; an
    individual is passed by reference. [host_row] and [vector_row] give the
    fitness-weighted coefficient row of an individual that carries the
    given pathogens. *)
Class IndividualContract : Type := {
  host_row : dict nat -> list Q;
  vector_row : dict nat -> list Q;
  Host_recover : nat -> M Population unit;
  Vector_recover : nat -> M Population unit;
  Host_die : nat -> M Population unit;
  Vector_die : nat -> M Population unit;
  Host_mutate : nat -> Q -> M Population unit;
  Vector_mutate : nat -> Q -> M Population unit;
  Host_recombine : nat -> Q -> M Population unit;
  Vector_recombine : nat -> Q -> M Population unit;
  Host_infectHost : nat -> nat -> M Population bool;
  Host_infectVector : nat -> nat -> M Population bool;
  Vector_infectHost : nat -> nat -> M Population bool }.

Section PopulationMethods.

Context {R : Random} {IC : IndividualContract}.

(** Modelled from the spec: the constructor [Host(population, id)] of the
    class Host, which is not in the two files. The new host gets a fresh
    identity and a new coefficient row of zeros at the end of the hosts
    matrix of its population; its [coefficient_index] is the index of that
    row; it carries no pathogen. *)
Definition Host_init (host_id : string) : M Population Individual :=
  fun p =>
    let h := {| obj := next_obj p; name := host_id;
                coefficient_index := length (coefficients_hosts p);
                pathogens := []; protection_sequences := [] |} in
    Ret h (set_next_obj (S (next_obj p))
             (set_coefficients_hosts
                (coefficients_hosts p ++ [zeros NUM_COEFFICIENTS]) p)).

(** Modelled from the spec: the constructor [Vector(population, id)] of
    the class Vector, which is not in the two files; as [Host_init], on
    the vectors matrix. *)
Definition Vector_init (vector_id : string) : M Population Individual :=
  fun p =>
    let v := {| obj := next_obj p; name := vector_id;
                coefficient_index := length (coefficients_vectors p);
                pathogens := []; protection_sequences := [] |} in
    Ret v (set_next_obj (S (next_obj p))
             (set_coefficients_vectors
                (coefficients_vectors p ++ [zeros NUM_COEFFICIENTS]) p)).

(** One more pathogen of genome [g] in a genome-to-multiplicity map. *)
Definition one_more (g : string) (d : dict nat) : dict nat :=
  match dict_get g d with
  | Some n => dict_set g (S n) d
  | None => dict_set g 1%nat d
  end.

(** Modelled from the spec: [Host.acquirePathogen(genome)] of the class
    Host, which is not in the two files. The host carries one more
    pathogen of that genome, its coefficient row is recomputed as the
    fitness-weighted row of what it now carries, and it is infected from
    then on. A reference to an object that is not a live host of this
    population changes nothing here. *)
Definition Host_acquirePathogen (o : nat) (genome : string)
  : M Population unit :=
  fun p =>
    match find_obj o (hosts p) with
    | None => Ret tt p
    | Some h =>
        let h' := set_pathogens (one_more genome (pathogens h)) h in
        match set_row (coefficient_index h) (host_row (pathogens h'))
                (coefficients_hosts p) with
        | None => Raise IndexError p
        | Some rows =>
            let p1 := set_coefficients_hosts rows
                        (set_hosts (store_obj h' (hosts p)) p) in
            if mem_ref o (infected_hosts p1) then Ret tt p1
            else
              let p2 := set_infected_hosts (infected_hosts p1 ++ [o]) p1 in
              match list_remove o (healthy_hosts p2) with
              | Some l => Ret tt (set_healthy_hosts l p2)
              | None => Ret tt p2
              end
        end
    end.

(** Modelled from the spec: [Vector.acquirePathogen(genome)] of the class
    Vector, which is not in the two files; as [Host_acquirePathogen], on
    the vectors of the population, which has no list of healthy
    vectors. *)
Definition Vector_acquirePathogen (o : nat) (genome : string)
  : M Population unit :=
  fun p =>
    match find_obj o (vectors p) with
    | None => Ret tt p
    | Some v =>
        let v' := set_pathogens (one_more genome (pathogens v)) v in
        match set_row (coefficient_index v) (vector_row (pathogens v'))
                (coefficients_vectors p) with
        | None => Raise IndexError p
        | Some rows =>
            let p1 := set_coefficients_vectors rows
                        (set_vectors (store_obj v' (vectors p)) p) in
            if mem_ref o (infected_vectors p1) then Ret tt p1
            else Ret tt
                   (set_infected_vectors (infected_vectors p1 ++ [o]) p1)
        end
    end.

(** [np.random.choice(a, size, replace=False)]: a sample larger than the
    list raises ValueError. *)
Definition np_random_choice {S : Type} (a : list nat) (size : nat)
  : M S (list nat) :=
  if size <=? length a then ret (choice_oracle a size)
  else raise ValueError.

(** [np.random.choice(a)] on a list of objects: an empty list raises
    ValueError. *)
Definition np_random_choice1 {S : Type} (a : list Individual)
  : M S Individual :=
  or_raise ValueError (nth_error a (pick_oracle (length a))).

(** [np.random.choice(a, size, replace=False, p=p)]: [p] has one
    probability per element, none negative, they sum to 1 (the tolerance
    numpy allows on that sum is not represented), and at least [size] of
    them are positive. *)
Definition np_random_choice_p {S : Type} (a : list nat) (size : nat)
  (p : list Q) : M S (list nat) :=
  if (length p =? length a)
     && forallb (fun x => Qle_bool 0 x) p
     && Qeq_bool (np_sum p) 1
     && (size <=? length a)
     && (size <=? length (filter (fun x => Qltb 0 x) p))
  then ret (choice_oracle a size)
  else raise ValueError.

(** *** addHosts, addVectors *)

(** The list comprehension that constructs the new individuals, one
    constructor call after the other. *)
Fixpoint construct (init : string -> M Population Individual)
  (ids : list string) : M Population (list Individual) :=
  match ids with
  | [] => ret []
  | i :: ids' =>
      h <- init i ;;
      hs <- construct init ids' ;;
      ret (h :: hs)
  end.

Definition addHosts (num_hosts : nat) : M Population (list nat) :=
  p <- get ;;
  new_hosts <- construct Host_init
    (map (fun i => String.append (id p)
                     (String.append "_" (str (i + length (hosts p)))))
         (seq 0 num_hosts)) ;;
  modify (fun p => set_hosts (hosts p ++ new_hosts) p) ;;;
  modify (fun p => set_healthy_hosts
                     (healthy_hosts p ++ map obj new_hosts) p) ;;;
  ret (map obj new_hosts).

Definition addVectors (num_vectors : nat) : M Population (list nat) :=
  p <- get ;;
  new_vectors <- construct Vector_init
    (map (fun i => String.append (id p)
                     (String.append "_" (str (i + length (vectors p)))))
         (seq 0 num_vectors)) ;;
  modify (fun p => set_vectors (vectors p ++ new_vectors) p) ;;;
  ret (map obj new_vectors).

(** *** removeHosts, removeVectors *)

(** [for h in l: if h.coefficient_index > i: h.coefficient_index -= 1] *)
Definition shift_down (i : nat) (l : list Individual) : list Individual :=
  map (fun h => if i <? coefficient_index h
                then set_coefficient_index (coefficient_index h - 1) h
                else h) l.

(** The statements that remove the host [host_removed], which is in
    [self.hosts]. *)
Definition remove_host (host_removed : Individual) : M Population unit :=
  p <- get ;;
  (if mem_ref (obj host_removed) (infected_hosts p)
   then l <- or_raise ValueError
               (list_remove (obj host_removed) (infected_hosts p)) ;;
        modify (set_infected_hosts l)
   else l <- or_raise ValueError
               (list_remove (obj host_removed) (healthy_hosts p)) ;;
        modify (set_healthy_hosts l)) ;;;
  modify (fun p => set_hosts (remove_obj (obj host_removed) (hosts p)) p) ;;;
  modify (fun p => set_hosts
            (shift_down (coefficient_index host_removed) (hosts p)) p) ;;;
  p <- get ;;
  rows <- or_raise IndexError
            (np_delete (coefficients_hosts p)
               (coefficient_index host_removed)) ;;
  modify (set_coefficients_hosts rows).

(** [range(n)] iterations of a body. *)
Fixpoint repeat_times {S : Type} (n : nat) (body : M S unit) : M S unit :=
  match n with
  | O => ret tt
  | S n' => body ;;; repeat_times n' body
  end.

(** The argument is a number of hosts ([inl]) or a list of hosts
    ([inr]), given by reference. *)
Definition removeHosts (num_hosts_or_list : nat + list nat)
  : M Population unit :=
  match num_hosts_or_list with
  | inr l =>
      for_each l (fun o =>
        p <- get ;;
        match find_obj o (hosts p) with
        | Some host_removed => remove_host host_removed
        | None => ret tt
        end)
  | inl n =>
      repeat_times n
        (p <- get ;;
         host_removed <- np_random_choice1 (hosts p) ;;
         remove_host host_removed)
  end.

(** The statements that remove the vector [vector_removed], which is in
    [self.vectors]. The row is deleted from [self.coefficients_hosts], as
    in the source. *)
Definition remove_vector (vector_removed : Individual)
  : M Population unit :=
  p <- get ;;
  (if mem_ref (obj vector_removed) (infected_vectors p)
   then l <- or_raise ValueError
               (list_remove (obj vector_removed) (infected_vectors p)) ;;
        modify (set_infected_vectors l)
   else ret tt) ;;;
  modify (fun p =>
            set_vectors (remove_obj (obj vector_removed) (vectors p)) p) ;;;
  modify (fun p => set_vectors
            (shift_down (coefficient_index vector_removed) (vectors p))
            p) ;;;
  p <- get ;;
  rows <- or_raise IndexError
            (np_delete (coefficients_hosts p)
               (coefficient_index vector_removed)) ;;
  modify (set_coefficients_hosts rows).

(** With a number for argument the source evaluates [range(num_vectors)],
    a name that is not bound in the method: NameError. *)
Definition removeVectors (num_vectors_or_list : nat + list nat)
  : M Population unit :=
  match num_vectors_or_list with
  | inr l =>
      for_each l (fun o =>
        p <- get ;;
        match find_obj o (vectors p) with
        | Some vector_removed => remove_vector vector_removed
        | None => ret tt
        end)
  | inl _ => raise NameError
  end.

(** *** addPathogensToHosts, addPathogensToVectors *)

(** [[allele in possible_alleles[i] for i,allele in enumerate(genome)]];
    [None] is the IndexError of a locus without an alphabet. *)
Fixpoint alleles_allowed (possible : list string) (genome : list ascii)
  {struct genome} : option (list bool) :=
  match genome with
  | [] => Some []
  | allele :: genome' =>
      match possible with
      | [] => None
      | alphabet :: possible' =>
          match alleles_allowed possible' genome' with
          | Some bs =>
              Some (existsb (Ascii.eqb allele)
                      (list_ascii_of_string alphabet) :: bs)
          | None => None
          end
      end
  end.

(** The test of the [if] in the loop over the genomes: [and] evaluates
    its second operand only when the length is right. *)
Definition genome_check (p : Population) (genome : string)
  : option bool :=
  if String.length genome =? num_loci p then
    match alleles_allowed (possible_alleles p)
            (list_ascii_of_string genome) with
    | Some bs => Some (forallb (fun b => b) bs)
    | None => None
    end
  else Some false.

(** The loop over [genomes_numbers], with [hosts] already defaulted. In
    the [else] branch the message of the ValueError is built first, and
    it concatenates a [str] and [self.possible_alleles], here the list of
    the alphabets of the loci: that is a TypeError, raised before the
    ValueError exists. *)
Fixpoint add_pathogens (acquire : nat -> string -> M Population unit)
  (genomes_numbers : dict nat) (individuals : list nat)
  : M Population unit :=
  match genomes_numbers with
  | [] => ret tt
  | (genome, number) :: rest =>
      p <- get ;;
      ok <- or_raise IndexError (genome_check p genome) ;;
      if ok : bool then
        rand <- np_random_choice individuals number ;;
        for_each rand (fun o => acquire o genome) ;;;
        add_pathogens acquire rest individuals
      else raise TypeError
  end.

Definition addPathogensToHosts (genomes_numbers : dict nat)
  (hosts_arg : list nat) : M Population unit :=
  p <- get ;;
  let hosts_arg :=
    if length hosts_arg =? 0 then map obj (hosts p) else hosts_arg in
  add_pathogens Host_acquirePathogen genomes_numbers hosts_arg.

Definition addPathogensToVectors (genomes_numbers : dict nat)
  (vectors_arg : list nat) : M Population unit :=
  p <- get ;;
  let vectors_arg :=
    if length vectors_arg =? 0 then map obj (vectors p) else vectors_arg in
  add_pathogens Vector_acquirePathogen genomes_numbers vectors_arg.

End PopulationMethods.

(** ** Population: the events of the simulation *)

Section PopulationEvents.

Context {R : Random} {IC : IndividualContract}.

(** [index, rand = self.getWeightedRandom(rand, r)]: unpacking the [None]
    of a scan that selected nothing raises TypeError. *)
Definition weighted_index {S : Type} (rand : Q) (r : list Q)
  : M S (nat * Q) :=
  or_raise TypeError (getWeightedRandom rand r).

(** [l[i]] *)
Definition item {S A : Type} (l : list A) (i : nat) : M S A :=
  or_raise IndexError (nth_error l i).

Definition contactHostHost (rand : Q) : M Population bool :=
  p <- get ;;
  drawn <- weighted_index rand
    (np_multiply (one_minus (column CONTACT (coefficients_hosts p)))
       (column INFECTED (coefficients_hosts p))) ;;
  let index_host := fst drawn in
  let rand := snd drawn in
  drawn <- weighted_index rand
    (one_minus (column CONTACT (coefficients_hosts p))) ;;
  let index_other_host := fst drawn in
  host <- item (hosts p) index_host ;;
  other_host <- item (hosts p) index_other_host ;;
  Host_infectHost (obj host) (obj other_host).

Definition contactHostVector (rand : Q) : M Population bool :=
  p <- get ;;
  drawn <- weighted_index rand
    (np_multiply (one_minus (column CONTACT (coefficients_hosts p)))
       (column INFECTED (coefficients_hosts p))) ;;
  let index_host := fst drawn in
  let rand := snd drawn in
  drawn <- weighted_index rand
    (one_minus (column CONTACT (coefficients_vectors p))) ;;
  let index_vector := fst drawn in
  host <- item (hosts p) index_host ;;
  vector <- item (vectors p) index_vector ;;
  Host_infectVector (obj host) (obj vector).

Definition contactVectorHost (rand : Q) : M Population bool :=
  p <- get ;;
  drawn <- weighted_index rand
    (np_multiply (one_minus (column CONTACT (coefficients_vectors p)))
       (column INFECTED (coefficients_vectors p))) ;;
  let index_vector := fst drawn in
  let rand := snd drawn in
  drawn <- weighted_index rand
    (one_minus (column CONTACT (coefficients_hosts p))) ;;
  let index_host := fst drawn in
  vector <- item (vectors p) index_vector ;;
  host <- item (hosts p) index_host ;;
  Vector_infectHost (obj vector) (obj host).

Definition recoverHost (rand : Q) : M Population unit :=
  p <- get ;;
  drawn <- weighted_index rand (column RECOVERY (coefficients_hosts p)) ;;
  host <- item (hosts p) (fst drawn) ;;
  Host_recover (obj host).

Definition recoverVector (rand : Q) : M Population unit :=
  p <- get ;;
  drawn <- weighted_index rand (column RECOVERY (coefficients_vectors p)) ;;
  vector <- item (vectors p) (fst drawn) ;;
  Vector_recover (obj vector).

(** The source binds the drawn index to the name [index_vector] and then
    reads [self.hosts[index_host]]: [index_host] is not bound in the
    method, and reading it raises NameError. *)
Definition killHost (rand : Q) : M Population unit :=
  p <- get ;;
  drawn <- weighted_index rand (column LETHALITY (coefficients_hosts p)) ;;
  let index_vector := fst drawn in
  raise NameError.

Definition killVector (rand : Q) : M Population unit :=
  p <- get ;;
  drawn <- weighted_index rand
    (column LETHALITY (coefficients_vectors p)) ;;
  let index_vector := fst drawn in
  vector <- item (vectors p) index_vector ;;
  Vector_die (obj vector).

Definition mutateHost (rand : Q) : M Population unit :=
  p <- get ;;
  drawn <- weighted_index rand (column MUTATION (coefficients_hosts p)) ;;
  host <- item (hosts p) (fst drawn) ;;
  Host_mutate (obj host) (snd drawn).

Definition mutateVector (rand : Q) : M Population unit :=
  p <- get ;;
  drawn <- weighted_index rand (column MUTATION (coefficients_vectors p)) ;;
  vector <- item (vectors p) (fst drawn) ;;
  Vector_mutate (obj vector) (snd drawn).

(** The source draws on the MUTATION column here too. *)
Definition recombineHost (rand : Q) : M Population unit :=
  p <- get ;;
  drawn <- weighted_index rand (column MUTATION (coefficients_hosts p)) ;;
  host <- item (hosts p) (fst drawn) ;;
  Host_recombine (obj host) (snd drawn).

Definition recombineVector (rand : Q) : M Population unit :=
  p <- get ;;
  drawn <- weighted_index rand (column MUTATION (coefficients_vectors p)) ;;
  vector <- item (vectors p) (fst drawn) ;;
  Vector_recombine (obj vector) (snd drawn).

(** The first part of [migrate]: who migrates, as references to hosts and
    to vectors of this population. *)
Definition select_migrants (num_hosts num_vectors : nat) (rand : option Q)
  : M Population (list nat * list nat) :=
  p <- get ;;
  match rand with
  | None =>
      migrating_hosts <- np_random_choice_p (map obj (hosts p)) num_hosts
                           (column MIGRATION (coefficients_hosts p)) ;;
      migrating_vectors <- np_random_choice_p (map obj (vectors p))
                             num_vectors
                             (column MIGRATION (coefficients_vectors p)) ;;
      ret (migrating_hosts, migrating_vectors)
  | Some rand =>
      if num_hosts =? 1 then
        drawn <- weighted_index rand
                   (column MIGRATION (coefficients_hosts p)) ;;
        host <- item (hosts p) (fst drawn) ;;
        ret ([obj host], [])
      else
        drawn <- weighted_index rand
                   (column MIGRATION (coefficients_vectors p)) ;;
        vector <- item (vectors p) (fst drawn) ;;
        ret ([], [obj vector])
  end.

(** [{ g:1 for g in individual.pathogens }], for the object of identity
    [o] in [l]. *)
Definition carried_genomes (o : nat) (l : list Individual) : dict nat :=
  match find_obj o l with
  | Some h =>
      fold_left (fun d g => dict_set g 1%nat d) (keys (pathogens h)) []
  | None => []
  end.

End PopulationEvents.

(** ** The model: populations by id, and scheduled interventions *)

(** An intervention acts on the populations of the model. *)
Record Intervention : Type := {
  time : Q;
  doIntervention : dict Population -> dict Population }.

Record Model : Type := {
  populations : dict Population;
  interventions : list Intervention }.

Definition set_populations (v : dict Population) (m : Model) : Model :=
  {| populations := v; interventions := interventions m |}.

Definition set_interventions (v : list Intervention) (m : Model) : Model :=
  {| populations := populations m; interventions := v |}.

(** [self.model.populations[pid]] *)
Definition population_of (pid : string) : M Model Population :=
  fun m =>
    match dict_get pid (populations m) with
    | Some p => Ret p m
    | None => Raise KeyError m
    end.

(** A method of the population [pid] run inside the model: the population
    object is mutated in place, also when the method raises. *)
Definition in_population {A : Type} (pid : string) (f : M Population A)
  : M Model A :=
  fun m =>
    match dict_get pid (populations m) with
    | None => Raise KeyError m
    | Some p =>
        match f p with
        | Ret a p' =>
            Ret a (set_populations (dict_set pid p' (populations m)) m)
        | Raise e p' =>
            Raise e (set_populations (dict_set pid p' (populations m)) m)
        end
    end.

Section Migration.

Context {R : Random} {IC : IndividualContract}.

(** The loop [for host in migrating_hosts] of [migrate]. *)
Definition transfer_hosts (self target_pop : string)
  (migrating_hosts : list nat) : M Model unit :=
  for_each migrating_hosts (fun host =>
    origin <- population_of self ;;
    let genomes := carried_genomes host (hosts origin) in
    in_population self (removeHosts (inr [host])) ;;;
    new_host_list <- in_population target_pop (addHosts 1) ;;
    in_population target_pop (addPathogensToHosts genomes new_host_list)).

(** The loop [for vector in migrating_vectors] of [migrate]. *)
Definition transfer_vectors (self target_pop : string)
  (migrating_vectors : list nat) : M Model unit :=
  for_each migrating_vectors (fun vector =>
    origin <- population_of self ;;
    let genomes := carried_genomes vector (vectors origin) in
    in_population self (removeVectors (inr [vector])) ;;;
    new_vector_list <- in_population target_pop (addVectors 1) ;;
    in_population target_pop
      (addPathogensToVectors genomes new_vector_list)).

(** [self.migrate(target_pop, num_hosts, num_vectors, rand)], with both
    populations named by id. *)
Definition migrate (self target_pop : string) (num_hosts num_vectors : nat)
  (rand : option Q) : M Model unit :=
  migrating <- in_population self
                 (select_migrants num_hosts num_vectors rand) ;;
  transfer_hosts self target_pop (fst migrating) ;;;
  transfer_vectors self target_pop (snd migrating).

End Migration.

(** ** Gillespie *)

Definition MIGRATE_HOST : nat := 0.
Definition MIGRATE_VECTOR : nat := 1.
Definition POPULATION_CONTACT_HOST_HOST : nat := 2.
Definition POPULATION_CONTACT_HOST_VECTOR : nat := 3.
Definition POPULATION_CONTACT_VECTOR_HOST : nat := 4.
Definition CONTACT_HOST_HOST : nat := 5.
Definition CONTACT_HOST_VECTOR : nat := 6.
Definition CONTACT_VECTOR_HOST : nat := 7.
Definition RECOVER_HOST : nat := 8.
Definition RECOVER_VECTOR : nat := 9.
Definition MUTATE_HOST : nat := 10.
Definition MUTATE_VECTOR : nat := 11.
Definition RECOMBINE_HOST : nat := 12.
Definition RECOMBINE_VECTOR : nat := 13.
Definition KILL_HOST : nat := 14.
Definition KILL_VECTOR : nat := 15.

(** [a.mean()]: [None] is the nan numpy gives for an empty array. *)
Definition np_mean (a : list Q) : option Q :=
  match a with
  | [] => None
  | _ => Some (np_sum a / inject_Z (Z.of_nat (length a)))
  end.

(** The loop over the migration neighbors in [doAction]: the neighbor at
    which the running sum exceeds [rand], with the renormalized draw. *)
Fixpoint migration_scan (rand r_cum : Q) (neighbors : dict Q)
  : option (string * Q) :=
  match neighbors with
  | [] => None
  | (neighbor, rate) :: rest =>
      let r_cum := r_cum + rate in
      if Qltb rand r_cum then Some (neighbor, (rand - r_cum + rate) / rate)
      else migration_scan rand r_cum rest
  end.

(** The loop over the contact neighbors in [doAction]. The running sum
    [r_cum] is [None] once it is nan, and then no comparison holds. At the
    neighbor where the running sum exceeds [rand] the source evaluates the
    arguments of [pop.populationContact], the first of which is the name
    [target_pop], not bound in [doAction]: NameError. *)
Fixpoint population_contact_scan (coefficients : Population -> list (list Q))
  (rand : Q) (r_cum : option Q) (neighbors : dict Q) : M Model bool :=
  match neighbors with
  | [] => ret false
  | (neighbor, rate) :: rest =>
      other <- population_of neighbor ;;
      let r_cum :=
        match r_cum,
              np_mean (column POPULATION_CONTACT (coefficients other)) with
        | Some c, Some mean => Some (c + rate * mean)
        | _, _ => None
        end in
      match r_cum with
      | Some c =>
          if Qltb rand c then raise NameError
          else population_contact_scan coefficients rand r_cum rest
      | None => population_contact_scan coefficients rand r_cum rest
      end
  end.

Section Dispatch.

Context {R : Random} {IC : IndividualContract}.

(** [pop] is the id of the population the action happens in. *)
Definition doAction (act : nat) (pop : string) (rand : Q) : M Model bool :=
  if act =? MIGRATE_HOST then
    p <- population_of pop ;;
    let rand := rand * total_migration_rate_hosts (links p) in
    match migration_scan rand 0 (neighbors_hosts (links p)) with
    | Some (neighbor, rand') =>
        migrate pop neighbor 1 0 (Some rand') ;;; ret true
    | None => ret false
    end
  else if act =? MIGRATE_VECTOR then
    p <- population_of pop ;;
    let rand := rand * total_migration_rate_vectors (links p) in
    match migration_scan rand 0 (neighbors_vectors (links p)) with
    | Some (neighbor, rand') =>
        migrate pop neighbor 0 1 (Some rand') ;;; ret true
    | None => ret false
    end
  else if act =? POPULATION_CONTACT_HOST_HOST then
    p <- population_of pop ;;
    let rand := rand * total_population_contact_rate_host_host (links p) in
    population_contact_scan coefficients_hosts rand (Some 0)
      (neighbors_contact_hosts (links p))
  else if act =? POPULATION_CONTACT_HOST_VECTOR then
    p <- population_of pop ;;
    let rand := rand * total_population_contact_rate_host_vector (links p) in
    population_contact_scan coefficients_vectors rand (Some 0)
      (neighbors_contact_hosts (links p))
  else if act =? POPULATION_CONTACT_VECTOR_HOST then
    p <- population_of pop ;;
    let rand := rand * total_population_contact_rate_vector_host (links p) in
    population_contact_scan coefficients_hosts rand (Some 0)
      (neighbors_contact_vectors (links p))
  else if act =? CONTACT_HOST_HOST then
    in_population pop (contactHostHost rand)
  else if act =? CONTACT_HOST_VECTOR then
    in_population pop (contactHostVector rand)
  else if act =? CONTACT_VECTOR_HOST then
    in_population pop (contactVectorHost rand)
  else if act =? RECOVER_HOST then
    in_population pop (recoverHost rand) ;;; ret true
  else if act =? RECOVER_VECTOR then
    in_population pop (recoverVector rand) ;;; ret true
  else if act =? MUTATE_HOST then
    in_population pop (mutateHost rand) ;;; ret true
  else if act =? MUTATE_VECTOR then
    in_population pop (mutateVector rand) ;;; ret true
  else if act =? RECOMBINE_HOST then
    in_population pop (recombineHost rand) ;;; ret true
  else if act =? RECOMBINE_VECTOR then
    in_population pop (recombineVector rand) ;;; ret true
  else if act =? KILL_HOST then
    in_population pop (killHost rand) ;;; ret true
  else if act =? KILL_VECTOR then
    in_population pop (killVector rand) ;;; ret true
  else ret false.

End Dispatch.

(** ** Gillespie.run *)

(** What [run] calls outside the two files and the rate engine:
    [Model.copyState], which gives the slimmed copy of the model kept at
    intermediate times, and [getRates], the matrix of rates (one row per
    event, one column per population id), which also stores the
    population contact totals in the populations. *)
Class ModelContract : Type := {
  Slim : Type;
  Model_copyState : Model -> Slim;
  getRates : list string -> M (dict Population) (list (list Q)) }.

(** [np.sum] of a matrix. *)
Definition np_sum2 (r : list (list Q)) : Q := np_sum (map np_sum r).

(** [sorted(l, key=lambda i: i.time)]: a stable sort. *)
Fixpoint insert_by_time (i : Intervention) (l : list Intervention)
  : list Intervention :=
  match l with
  | [] => [i]
  | j :: l' =>
      if Qle_bool (time i) (time j) then i :: j :: l'
      else j :: insert_by_time i l'
  end.

Definition sorted_by_time (l : list Intervention) : list Intervention :=
  fold_right insert_by_time [] l.

Section Run.

Context {R : Random} {IC : IndividualContract} {MC : ModelContract}.

(** A value of the history: [cp.deepcopy(self.model)], with whether its
    [history] attribute was then set to [None], or [copyState()]. *)
Inductive Snapshot : Type :=
| Deep (m : Model) (history_is_None : bool)
| Slimmed (s : Slim).

(** The variables of [run] and the model. [draws] counts the draws taken
    from the generator; [printed] is what was printed: the time and the
    event id. *)
Record RunState : Type := {
  model : Model;
  t_var : Q;
  history : list (Q * Snapshot);
  intervention_tracker : nat;
  print_counter : nat;
  sampling_counter : Z;
  draws : nat;
  printed : list (Q * nat) }.

Definition set_model (v : Model) (s : RunState) : RunState :=
  {| model := v; t_var := t_var s; history := history s;
     intervention_tracker := intervention_tracker s; print_counter :=
     print_counter s; sampling_counter := sampling_counter s; draws := draws
     s; printed := printed s |}.

Definition set_t_var (v : Q) (s : RunState) : RunState :=
  {| model := model s; t_var := v; history := history s;
     intervention_tracker := intervention_tracker s; print_counter :=
     print_counter s; sampling_counter := sampling_counter s; draws := draws
     s; printed := printed s |}.

Definition set_history (v : list (Q * Snapshot)) (s : RunState) : RunState :=
  {| model := model s; t_var := t_var s; history := v; intervention_tracker
     := intervention_tracker s; print_counter := print_counter s;
     sampling_counter := sampling_counter s; draws := draws s; printed :=
     printed s |}.

Definition set_intervention_tracker (v : nat) (s : RunState) : RunState :=
  {| model := model s; t_var := t_var s; history := history s;
     intervention_tracker := v; print_counter := print_counter s;
     sampling_counter := sampling_counter s; draws := draws s; printed :=
     printed s |}.

Definition set_print_counter (v : nat) (s : RunState) : RunState :=
  {| model := model s; t_var := t_var s; history := history s;
     intervention_tracker := intervention_tracker s; print_counter := v;
     sampling_counter := sampling_counter s; draws := draws s; printed :=
     printed s |}.

Definition set_sampling_counter (v : Z) (s : RunState) : RunState :=
  {| model := model s; t_var := t_var s; history := history s;
     intervention_tracker := intervention_tracker s; print_counter :=
     print_counter s; sampling_counter := v; draws := draws s; printed :=
     printed s |}.

Definition set_draws (v : nat) (s : RunState) : RunState :=
  {| model := model s; t_var := t_var s; history := history s;
     intervention_tracker := intervention_tracker s; print_counter :=
     print_counter s; sampling_counter := sampling_counter s; draws := v;
     printed := printed s |}.

Definition set_printed (v : list (Q * nat)) (s : RunState) : RunState :=
  {| model := model s; t_var := t_var s; history := history s;
     intervention_tracker := intervention_tracker s; print_counter :=
     print_counter s; sampling_counter := sampling_counter s; draws := draws
     s; printed := v |}.

(** [history[t] = x]: a key equal to [t] keeps its place and its key
    object. *)
Fixpoint history_set (t : Q) (x : Snapshot) (h : list (Q * Snapshot))
  : list (Q * Snapshot) :=
  match h with
  | [] => [(t, x)]
  | (t', x') :: h' =>
      if Qeq_bool t t' then (t', x) :: h' else (t', x') :: history_set t x h'
  end.

(** [history.get(t)] *)
Fixpoint history_get (t : Q) (h : list (Q * Snapshot)) : option Snapshot :=
  match h with
  | [] => None
  | (t', x) :: h' => if Qeq_bool t t' then Some x else history_get t h'
  end.

Definition on_model {A : Type} (f : M Model A) : M RunState A :=
  fun s =>
    match f (model s) with
    | Ret a m => Ret a (set_model m s)
    | Raise e m => Raise e (set_model m s)
    end.

Definition on_populations {A : Type} (f : M (dict Population) A)
  : M RunState A :=
  fun s =>
    match f (populations (model s)) with
    | Ret a ps => Ret a (set_model (set_populations ps (model s)) s)
    | Raise e ps => Raise e (set_model (set_populations ps (model s)) s)
    end.

Definition draw_exponential (scale : Q) : M RunState Q :=
  fun s =>
    Ret (exponential_oracle (draws s) scale) (set_draws (S (draws s)) s).

Definition draw_random : M RunState Q :=
  fun s => Ret (random_oracle (draws s)) (set_draws (S (draws s)) s).

(** [history[t_var] = self.model.copyState()] *)
Definition save_snapshot : M RunState unit :=
  modify (fun s =>
    set_history
      (history_set (t_var s) (Slimmed (Model_copyState (model s)))
         (history s)) s).

(** The ids, the rates and their sum:
    [population_ids = list(self.model.populations.keys())],
    [r = self.getRates(population_ids)], [r_tot = np.sum(r)]. *)
Definition current_rates : M RunState (list string * list (list Q) * Q) :=
  s <- get ;;
  let population_ids := keys (populations (model s)) in
  r <- on_populations (getRates population_ids) ;;
  ret (population_ids, r, np_sum2 r).

(** The three statements that carry out the next intervention. *)
Definition carry_out (i : Intervention) : M RunState unit :=
  modify (fun s =>
    set_model
      (set_populations (doIntervention i (populations (model s)))
         (model s)) s) ;;;
  modify (set_t_var (time i)) ;;;
  modify (fun s =>
    set_intervention_tracker (S (intervention_tracker s)) s).

(** The inner [while] of the branch [r_tot > 0], over the interventions
    from [intervention_tracker] on: it goes on while the next one is due,
    or while no event can happen. *)
Fixpoint interventions_positive (pending : list Intervention)
  (rates : list string * list (list Q) * Q)
  : M RunState (list string * list (list Q) * Q) :=
  match pending with
  | [] => ret rates
  | i :: rest =>
      s <- get ;;
      if Qle_bool (time i) (t_var s) || Qeq_bool (snd rates) 0 then
        carry_out i ;;;
        modify (set_sampling_counter 0%Z) ;;;
        save_snapshot ;;;
        rates' <- current_rates ;;
        interventions_positive rest rates'
      else ret rates
  end.

(** The [while] of the branch without events, over the interventions from
    [intervention_tracker] on: it goes on while the next one is due. *)
Fixpoint interventions_zero (pending : list Intervention)
  : M RunState unit :=
  match pending with
  | [] => ret tt
  | i :: rest =>
      s <- get ;;
      if Qle_bool (time i) (t_var s) then
        carry_out i ;;; interventions_zero rest
      else ret tt
  end.

(** The inner loop of the event search, over the populations of one event:
    the selected column with the renormalized draw, or the running sum
    after the row. *)
Fixpoint scan_row (u r_cum : Q) (p : nat) (row : list Q)
  : (nat * Q) + Q :=
  match row with
  | [] => inr r_cum
  | c :: row' =>
      let r_cum := r_cum + c in
      if Qltb u r_cum then inl (p, (u - r_cum + c) / c)
      else scan_row u r_cum (S p) row'
  end.

(** The outer loop of the event search, over the events. *)
Fixpoint scan_rates (u r_cum : Q) (e : nat) (r : list (list Q))
  : option (nat * nat * Q) :=
  match r with
  | [] => None
  | row :: r' =>
      match scan_row u r_cum 0 row with
      | inl (p, x) => Some (e, p, x)
      | inr r_cum' => scan_rates u r_cum' (S e) r'
      end
  end.

(** What follows the call of [doAction]: the snapshot, at the sampling
    stride. *)
Definition record_change (time_sampling : Z) (changed : bool)
  : M RunState unit :=
  if changed && (0 <=? time_sampling)%Z then
    modify (fun s => set_sampling_counter (sampling_counter s + 1)%Z s) ;;;
    s <- get ;;
    if (time_sampling <? sampling_counter s)%Z then
      modify (set_sampling_counter 0%Z) ;;;
      save_snapshot
    else ret tt
  else ret tt.

(** The body of [if u < r_cum] for the cell of event [e] and column [p]. *)
Definition dispatch (time_sampling : Z) (print_every_n_events : nat)
  (population_ids : list string) (e p : nat) (rand : Q)
  : M RunState unit :=
  modify (fun s => set_print_counter (S (print_counter s)) s) ;;;
  s <- get ;;
  (if print_counter s =? print_every_n_events then
     modify (set_print_counter 0%nat) ;;;
     modify (fun s => set_printed (printed s ++ [(t_var s, e)]) s)
   else ret tt) ;;;
  pop <- or_raise IndexError (nth_error population_ids p) ;;
  on_model (population_of pop) ;;;
  changed <- on_model (doAction e pop rand) ;;
  record_change time_sampling changed.

(** The part [# Event handling] under [if t_var < tf]. *)
Definition handle_event (time_sampling : Z) (print_every_n_events : nat)
  (rates : list string * list (list Q) * Q) : M RunState unit :=
  let population_ids := fst (fst rates) in
  let r := snd (fst rates) in
  let r_tot := snd rates in
  x <- draw_random ;;
  let u := x * r_tot in
  match scan_rates u 0 0 r with
  | Some (e, p, rand) =>
      dispatch time_sampling print_every_n_events population_ids e p rand
  | None => ret tt
  end.

(** [dt = np.random.exponential(1/r_tot)], [t_var += dt] *)
Definition advance (r_tot : Q) : M RunState unit :=
  dt <- draw_exponential (1 / r_tot) ;;
  modify (fun s => set_t_var (t_var s + dt) s).

(** The part [# Time handling] of the branch [r_tot > 0]: the time of
    the next event, the interventions due by then, and the ids, rates and
    sum that the event is then drawn from. *)
Definition time_handling (tf : Q) (rates : list string * list (list Q) * Q)
  : M RunState (list string * list (list Q) * Q) :=
  advance (snd rates) ;;;
  s <- get ;;
  match nth_error (interventions (model s)) (intervention_tracker s) with
  | Some i =>
      if Qle_bool (time i) (t_var s) then
        rates' <- interventions_positive
                    (skipn (intervention_tracker s)
                       (interventions (model s))) rates ;;
        (if Qltb 0 (snd rates') then advance (snd rates')
         else modify (set_t_var tf)) ;;;
        ret rates'
      else ret rates
  | None => ret rates
  end.

(** One turn of [while t_var < tf]. *)
Definition run_iteration (tf : Q) (time_sampling : Z)
  (print_every_n_events : nat) : M RunState unit :=
  rates <- current_rates ;;
  if Qltb 0 (snd rates) then
    rates <- time_handling tf rates ;;
    s <- get ;;
    if Qltb (t_var s) tf then
      handle_event time_sampling print_every_n_events rates
    else ret tt
  else
    s <- get ;;
    match nth_error (interventions (model s)) (intervention_tracker s) with
    | Some _ =>
        interventions_zero
          (skipn (intervention_tracker s) (interventions (model s)))
    | None => modify (set_t_var tf)
    end.

(** [while t_var < tf], for at most [fuel] turns: [None] when the loop is
    still running after them. *)
Fixpoint run_loop (fuel : nat) (tf : Q) (time_sampling : Z)
  (print_every_n_events : nat) (s : RunState)
  : option (outcome RunState unit) :=
  if Qltb (t_var s) tf then
    match fuel with
    | O => None
    | S fuel' =>
        match run_iteration tf time_sampling print_every_n_events s with
        | Ret _ s' =>
            run_loop fuel' tf time_sampling print_every_n_events s'
        | Raise e s' => Some (Raise e s')
        end
    end
  else Some (Ret tt s).

(** The variables of [run] before the loop. *)
Definition initial_state (t0 : Q) (m : Model) : RunState :=
  {| model := set_interventions (sorted_by_time (interventions m)) m;
     t_var := t0;
     history := [(0, Deep m false)];
     intervention_tracker := 0;
     print_counter := 0;
     sampling_counter := 0%Z;
     draws := 0;
     printed := [] |}.

(** The statements of [run] after the loop: the returned history. *)
Definition final_history (tf : Q) (s : RunState) : list (Q * Snapshot) :=
  history_set tf (Deep (model s) true) (history s).

(** [run(t0, tf, time_sampling, host_sampling, vector_sampling,
    print_every_n_events)] on the model [m], for at most [fuel] turns of
    its loop. The two sampling arguments for hosts and vectors are not
    read by the method; the line printed after the loop is not kept. *)
Definition run (fuel : nat) (t0 tf : Q) (time_sampling : Z)
  (host_sampling vector_sampling : Z) (print_every_n_events : nat)
  (m : Model) : option (outcome RunState (list (Q * Snapshot))) :=
  match run_loop fuel tf time_sampling print_every_n_events
          (initial_state t0 m) with
  | Some (Ret _ s) => Some (Ret (final_history tf s) s)
  | Some (Raise e s) => Some (Raise e s)
  | None => None
  end.

End Run.

(** ** The row-index invariant *)

(** The rows of a coefficient matrix and a list of live individuals
    correspond: as many rows as individuals, and each individual's
    [coefficient_index] is its position in the list. *)
Definition rows_match (individuals : list Individual)
  (coefficients : list (list Q)) : Prop :=
  length coefficients = length individuals /\
  forall i h, nth_error individuals i = Some h -> coefficient_index h = i.

Definition row_index_invariant (p : Population) : Prop :=
  rows_match (hosts p) (coefficients_hosts p) /\
  rows_match (vectors p) (coefficients_vectors p).

(** A genome that the population does not accept: its length is not the
    number of loci, or one of its alleles is not in the alphabet of its
    locus. *)
Definition genome_invalid (p : Population) (genome : string) : Prop :=
  String.length genome <> num_loci p \/
  exists i allele alphabet,
    nth_error (list_ascii_of_string genome) i = Some allele /\
    nth_error (possible_alleles p) i = Some alphabet /\
    ~ In allele (list_ascii_of_string alphabet).

(** Two states of a population with the same loci and alphabets. *)
Definition same_setup (p p' : Population) : Prop :=
  num_loci p' = num_loci p /\ possible_alleles p' = possible_alleles p.

(** ** Inputs of the examples *)

(** A generator that samples the first elements of a list, picks its
    first position, and draws 1/2. *)
Definition first_draws : Random :=
  {| choice_oracle := fun a k => firstn k a;
     pick_oracle := fun _ => 0%nat;
     exponential_oracle := fun _ scale => scale;
     random_oracle := fun _ => 1 # 2 |}.

(** Hosts and vectors whose coefficients are all 1 once they carry a
    pathogen, and whose other methods change nothing. *)
Definition plain_individuals : IndividualContract :=
  {| host_row := fun _ => repeat 1 NUM_COEFFICIENTS;
     vector_row := fun _ => repeat 1 NUM_COEFFICIENTS;
     Host_recover := fun _ => ret tt;
     Vector_recover := fun _ => ret tt;
     Host_die := fun _ => ret tt;
     Vector_die := fun _ => ret tt;
     Host_mutate := fun _ _ => ret tt;
     Vector_mutate := fun _ _ => ret tt;
     Host_recombine := fun _ _ => ret tt;
     Vector_recombine := fun _ _ => ret tt;
     Host_infectHost := fun _ _ => ret false;
     Host_infectVector := fun _ _ => ret false;
     Vector_infectHost := fun _ _ => ret false |}.

(** The rates of a model whose individuals are all healthy, so that
    their coefficients are all 0: every rate is 0. *)
Definition no_rates : ModelContract :=
  {| Slim := Model;
     Model_copyState := fun m => m;
     getRates := fun population_ids =>
       ret (repeat (map (fun _ => 0) population_ids) 16) |}.

(** A rate engine that gives every event of every population the
    rate 1. *)
Definition unit_rates : ModelContract :=
  {| Slim := Model;
     Model_copyState := fun m => m;
     getRates := fun population_ids =>
       ret (repeat (map (fun _ => 1) population_ids) 16) |}.

(** A population without individuals, its own neighbor at rate 0. *)
Definition new_population (pid : string) (loci : nat)
  (alleles : list string) : Population :=
  {| id := pid; num_loci := loci; possible_alleles := alleles;
     coefficients_hosts := []; coefficients_vectors := [];
     hosts := []; vectors := [];
     infected_hosts := []; healthy_hosts := []; infected_vectors := [];
     dead_hosts := []; dead_vectors := [];
     links :=
       {| neighbors_hosts := [(pid, 0)]; neighbors_vectors := [(pid, 0)];
          total_migration_rate_hosts := 0;
          total_migration_rate_vectors := 0;
          neighbors_contact_hosts := [(pid, 0)];
          neighbors_contact_vectors := [(pid, 0)];
          total_population_contact_rate_host_host := 0;
          total_population_contact_rate_host_vector := 0;
          total_population_contact_rate_vector_host := 0 |};
     next_obj := 0 |}.

(** The population after [addHosts(num_hosts)] and
    [addVectors(num_vectors)]. *)
Definition grown (pid : string) (loci : nat) (alleles : list string)
  (num_hosts num_vectors : nat) : Population :=
  final_state
    ((addHosts num_hosts ;;; addVectors num_vectors)
       (new_population pid loci alleles)).

(** Two healthy hosts (objects 0 and 1) and two healthy vectors (objects 2
    and 3). *)
Definition two_by_two : Population := grown "A" 1 ["A"%string] 2 2.

(** One healthy host (object 0) and one healthy vector (object 1). *)
Definition healthy_pair : Population := grown "A" 1 ["A"%string] 1 1.

(** One host (object 0) that carries the genome "A", and one healthy
    vector (object 1). *)
Definition infected_host : Population :=
  final_state
    (addPathogensToHosts (R := first_draws) (IC := plain_individuals)
       [("A"%string, 1%nat)] [] healthy_pair).

(** One host (object 0) and one vector (object 1), each carrying the
    genome "A". *)
Definition host_and_vector : Population :=
  final_state
    ((addPathogensToHosts (R := first_draws) (IC := plain_individuals)
        [("A"%string, 1%nat)] [] ;;;
      addPathogensToVectors (R := first_draws) (IC := plain_individuals)
        [("A"%string, 1%nat)] [])
       healthy_pair).


(** Two populations with different alphabets: "A" holds a host that
    carries the genome "A" and a healthy vector, "B" a healthy host and a
    healthy vector and allows only the allele B. *)
Definition two_alphabets : Model :=
  {| populations :=
       [("A"%string, infected_host);
        ("B"%string, grown "B" 1 ["B"%string] 1 1)];
     interventions := [] |}.

(** One population, with an infected host and a healthy vector, and no
    intervention. *)
Definition infected_model : Model :=
  {| populations := [("A"%string, infected_host)];
     interventions := [] |}.

(** One population, of a healthy host and a healthy vector, and no
    intervention. *)
Definition idle_model : Model :=
  {| populations := [("A"%string, healthy_pair)];
     interventions := [] |}.

(** One population, of a healthy host and a healthy vector, and one
    intervention at time 5 that adds the genome "A" to a host. *)
Definition seeded_later : Model :=
  {| populations := [("A"%string, healthy_pair)];
     interventions :=
       [ {| time := 5;
            doIntervention := fun ps =>
              match dict_get "A"%string ps with
              | Some p =>
                  dict_set "A"%string
                    (final_state
                       (addPathogensToHosts (R := first_draws)
                          (IC := plain_individuals)
                          [("A"%string, 1%nat)] [] p)) ps
              | None => ps
              end |} ] |}.

(** ** Population: neighbors, groups and protection *)

From Stdlib Require Import Qround.

Definition set_protection_sequences (v : list string) (h : Individual) : Individual :=
  {| obj := obj h; name := name h; coefficient_index := coefficient_index h;
     pathogens := pathogens h; protection_sequences := v |}.

Definition set_neighbors_hosts (v : dict Q) (n : Neighbors) : Neighbors :=
  {| neighbors_hosts := v; neighbors_vectors := neighbors_vectors n;
     total_migration_rate_hosts := total_migration_rate_hosts n;
     total_migration_rate_vectors := total_migration_rate_vectors n;
     neighbors_contact_hosts := neighbors_contact_hosts n;
     neighbors_contact_vectors := neighbors_contact_vectors n;
     total_population_contact_rate_host_host :=
     total_population_contact_rate_host_host n;
     total_population_contact_rate_host_vector :=
     total_population_contact_rate_host_vector n;
     total_population_contact_rate_vector_host :=
     total_population_contact_rate_vector_host n |}.

Definition set_neighbors_vectors (v : dict Q) (n : Neighbors) : Neighbors :=
  {| neighbors_hosts := neighbors_hosts n; neighbors_vectors := v;
     total_migration_rate_hosts := total_migration_rate_hosts n;
     total_migration_rate_vectors := total_migration_rate_vectors n;
     neighbors_contact_hosts := neighbors_contact_hosts n;
     neighbors_contact_vectors := neighbors_contact_vectors n;
     total_population_contact_rate_host_host :=
     total_population_contact_rate_host_host n;
     total_population_contact_rate_host_vector :=
     total_population_contact_rate_host_vector n;
     total_population_contact_rate_vector_host :=
     total_population_contact_rate_vector_host n |}.

Definition set_total_migration_rate_hosts (v : Q) (n : Neighbors) : Neighbors :=
  {| neighbors_hosts := neighbors_hosts n; neighbors_vectors :=
     neighbors_vectors n; total_migration_rate_hosts := v;
     total_migration_rate_vectors := total_migration_rate_vectors n;
     neighbors_contact_hosts := neighbors_contact_hosts n;
     neighbors_contact_vectors := neighbors_contact_vectors n;
     total_population_contact_rate_host_host :=
     total_population_contact_rate_host_host n;
     total_population_contact_rate_host_vector :=
     total_population_contact_rate_host_vector n;
     total_population_contact_rate_vector_host :=
     total_population_contact_rate_vector_host n |}.

Definition set_total_migration_rate_vectors (v : Q) (n : Neighbors) : Neighbors :=
  {| neighbors_hosts := neighbors_hosts n; neighbors_vectors :=
     neighbors_vectors n; total_migration_rate_hosts :=
     total_migration_rate_hosts n; total_migration_rate_vectors := v;
     neighbors_contact_hosts := neighbors_contact_hosts n;
     neighbors_contact_vectors := neighbors_contact_vectors n;
     total_population_contact_rate_host_host :=
     total_population_contact_rate_host_host n;
     total_population_contact_rate_host_vector :=
     total_population_contact_rate_host_vector n;
     total_population_contact_rate_vector_host :=
     total_population_contact_rate_vector_host n |}.

Definition set_neighbors_contact_hosts (v : dict Q) (n : Neighbors) : Neighbors :=
  {| neighbors_hosts := neighbors_hosts n; neighbors_vectors :=
     neighbors_vectors n; total_migration_rate_hosts :=
     total_migration_rate_hosts n; total_migration_rate_vectors :=
     total_migration_rate_vectors n; neighbors_contact_hosts := v;
     neighbors_contact_vectors := neighbors_contact_vectors n;
     total_population_contact_rate_host_host :=
     total_population_contact_rate_host_host n;
     total_population_contact_rate_host_vector :=
     total_population_contact_rate_host_vector n;
     total_population_contact_rate_vector_host :=
     total_population_contact_rate_vector_host n |}.

Definition set_neighbors_contact_vectors (v : dict Q) (n : Neighbors) : Neighbors :=
  {| neighbors_hosts := neighbors_hosts n; neighbors_vectors :=
     neighbors_vectors n; total_migration_rate_hosts :=
     total_migration_rate_hosts n; total_migration_rate_vectors :=
     total_migration_rate_vectors n; neighbors_contact_hosts :=
     neighbors_contact_hosts n; neighbors_contact_vectors := v;
     total_population_contact_rate_host_host :=
     total_population_contact_rate_host_host n;
     total_population_contact_rate_host_vector :=
     total_population_contact_rate_host_vector n;
     total_population_contact_rate_vector_host :=
     total_population_contact_rate_vector_host n |}.

Definition set_links (v : Neighbors) (p : Population) : Population :=
  {| id := id p; num_loci := num_loci p; possible_alleles :=
     possible_alleles p; coefficients_hosts := coefficients_hosts p;
     coefficients_vectors := coefficients_vectors p; hosts := hosts p;
     vectors := vectors p; infected_hosts := infected_hosts p; healthy_hosts
     := healthy_hosts p; infected_vectors := infected_vectors p; dead_hosts
     := dead_hosts p; dead_vectors := dead_vectors p; links := v; next_obj
     := next_obj p |}.

Definition setHostMigrationNeighbor (neighbor : string) (rate : Q)
  : M Population unit :=
  p <- get ;;
  (match dict_get neighbor (neighbors_hosts (links p)) with
   | Some old =>
       modify (fun p =>
         set_links
           (set_total_migration_rate_hosts
              (total_migration_rate_hosts (links p) - old) (links p)) p)
   | None => ret tt
   end) ;;;
  modify (fun p =>
    set_links
      (set_neighbors_hosts
         (dict_set neighbor rate (neighbors_hosts (links p))) (links p))
      p) ;;;
  modify (fun p =>
    set_links
      (set_total_migration_rate_hosts
         (total_migration_rate_hosts (links p) + rate) (links p)) p).

Definition setVectorMigrationNeighbor (neighbor : string) (rate : Q)
  : M Population unit :=
  p <- get ;;
  (match dict_get neighbor (neighbors_vectors (links p)) with
   | Some old =>
       modify (fun p =>
         set_links
           (set_total_migration_rate_vectors
              (total_migration_rate_vectors (links p) - old) (links p)) p)
   | None => ret tt
   end) ;;;
  modify (fun p =>
    set_links
      (set_neighbors_vectors
         (dict_set neighbor rate (neighbors_vectors (links p))) (links p))
      p) ;;;
  modify (fun p =>
    set_links
      (set_total_migration_rate_vectors
         (total_migration_rate_vectors (links p) + rate) (links p)) p).

Definition setHostPopulationContactNeighbor (neighbor : string) (rate : Q)
  : M Population unit :=
  modify (fun p =>
    set_links
      (set_neighbors_contact_hosts
         (dict_set neighbor rate (neighbors_contact_hosts (links p)))
         (links p)) p).

Definition setVectorPopulationContactNeighbor (neighbor : string)
  (rate : Q) : M Population unit :=
  modify (fun p =>
    set_links
      (set_neighbors_contact_vectors
         (dict_set neighbor rate (neighbors_contact_vectors (links p)))
         (links p)) p).

(** The values of a dictionary, in its order. *)
Definition values {V : Type} (d : dict V) : list V := map snd d.

(** A Python number: an [int] or a [float]. *)
Inductive number : Type :=
| py_int (z : Z)
| py_float (q : Q).

(** [int(q)] of a float: truncation towards zero. *)
Definition int_of_float (q : Q) : Z :=
  if Qle_bool 0 q then Qfloor q else Qceiling q.

(** [np.random.choice(a, size, replace=False)] for an [int] size that may
    be negative: a negative size raises ValueError. *)
Definition np_random_choice_int {R : Random} {S : Type} (a : list nat)
  (size : Z) : M S (list nat) :=
  if (size <? 0)%Z then raise ValueError
  else np_random_choice a (Z.to_nat size).

Section Groups.

Context {R : Random}.

(** The second half of [newHostGroup] and of [newVectorGroup]: the number
    of individuals asked for, and the sample of the possible ones. With a
    [float] of at least 1 that the pool can satisfy, the sample size given
    to numpy is a [float]: TypeError. *)
Definition sample_group {S : Type} (count : number) (possible : list nat)
  : M S (list nat) :=
  match count with
  | py_int z =>
      let num :=
        if (z <? 0)%Z then length possible
        else if (z <? 1)%Z then Z.to_nat (z * Z.of_nat (length possible))
        else Z.to_nat z in
      if num <=? length possible then np_random_choice possible num
      else raise ValueError
  | py_float q =>
      if Qltb q 0 then np_random_choice possible (length possible)
      else if Qltb q 1 then
        let num :=
          Z.to_nat
            (int_of_float (q * inject_Z (Z.of_nat (length possible)))) in
        if num <=? length possible then np_random_choice possible num
        else raise ValueError
      else if Qle_bool q (inject_Z (Z.of_nat (length possible)))
      then raise TypeError
      else raise ValueError
  end.

Definition newHostGroup (hosts_arg : number) (type : string)
  : M Population (list nat) :=
  p <- get ;;
  possible_hosts <-
    (if String.eqb type "healthy" then ret (healthy_hosts p)
     else if String.eqb type "infected" then ret (infected_hosts p)
     else if String.eqb type "any" then ret (map obj (hosts p))
     else raise ValueError) ;;
  sample_group hosts_arg possible_hosts.

Definition newVectorGroup (vectors_arg : number) (type : string)
  : M Population (list nat) :=
  p <- get ;;
  possible_vectors <-
    (if String.eqb type "healthy" then
       ret (map obj
              (filter
                 (fun vector =>
                    negb (mem_ref (obj vector) (infected_vectors p)))
                 (vectors p)))
     else if String.eqb type "infected" then ret (infected_vectors p)
     else if String.eqb type "any" then ret (map obj (vectors p))
     else raise ValueError) ;;
  sample_group vectors_arg possible_vectors.

(** [individual.protection_sequences.append(s)] for the object of identity
    [o] of a list of objects. *)
Definition append_protection (s : string) (o : nat) (l : list Individual)
  : list Individual :=
  match find_obj o l with
  | Some h =>
      store_obj (set_protection_sequences (protection_sequences h ++ [s]) h)
        l
  | None => l
  end.

(** [individual.protection_sequences = []] for the object of identity [o]
    of a list of objects. *)
Definition clear_protection (o : nat) (l : list Individual)
  : list Individual :=
  match find_obj o l with
  | Some h => store_obj (set_protection_sequences [] h) l
  | None => l
  end.

(** The sample is taken from [self.hosts], whatever the list given. *)
Definition protectHosts (frac_hosts : Q) (protection_sequence : string)
  (hosts_arg : list nat) : M Population unit :=
  p <- get ;;
  let hosts_to_consider :=
    if 0 <? length hosts_arg then hosts_arg else map obj (hosts p) in
  protect_hosts <-
    np_random_choice_int (map obj (hosts p))
      (int_of_float
         (frac_hosts * inject_Z (Z.of_nat (length hosts_to_consider)))) ;;
  for_each protect_hosts (fun host =>
    modify (fun p =>
      set_hosts (append_protection protection_sequence host (hosts p)) p)).

(** The sample is taken from [self.vectors], whatever the list given. *)
Definition protectVectors (frac_vectors : Q) (protection_sequence : string)
  (vectors_arg : list nat) : M Population unit :=
  p <- get ;;
  let vectors_to_consider :=
    if 0 <? length vectors_arg then vectors_arg else map obj (vectors p) in
  protect_vectors <-
    np_random_choice_int (map obj (vectors p))
      (int_of_float
         (frac_vectors
          * inject_Z (Z.of_nat (length vectors_to_consider)))) ;;
  for_each protect_vectors (fun vector =>
    modify (fun p =>
      set_vectors
        (append_protection protection_sequence vector (vectors p)) p)).

Definition wipeProtectionHosts (hosts_arg : list nat)
  : M Population unit :=
  p <- get ;;
  let hosts_to_consider :=
    if 0 <? length hosts_arg then hosts_arg else map obj (hosts p) in
  for_each hosts_to_consider (fun host =>
    modify (fun p => set_hosts (clear_protection host (hosts p)) p)).

Definition wipeProtectionVectors (vectors_arg : list nat)
  : M Population unit :=
  p <- get ;;
  let vectors_to_consider :=
    if 0 <? length vectors_arg then vectors_arg else map obj (vectors p) in
  for_each vectors_to_consider (fun vector =>
    modify (fun p => set_vectors (clear_protection vector (vectors p)) p)).

End Groups.

(** ** Properties stated below *)

(** The cached total of the migration rates is the sum of the rates of the
    neighbors. *)
Definition migration_totals_hold (n : Neighbors) : Prop :=
  total_migration_rate_hosts n == np_sum (values (neighbors_hosts n)) /\
  total_migration_rate_vectors n == np_sum (values (neighbors_vectors n)).

(** A genome that the population accepts: its length is the number of
    loci, and each of its alleles is in the alphabet of its locus. *)
Definition genome_valid (p : Population) (genome : string) : Prop :=
  String.length genome = num_loci p /\
  forall i allele,
    nth_error (list_ascii_of_string genome) i = Some allele ->
    exists alphabet,
      nth_error (possible_alleles p) i = Some alphabet /\
      In allele (list_ascii_of_string alphabet).

(** No weight in the column [k] of a matrix. *)
Definition no_weight (k : nat) (a : list (list Q)) : Prop :=
  forall e, In e (column k a) -> e == 0.

(** A matrix of zeros: the coefficients of individuals that carry no
    pathogen. *)
Definition all_zero (a : list (list Q)) : Prop :=
  forall row e, In row a -> In e row -> e == 0.

(** The bookkeeping of the hosts of a population: one row per live host
    at its index, no host listed twice, and every live host either
    infected or healthy. *)
Definition host_bookkeeping (p : Population) : Prop :=
  rows_match (hosts p) (coefficients_hosts p) /\
  NoDup (map obj (hosts p)) /\
  forall h, In h (hosts p) ->
    mem_ref (obj h) (infected_hosts p) = true \/
    mem_ref (obj h) (healthy_hosts p) = true.

(** [np.random.choice(a)] picks a position of the list. *)
Definition picker_sound (R : Random) : Prop :=
  forall n, (0 < n)%nat -> (pick_oracle n < n)%nat.

(** The host and the vector of [host_and_vector], with coefficients that
    are 1 for INFECTED and for RECOMBINATION and 0 elsewhere. *)
Definition recombination_only : Population :=
  set_coefficients_hosts [[1; 0; 0; 0; 0; 0; 0; 1]]
    (set_coefficients_vectors [[1; 0; 0; 0; 0; 0; 0; 1]] host_and_vector).

(** The live hosts by identity, each with its name, what it carries and
    the row that its index designates. *)
Definition hosts_with_rows (p : Population)
  : list (nat * (string * dict nat * option (list Q))) :=
  map (fun h =>
         (obj h,
          (name h, pathogens h,
           nth_error (coefficients_hosts p) (coefficient_index h))))
    (hosts p).

(** The population of [host_and_vector] with the neighbor "B" at the
    rate 2 for hosts and for vectors. *)
Definition linked_pair : Population :=
  final_state
    ((setHostMigrationNeighbor "B" 2 ;;; setVectorMigrationNeighbor "B" 2)
       host_and_vector).

(** Two populations: "A" holds an infected host and an infected vector
    and has "B" for migration neighbor, "B" a healthy host and a healthy
    vector. *)
Definition linked_model : Model :=
  {| populations :=
       [("A"%string, linked_pair);
        ("B"%string, grown "B" 1 ["A"%string] 1 1)];
     interventions := [] |}.

(** An individual without its protection sequences. *)
Definition unprotected (h : Individual) : Individual :=
  set_protection_sequences [] h.

(** The number of protection sequences held by a list of individuals. *)
Definition protections (l : list Individual) : nat :=
  list_sum (map (fun h => length (protection_sequences h)) l).

(** The population [two_by_two] after [protectHosts(1, "A")]: its two
    hosts are protected against "A". *)
Definition protected_pair : Population :=
  final_state (protectHosts (R := first_draws) 1 "A" [] two_by_two).

(** ** The numbers as the machine computes them *)

From Stdlib Require Floats.

(** The call raised, whatever the exception, and left the state [s]. *)
Definition raises_in {S A : Type} (o : outcome S A) (s : S) : Prop :=
  exists e, o = Raise e s.

(** ** Inputs of the examples: populations with different alphabets *)

(** The first two populations of the example script
    [VariableMigration_StandingVariationLT], with one host and one vector
    each: five loci, the alleles D, R, S, T, W at every locus of
    population_highGV, whose host carries the genome DRSSW, and the
    alleles B, C, Y at every locus of population_mediumGV. *)
Definition population_highGV : Population :=
  final_state
    (addPathogensToHosts (R := first_draws) (IC := plain_individuals)
       [("DRSSW"%string, 1%nat)] []
       (grown "population_highGV" 5 (repeat "DRSTW"%string 5) 1 1)).

Definition population_mediumGV : Population :=
  grown "population_mediumGV" 5 (repeat "BCY"%string 5) 1 1.

(** The two populations in one model, as [linkPopulations] needs
    them. *)
Definition standing_variation : Model :=
  {| populations :=
       [("population_highGV"%string, population_highGV);
        ("population_mediumGV"%string, population_mediumGV)];
     interventions := [] |}.

(** The weighted draw and the event search of [run] over binary64, the
    numbers of Python's [float] and of numpy's [float64]: every operation
    rounds to the nearest number of the format, ties to even. The
    operations are the primitive ones of [PrimFloat]. *)
Module Binary64.

Import PrimFloat.
Local Open Scope float_scope.

(** [for x in a: res += x] *)
Definition add_all (res : float) (a : list float) : float :=
  fold_left add a res.

(** The loop of numpy's [pairwise_sum] over [k] blocks of eight elements:
    [r[j] += a[i + j]] for the eight accumulators [r]. *)
Fixpoint add_blocks (k : nat) (r a : list float) : list float :=
  match k with
  | O => r
  | S k' =>
      add_blocks k'
        (map (fun x => fst x + snd x) (combine r (firstn 8 a)))
        (skipn 8 a)
  end.

(** The branch of [pairwise_sum] for 8 to 128 elements: eight
    accumulators over the complete blocks of eight, added in pairs, then
    the elements left over. *)
Definition block_sum (a : list float) : float :=
  let full := (length a / 8)%nat in
  match add_blocks (full - 1) (firstn 8 a) (skipn 8 a) with
  | [r0; r1; r2; r3; r4; r5; r6; r7] =>
      add_all (((r0 + r1) + (r2 + r3)) + ((r4 + r5) + (r6 + r7)))
        (skipn (8 * full) a)
  | _ => add_all 0 a
  end.

(** numpy's [pairwise_sum]: a plain loop below 8 elements, the blocks of
    eight up to 128 elements, and above that the sum of the two halves,
    the first of a length that is a multiple of 8. [fuel] bounds the
    halvings; the length of the array is enough. *)
Fixpoint pairwise_sum (fuel : nat) (a : list float) : float :=
  let n := length a in
  if (n <? 8)%nat then add_all 0 a
  else if (n <=? 128)%nat then block_sum a
  else
    match fuel with
    | O => block_sum a
    | S fuel' =>
        let n2 := (n / 2)%nat in
        let n2 := (n2 - n2 mod 8)%nat in
        pairwise_sum fuel' (firstn n2 a) + pairwise_sum fuel' (skipn n2 a)
    end.

(** [np.sum] of a one-dimensional array of [float64]: the reduction
    starts from 0 and adds the pairwise sum of the elements. *)
Definition np_sum (a : list float) : float :=
  0 + pairwise_sum (length a) a.

(** [np.sum] of a matrix stored by rows, as [np.zeros] creates it: the
    sum of its elements in row-major order. *)
Definition np_sum2 (r : list (list float)) : float := np_sum (concat r).

(** *** Population.getWeightedRandom *)

(** The loop [for i,e in enumerate(r)] with its running sum [r_cum]. *)
Fixpoint weighted_scan (u r_cum : float) (i : nat) (r : list float)
  : option (nat * float) :=
  match r with
  | [] => None
  | e :: r' =>
      let r_cum := r_cum + e in
      if u <? r_cum then Some (i, (u - r_cum + e) / e)
      else weighted_scan u r_cum (S i) r'
  end.

(** [None] is Python's implicit [return None] when the loop ends without
    a [return]. *)
Definition getWeightedRandom (rand : float) (r : list float)
  : option (nat * float) :=
  let r_tot := np_sum r in
  let u := rand * r_tot in
  weighted_scan u 0 0 r.

(** The value of [r_cum] after the first [k] elements of [r]. *)
Definition running_sum (r : list float) (k : nat) : float :=
  add_all 0 (firstn k r).

(** *** Gillespie.run: the event search *)

(** The inner loop of the event search, over the populations of one
    event: the selected column with the number given to [doAction], or
    the running sum after the row. *)
Fixpoint scan_row (u r_cum : float) (p : nat) (row : list float)
  : (nat * float) + float :=
  match row with
  | [] => inr r_cum
  | c :: row' =>
      let r_cum := r_cum + c in
      if u <? r_cum then inl (p, (u - r_cum + c) / c)
      else scan_row u r_cum (S p) row'
  end.

(** The outer loop of the event search, over the events. *)
Fixpoint scan_rates (u r_cum : float) (e : nat) (r : list (list float))
  : option (nat * nat * float) :=
  match r with
  | [] => None
  | row :: r' =>
      match scan_row u r_cum 0 row with
      | inl (p, x) => Some (e, p, x)
      | inr r_cum' => scan_rates u r_cum' (S e) r'
      end
  end.

(** The part [# Event handling] of [run] for the rates [r], their sum
    [r_tot = np.sum(r)] and the number [x] that [np.random.random()]
    returns: the arguments [e], [p] and
    [( u - r_cum + r[e,p] ) / r[e,p]] of the call
    [self.doAction(e, self.model.populations[population_ids[p]], ...)],
    or [None] when the two loops end without a call. *)
Definition handle_event (r : list (list float)) (r_tot x : float)
  : option (nat * nat * float) :=
  let u := x * r_tot in
  scan_rates u 0 0 r.

(** *** Inputs of the examples *)

(** A number of [[0,1)] that [np.random.random()] can return:
    [1 - 2**-52]. *)
Definition almost_one : float := 0x1.ffffffffffffep-1.

(** The weight [1.5 * 2**-53]. *)
Definition tiny : float := 0x1.8p-53.

(** The rates of one population: 1 for MIGRATE_HOST, [1.5 * 2**-53] for
    MIGRATE_VECTOR, 0 for the fourteen other events. *)
Definition two_rates : list (list float) :=
  [1] :: [tiny] :: repeat [0] 14.

(** Eight weights: 1, two weights [0.6 * 2**-52] and zeros. *)
Definition eight_weights : list float :=
  [1; 0; 0x1.3333333333333p-53; 0x1.3333333333333p-53; 0; 0; 0; 0].

End Binary64.

(** ** Facts on numbers *)

Lemma Qltb_lt x y : Qltb x y = true <-> x < y.
Proof.
  unfold Qltb. rewrite negb_true_iff.
  destruct (Qle_bool y x) eqn:E.
  - apply Qle_bool_iff in E. split; [discriminate | intros H; lra].
  - split; [intros _ | reflexivity].
    destruct (Qlt_le_dec x y) as [H | H]; [exact H |].
    apply Qle_bool_iff in H. congruence.
Qed.

Lemma Qltb_ge x y : Qltb x y = false <-> y <= x.
Proof.
  destruct (Qltb x y) eqn:E.
  - apply Qltb_lt in E. split; [discriminate | intros H; lra].
  - split; [intros _ | reflexivity].
    destruct (Qlt_le_dec x y) as [H | H]; [| exact H].
    apply Qltb_lt in H. congruence.
Qed.

Lemma np_sum_app a b : np_sum (a ++ b) == np_sum a + np_sum b.
Proof.
  induction a as [| x a IH]; simpl.
  - lra.
  - rewrite IH. lra.
Qed.

Lemma np_sum_snoc a e : np_sum (a ++ [e]) == np_sum a + e.
Proof. rewrite np_sum_app. simpl. lra. Qed.

Lemma residual_unit u c e :
  c <= u -> u < c + e -> 0 <= (u - c) / e /\ (u - c) / e < 1.
Proof.
  intros H1 H2. assert (He : 0 < e) by lra. split.
  - apply Qle_shift_div_l; [exact He | lra].
  - apply Qlt_shift_div_r; [exact He | lra].
Qed.

(** The scan started after the prefix [pre], with a running sum equal to
    the sum of [pre], finds the first index whose cumulative sum exceeds
    [u]. *)
Lemma weighted_scan_spec r : forall pre u c,
  c == np_sum pre -> c <= u -> u < np_sum (pre ++ r) ->
  exists k e res,
    weighted_scan u c (length pre) r = Some (length pre + k, res)%nat /\
    nth_error r k = Some e /\
    np_sum (pre ++ firstn k r) <= u /\
    u < np_sum (pre ++ firstn (S k) r) /\
    res == (u - np_sum (pre ++ firstn k r)) / e /\
    0 <= res /\ res < 1 /\
    forall j, (j < k)%nat -> np_sum (pre ++ firstn (S j) r) <= u.
Proof.
  induction r as [| e r IH]; intros pre u c Hc Hle Hlt.
  - rewrite app_nil_r in Hlt. lra.
  - simpl. destruct (Qltb u (c + e)) eqn:E.
    + apply Qltb_lt in E.
      exists 0%nat, e, ((u - (c + e) + e) / e).
      assert (He : 0 < e) by lra.
      assert (Hres : (u - (c + e) + e) / e == (u - np_sum (pre ++ [])) / e).
      { rewrite app_nil_r, <- Hc. field. lra. }
      destruct (residual_unit u c e Hle E) as [R0 R1].
      assert (Hres' : (u - (c + e) + e) / e == (u - c) / e)
        by (field; lra).
      repeat split.
      * now rewrite Nat.add_0_r.
      * rewrite app_nil_r. lra.
      * simpl firstn. rewrite np_sum_snoc. lra.
      * exact Hres.
      * rewrite Hres'. exact R0.
      * rewrite Hres'. exact R1.
      * intros j Hj. lia.
    + apply Qltb_ge in E.
      destruct (IH (pre ++ [e]) u (c + e))
        as (k & e' & res & Hs & Hn & H1 & H2 & H3 & H4 & H5 & H6).
      * rewrite np_sum_snoc. lra.
      * exact E.
      * rewrite <- app_assoc. exact Hlt.
      * exists (S k), e', res.
        rewrite length_app, Nat.add_1_r in Hs.
        rewrite <- !app_assoc in H1, H2, H3.
        replace (length pre + S k)%nat with (S (length pre) + k)%nat by lia.
        cbn [firstn app nth_error] in *.
        repeat split; try assumption.
        intros [| j] Hj.
        -- cbn [firstn]. rewrite np_sum_snoc. lra.
        -- specialize (H6 j ltac:(lia)).
           rewrite <- app_assoc in H6. exact H6.
Qed.

(** In exact arithmetic: for a weight vector with sum [S > 0] and a draw
    in [[0,1)], the scan returns an index [i] whose cumulative sum before
    it is at most [draw * S] and through it is strictly above, and a
    number equal to [(draw * S - cumulative_before) / r[i]], within
    [[0,1)]. Over binary64 the number can leave [[0,1)]. *)
Theorem getWeightedRandom_selects (draw : Q) (r : list Q) :
  0 <= draw -> draw < 1 -> 0 < np_sum r ->
  exists i e res,
    getWeightedRandom draw r = Some (i, res) /\
    nth_error r i = Some e /\
    np_sum (firstn i r) <= draw * np_sum r /\
    draw * np_sum r < np_sum (firstn (S i) r) /\
    res == (draw * np_sum r - np_sum (firstn i r)) / e /\
    0 <= res /\ res < 1.
Proof.
  intros H0 H1 HS. unfold getWeightedRandom.
  destruct (weighted_scan_spec r [] (draw * np_sum r) 0)
    as (k & e & res & Hs & Hn & A & B & C & D & E & _).
  - simpl. lra.
  - nra.
  - simpl. nra.
  - exists k, e, res. simpl in *. repeat split; assumption.
Qed.

Lemma getWeightedRandom_selects_witness :
  exists i e res,
    getWeightedRandom (1 # 2) [1; 2; 1] = Some (i, res) /\
    nth_error [1; 2; 1] i = Some e /\
    np_sum (firstn i [1; 2; 1]) <= (1 # 2) * np_sum [1; 2; 1] /\
    (1 # 2) * np_sum [1; 2; 1] < np_sum (firstn (S i) [1; 2; 1]) /\
    res == ((1 # 2) * np_sum [1; 2; 1] - np_sum (firstn i [1; 2; 1])) / e /\
    0 <= res /\ res < 1.
Proof.
  apply (getWeightedRandom_selects (1 # 2) [1; 2; 1]);
    vm_compute; intuition discriminate.
Defined.


(** ** The source at concrete inputs *)

Lemma two_by_two_invariant : row_index_invariant two_by_two.
Proof.
  split; (split; [reflexivity |]);
    intros [| [| [| i]]] h H; simpl in H; inversion H; reflexivity.
Qed.

(** C1. The row-index invariant does not survive [removeVectors]: on a
    population of two hosts and two vectors that satisfies it, removing
    the first vector deletes a row of the hosts matrix and none of the
    vectors matrix, so that one live vector faces two rows and two live
    hosts face one row. *)
Theorem removeVectors_breaks_row_index_invariant :
  row_index_invariant two_by_two /\
  exists p',
    removeVectors (inr [2%nat]) two_by_two = Ret tt p' /\
    length (vectors p') = 1%nat /\
    length (coefficients_vectors p') = 2%nat /\
    length (hosts p') = 2%nat /\
    length (coefficients_hosts p') = 1%nat /\
    ~ row_index_invariant p'.
Proof.
  split; [exact two_by_two_invariant |].
  eexists. split; [vm_compute; reflexivity |].
  repeat split. intros [[H _] _]. discriminate H.
Qed.

(** C8. [killHost] on a population whose LETHALITY column has a positive
    sum: the draw selects the host at index 0, and the call raises
    NameError; the host stays live and the dead set stays empty. *)
Theorem killHost_raises_NameError :
  0 < np_sum (column LETHALITY (coefficients_hosts infected_host)) /\
  (exists rand,
     getWeightedRandom (1 # 2)
       (column LETHALITY (coefficients_hosts infected_host))
     = Some (0%nat, rand)) /\
  killHost (1 # 2) infected_host = Raise NameError infected_host /\
  length (hosts infected_host) = 1%nat /\
  dead_hosts infected_host = [].
Proof.
  repeat split.
  eexists. vm_compute. reflexivity.
Qed.

(** C10. [doAction] for the event KILL_HOST on a population with a host
    to kill: the call raises NameError and returns nothing. *)
Theorem doAction_KILL_HOST_raises :
  doAction (R := first_draws) (IC := plain_individuals)
    KILL_HOST "A" (1 # 2) infected_model
  = Raise NameError infected_model.
Proof. vm_compute. reflexivity. Qed.

(** C9. [run(5, 10)] on a model without events and interventions: the
    returned history has the keys 0 and 10 and no key 5; the snapshot of
    the start is under the key 0. *)
Theorem run_first_snapshot_keyed_at_zero :
  exists h s,
    run (R := first_draws) (IC := plain_individuals) (MC := no_rates)
      1 5 10 0 0 0 1000 idle_model = Some (Ret h s) /\
    map fst h = [0; 10] /\
    history_get (MC := no_rates) 5 h = None /\
    history_get (MC := no_rates) 0 h = Some (Deep idle_model false) /\
    history_get (MC := no_rates) 10 h = Some (Deep idle_model true).
Proof.
  do 2 eexists. split; [vm_compute; reflexivity |].
  repeat split.
Qed.

(** C7, counterexample. A dictionary with a valid genome followed by an
    invalid one: the call raises, and the population has changed: its
    host carries the valid genome. *)
Lemma addPathogensToHosts_partial_mutation :
  exists e p' h,
    addPathogensToHosts (R := first_draws) (IC := plain_individuals)
      [("A"%string, 1%nat); ("B"%string, 1%nat)] [] healthy_pair
    = Raise e p' /\
    genome_check healthy_pair "B" = Some false /\
    hosts healthy_pair
    = [ {| obj := 0; name := "A_0"; coefficient_index := 0;
           pathogens := []; protection_sequences := [] |} ] /\
    hosts p' = [h] /\
    pathogens h = [("A"%string, 1%nat)] /\
    p' <> healthy_pair.
Proof.
  do 3 eexists. split; [vm_compute; reflexivity |].
  repeat split. intros H. apply (f_equal infected_hosts) in H.
  discriminate H.
Qed.

(** C6. The populations of the example script: the host of
    population_highGV, which carries the genome DRSSW, migrates to
    population_mediumGV, whose alleles are B, C and Y. The call raises
    after the host has left the origin and a new host has been created
    in the target, and the new host carries no pathogen: the origin has
    one host less, the target one more, and the genome is lost. *)
Theorem migrate_loses_genomes_across_alphabets :
  exists e m' origin' target' migrant new,
    hosts population_highGV = [migrant] /\
    pathogens migrant = [("DRSSW"%string, 1%nat)] /\
    migrate (R := first_draws) (IC := plain_individuals)
      "population_highGV" "population_mediumGV" 1 0 (Some (1 # 2))
      standing_variation
    = Raise e m' /\
    dict_get "population_highGV" (populations m') = Some origin' /\
    dict_get "population_mediumGV" (populations m') = Some target' /\
    hosts origin' = [] /\
    hosts target' = hosts population_mediumGV ++ [new] /\
    pathogens new = [].
Proof.
  remember (migrate (R := first_draws) (IC := plain_individuals)
              "population_highGV" "population_mediumGV" 1 0
              (Some (1 # 2)) standing_variation) as r eqn:E.
  vm_compute in E. subst r.
  do 6 eexists. repeat split.
Qed.


(** ** The loop of [run] without events *)

Section RunFacts.

Context {R : Random} {IC : IndividualContract} {MC : ModelContract}.

Lemma skipn_nth_error {A : Type} (l : list A) : forall n x,
  nth_error l n = Some x -> exists rest, skipn n l = x :: rest.
Proof.
  induction l as [| y l IH]; intros [| n] x H; simpl in *;
    try discriminate.
  - inversion H. eauto.
  - eauto.
Qed.

Lemma set_populations_same (m : Model) :
  set_populations (populations m) m = m.
Proof. destruct m. reflexivity. Qed.

Lemma set_model_same (s : RunState) : set_model (model s) s = s.
Proof. destruct s. reflexivity. Qed.

(** A turn that leaves the state as it found it, below the horizon, is
    followed by the same turn for ever. *)
Lemma run_loop_stuck tf ts pe s :
  Qltb (t_var s) tf = true ->
  run_iteration tf ts pe s = Ret tt s ->
  forall fuel, run_loop fuel tf ts pe s = None.
Proof.
  intros Ht Hit fuel. induction fuel as [| fuel IH]; simpl; rewrite Ht.
  - reflexivity.
  - rewrite Hit. exact IH.
Qed.

(** In a state without events whose next intervention is scheduled after
    the current time, a turn of the loop changes nothing. *)
Lemma zero_rates_pending_intervention_no_progress tf ts pe s r i :
  getRates (keys (populations (model s))) (populations (model s))
  = Ret r (populations (model s)) ->
  np_sum2 r == 0 ->
  nth_error (interventions (model s)) (intervention_tracker s) = Some i ->
  t_var s < time i ->
  run_iteration tf ts pe s = Ret tt s.
Proof.
  intros Hr Hz Hi Ht.
  assert (Hpos : Qltb 0 (np_sum2 r) = false) by (apply Qltb_ge; lra).
  assert (Hdue : Qle_bool (time i) (t_var s) = false).
  { destruct (Qle_bool (time i) (t_var s)) eqn:E; [| reflexivity].
    apply Qle_bool_iff in E. lra. }
  destruct (skipn_nth_error _ _ _ Hi) as [rest Hrest].
  unfold run_iteration, current_rates, on_populations, bind, get, ret.
  rewrite Hr. cbn [snd]. rewrite Hpos.
  rewrite set_populations_same, set_model_same, Hi, Hrest.
  cbn [interventions_zero]. unfold bind, get, ret. rewrite Hdue.
  reflexivity.
Qed.

End RunFacts.

(** C4. At the start of a turn of the loop (the time is below the
    horizon), when the rates sum to zero and every scheduled intervention
    has been carried out, that turn sets the time to the horizon [tf],
    and the loop ends with it. *)
Theorem zero_rates_no_interventions_jump_to_horizon
  {R : Random} {IC : IndividualContract} {MC : ModelContract}
  (tf : Q) (ts : Z) (pe : nat) (s : RunState) (r : list (list Q))
  (ps : dict Population) (fuel : nat) :
  t_var s < tf ->
  getRates (keys (populations (model s))) (populations (model s))
  = Ret r ps ->
  np_sum2 r == 0 ->
  (length (interventions (model s)) <= intervention_tracker s)%nat ->
  let s' := set_t_var tf (set_model (set_populations ps (model s)) s) in
  run_iteration tf ts pe s = Ret tt s' /\
  t_var s' = tf /\
  run_loop (S fuel) tf ts pe s = Some (Ret tt s').
Proof.
  intros Ht Hr Hz Hlen s'.
  assert (Hpos : Qltb 0 (np_sum2 r) = false) by (apply Qltb_ge; lra).
  assert (Hnone : nth_error (interventions (model s))
                    (intervention_tracker s) = None)
    by (apply nth_error_None; exact Hlen).
  assert (Hit : run_iteration tf ts pe s = Ret tt s').
  { unfold run_iteration, current_rates, on_populations, bind, get, ret.
    rewrite Hr. cbn [snd]. rewrite Hpos.
    cbn [model set_model set_populations interventions
         intervention_tracker].
    rewrite Hnone. reflexivity. }
  split; [exact Hit |]. split; [reflexivity |].
  cbn [run_loop].
  assert (Hlt : Qltb (t_var s) tf = true) by (apply Qltb_lt; exact Ht).
  rewrite Hlt, Hit.
  assert (Hstop : Qltb (t_var s') tf = false)
    by (apply Qltb_ge; cbn; lra).
  destruct fuel; cbn [run_loop]; rewrite Hstop; reflexivity.
Qed.

Lemma zero_rates_no_interventions_jump_to_horizon_witness :
  let s := initial_state (MC := no_rates) 5 idle_model in
  let s' := set_t_var 10
              (set_model (set_populations (populations (model s))
                            (model s)) s) in
  run_iteration (R := first_draws) (IC := plain_individuals) 10 0 1000 s
  = Ret tt s' /\
  t_var s' = 10 /\
  run_loop (R := first_draws) (IC := plain_individuals) 1 10 0 1000 s
  = Some (Ret tt s').
Proof.
  apply (zero_rates_no_interventions_jump_to_horizon
           (R := first_draws) (IC := plain_individuals) (MC := no_rates)
           10 0 1000 (initial_state (MC := no_rates) 5 idle_model)
           (repeat [0] 16) (populations idle_model) 0).
  - reflexivity.
  - reflexivity.
  - reflexivity.
  - simpl. lia.
Defined.

(** C5. [run(0, 10)] on a model without events (a healthy host and a
    healthy vector) and with one intervention scheduled at time 5: each turn of the loop
    leaves the time at 0 and the intervention pending, so the loop has
    not ended after any number of turns. *)
Theorem zero_rate_loop_stalls_before_intervention :
  let s := initial_state (MC := no_rates) 0 seeded_later in
  run_iteration (R := first_draws) (IC := plain_individuals) 10 0 1000 s
  = Ret tt s /\
  t_var s = 0 /\ intervention_tracker s = 0%nat /\
  forall fuel,
    run (R := first_draws) (IC := plain_individuals) (MC := no_rates)
      fuel 0 10 0 0 0 1000 seeded_later = None.
Proof.
  assert (Hit : run_iteration (R := first_draws) (IC := plain_individuals)
                  10 0 1000 (initial_state (MC := no_rates) 0 seeded_later)
                = Ret tt (initial_state (MC := no_rates) 0 seeded_later)).
  { eapply zero_rates_pending_intervention_no_progress;
      [reflexivity | reflexivity | reflexivity | reflexivity]. }
  cbv zeta. split; [exact Hit |]. split; [reflexivity |].
  split; [reflexivity |].
  intros fuel. unfold run.
  rewrite (run_loop_stuck 10 0 1000
             (initial_state (MC := no_rates) 0 seeded_later)
             eq_refl Hit fuel).
  reflexivity.
Qed.


(** ** The event search of [run] *)

Lemma np_sum_concat (r : list (list Q)) : np_sum (concat r) == np_sum2 r.
Proof.
  unfold np_sum2. induction r as [| row r IH]; simpl.
  - reflexivity.
  - rewrite np_sum_app, IH. reflexivity.
Qed.

Lemma nth_error_concat {A : Type} (r : list (list A)) : forall e row p,
  nth_error r e = Some row -> (p < length row)%nat ->
  nth_error (concat r) (length (concat (firstn e r)) + p) = nth_error row p.
Proof.
  induction r as [| row0 r IH]; intros [| e] row p He Hp; simpl in *;
    try discriminate.
  - inversion He. subst. apply nth_error_app1. exact Hp.
  - rewrite length_app, nth_error_app2 by lia.
    rewrite <- (IH e row p He Hp). f_equal. lia.
Qed.

Lemma weighted_scan_shift u r : forall c i,
  weighted_scan u c i r
  = option_map (fun z => (fst z + i, snd z)%nat) (weighted_scan u c 0 r).
Proof.
  induction r as [| e r IH]; intros c i; simpl.
  - reflexivity.
  - destruct (Qltb u (c + e)); [reflexivity |].
    rewrite (IH (c + e) (S i)), (IH (c + e) 1%nat).
    destruct (weighted_scan u (c + e) 0 r) as [[k x] |]; simpl;
      [| reflexivity].
    do 2 f_equal. lia.
Qed.

Lemma weighted_scan_bound u r : forall c k x,
  weighted_scan u c 0 r = Some (k, x) -> (k < length r)%nat.
Proof.
  induction r as [| e r IH]; intros c k x H; simpl in H.
  - discriminate.
  - destruct (Qltb u (c + e)).
    + inversion H. simpl. lia.
    + rewrite weighted_scan_shift in H.
      destruct (weighted_scan u (c + e) 0 r) as [[k' x'] |] eqn:E;
        simpl in H; [| discriminate].
      inversion H. subst. apply IH in E. simpl. lia.
Qed.

Lemma weighted_scan_app u a : forall b c,
  weighted_scan u c 0 (a ++ b)
  = match weighted_scan u c 0 a with
    | Some z => Some z
    | None =>
        option_map (fun z => (fst z + length a, snd z)%nat)
          (weighted_scan u (fold_left Qplus a c) 0 b)
    end.
Proof.
  induction a as [| e a IH]; intros b c; simpl.
  - destruct (weighted_scan u c 0 b) as [[k x] |]; simpl; [| reflexivity].
    rewrite Nat.add_0_r. reflexivity.
  - destruct (Qltb u (c + e)); [reflexivity |].
    rewrite (weighted_scan_shift u (a ++ b)), (weighted_scan_shift u a).
    rewrite IH.
    destruct (weighted_scan u (c + e) 0 a) as [[k x] |]; simpl;
      [reflexivity |].
    destruct (weighted_scan u (fold_left Qplus a (c + e)) 0 b)
      as [[k x] |]; simpl; [| reflexivity].
    do 2 f_equal. lia.
Qed.

Section EventSearch.

Context {R : Random} {IC : IndividualContract} {MC : ModelContract}.

(** The scan of one row is the scan of [getWeightedRandom] on that
    row. *)
Lemma scan_row_weighted u row : forall c,
  scan_row u c 0 row
  = match weighted_scan u c 0 row with
    | Some z => inl z
    | None => inr (fold_left Qplus row c)
    end.
Proof.
  assert (G : forall c p,
    scan_row u c p row
    = match weighted_scan u c p row with
      | Some z => inl z
      | None => inr (fold_left Qplus row c)
      end).
  { induction row as [| e row IH]; intros c p; simpl.
    - reflexivity.
    - destruct (Qltb u (c + e)); [reflexivity | apply IH]. }
  intros c. apply G.
Qed.

(** The scan of the matrix is the scan of its cells in row-major
    order. *)
Lemma scan_rates_flat u r : forall c e0,
  match scan_rates u c e0 r with
  | Some (e, p, x) =>
      exists e' row,
        e = (e0 + e')%nat /\ nth_error r e' = Some row /\
        (p < length row)%nat /\
        weighted_scan u c 0 (concat r)
        = Some ((length (concat (firstn e' r)) + p)%nat, x)
  | None => weighted_scan u c 0 (concat r) = None
  end.
Proof.
  induction r as [| row r IH]; intros c e0; simpl.
  - reflexivity.
  - rewrite scan_row_weighted, weighted_scan_app.
    destruct (weighted_scan u c 0 row) as [[p x] |] eqn:Erow.
    + exists 0%nat, row. simpl. repeat split.
      * lia.
      * eapply weighted_scan_bound; eassumption.
    + specialize (IH (fold_left Qplus row c) (S e0)).
      destruct (scan_rates u (fold_left Qplus row c) (S e0) r)
        as [[[e p] x] |].
      * destruct IH as (e' & row' & He & Hn & Hp & Hs).
        exists (S e'), row'. simpl. rewrite Hs. simpl.
        repeat split; try assumption; try lia.
        rewrite length_app. do 2 f_equal. lia.
      * rewrite IH. reflexivity.
Qed.

Lemma current_rates_sum s rates s1 :
  current_rates s = Ret rates s1 -> snd rates = np_sum2 (snd (fst rates)).
Proof.
  unfold current_rates, on_populations, bind, get, ret. intros H.
  destruct (getRates _ _); inversion H. reflexivity.
Qed.

Lemma interventions_positive_sum pending : forall rates s rates' s',
  interventions_positive pending rates s = Ret rates' s' ->
  snd rates = np_sum2 (snd (fst rates)) ->
  snd rates' = np_sum2 (snd (fst rates')).
Proof.
  induction pending as [| i rest IH]; intros rates s rates' s' H Hsum;
    simpl in H.
  - inversion H. subst. exact Hsum.
  - unfold bind, get in H.
    destruct (Qle_bool (time i) (t_var s) || Qeq_bool (snd rates) 0).
    + unfold carry_out, save_snapshot, modify, bind in H.
      destruct (current_rates _) as [rates1 s1 | e s1] eqn:E;
        [| discriminate].
      apply current_rates_sum in E. eapply IH; eassumption.
    + inversion H. subst. exact Hsum.
Qed.

(** After the time handling, below the horizon, the rates at hand sum to
    a positive total. *)
Lemma time_handling_rates tf rates s1 rates' s2 :
  time_handling tf rates s1 = Ret rates' s2 ->
  snd rates = np_sum2 (snd (fst rates)) ->
  0 < snd rates ->
  t_var s2 < tf ->
  snd rates' = np_sum2 (snd (fst rates')) /\ 0 < snd rates'.
Proof.
  unfold time_handling, advance, draw_exponential, modify, bind, get, ret.
  intros H Hsum Hpos Ht.
  destruct (nth_error _ _) as [i |].
  - destruct (Qle_bool _ _).
    + destruct (interventions_positive _ _ _) as [rates1 s3 | e s3] eqn:E;
        [| discriminate].
      apply interventions_positive_sum in E; [| exact Hsum].
      destruct (Qltb 0 (snd rates1)) eqn:E1.
      * inversion H. subst. split; [exact E | apply Qltb_lt; exact E1].
      * inversion H. subst. cbn in Ht. lra.
    + inversion H. subst. split; assumption.
  - inversion H. subst. split; assumption.
Qed.

End EventSearch.

(** In exact arithmetic: in a turn of the loop in which the rates sum to
    a positive total and the time after the time handling is below the
    horizon, the driver draws [u] within [[0,total)], the cell it selects
    is the first one, in row-major order (events outside, populations
    inside), whose running sum exceeds [u], and the turn is the dispatch
    of that event on that population with a number equal to
    [(u - running_sum_before_cell) / cell_value]. Over binary64 that
    number can be negative. *)
Theorem event_selection_row_major
  {R : Random} {IC : IndividualContract} {MC : ModelContract}
  (tf : Q) (ts : Z) (pe : nat) (s s1 s2 : RunState)
  (rates rates' : list string * list (list Q) * Q) :
  current_rates s = Ret rates s1 ->
  0 < snd rates ->
  time_handling tf rates s1 = Ret rates' s2 ->
  t_var s2 < tf ->
  0 <= random_oracle (draws s2) ->
  random_oracle (draws s2) < 1 ->
  let population_ids := fst (fst rates') in
  let r := snd (fst rates') in
  let u := random_oracle (draws s2) * np_sum2 r in
  0 <= u /\ u < np_sum2 r /\
  exists e p row cell rand,
    nth_error r e = Some row /\ nth_error row p = Some cell /\
    let k := (length (concat (firstn e r)) + p)%nat in
    (forall j, (j < k)%nat -> np_sum (firstn (S j) (concat r)) <= u) /\
    u < np_sum (firstn (S k) (concat r)) /\
    rand == (u - np_sum (firstn k (concat r))) / cell /\
    run_iteration tf ts pe s
    = dispatch ts pe population_ids e p rand
        (set_draws (S (draws s2)) s2).
Proof.
  intros Hcur Hpos Htime Ht Hx0 Hx1 population_ids r u.
  pose proof (current_rates_sum _ _ _ Hcur) as Hsum.
  destruct (time_handling_rates _ _ _ _ _ Htime Hsum Hpos Ht)
    as [Hsum' Hpos'].
  fold r in Hsum'. rewrite Hsum' in Hpos'.
  assert (Hu0 : 0 <= u) by (unfold u; nra).
  assert (Hu1 : u < np_sum2 r) by (unfold u; nra).
  split; [exact Hu0 |]. split; [exact Hu1 |].
  destruct (weighted_scan_spec (concat r) [] u 0)
    as (k & cell & rand & Hs & Hn & A & B & C & D & E & F).
  - reflexivity.
  - exact Hu0.
  - simpl. rewrite np_sum_concat. exact Hu1.
  - simpl in Hs, A, B, C, F.
    pose proof (scan_rates_flat u r 0 0) as Hflat.
    destruct (scan_rates u 0 0 r) as [[[e p] x] |] eqn:Escan.
    + destruct Hflat as (e' & row & He & Hrow & Hp & Hw).
      simpl in He. subst e'. rewrite Hs in Hw. inversion Hw. subst k x.
      exists e, p, row, cell, rand.
      assert (Hcell : nth_error row p = Some cell).
      { rewrite <- Hn. symmetry. apply nth_error_concat; assumption. }
      repeat split; try assumption.
      unfold run_iteration, bind. rewrite Hcur.
      assert (Hq : Qltb 0 (snd rates) = true) by (apply Qltb_lt; exact Hpos).
      rewrite Hq, Htime. unfold get.
      assert (Hq' : Qltb (t_var s2) tf = true) by (apply Qltb_lt; exact Ht).
      rewrite Hq'. unfold handle_event, draw_random, bind.
      fold r. rewrite Hsum'. fold u. rewrite Escan. reflexivity.
    + rewrite Hs in Hflat. discriminate.
Qed.

Lemma event_selection_row_major_witness :
  let s := initial_state (MC := unit_rates) 0 infected_model in
  let r : list (list Q) := repeat [1] 16 in
  let s2 := set_t_var (0 + 1 / np_sum2 r) (set_draws 1 s) in
  let u := (1 # 2) * np_sum2 r in
  0 <= u /\ u < np_sum2 r /\
  exists e p row cell rand,
    nth_error r e = Some row /\
    nth_error row p = Some cell /\
    let k := (length (concat (firstn e r)) + p)%nat in
    (forall j, (j < k)%nat -> np_sum (firstn (S j) (concat r)) <= u) /\
    u < np_sum (firstn (S k) (concat r)) /\
    rand == (u - np_sum (firstn k (concat r))) / cell /\
    run_iteration (R := first_draws) (IC := plain_individuals) 10 0 1000 s
    = dispatch (R := first_draws) (IC := plain_individuals) 0 1000
        ["A"%string] e p rand (set_draws 2 s2).
Proof.
  intros s r s2.
  apply (event_selection_row_major
           (R := first_draws) (IC := plain_individuals) (MC := unit_rates)
           10 0 1000 s s s2 (["A"%string], r, np_sum2 r)
           (["A"%string], r, np_sum2 r)).
  - reflexivity.
  - reflexivity.
  - reflexivity.
  - reflexivity.
  - vm_compute. intros X. discriminate X.
  - reflexivity.
Defined.


(** ** Validation of genomes in [addPathogensToHosts] and
    [addPathogensToVectors] *)

Lemma length_list_ascii_of_string s :
  length (list_ascii_of_string s) = String.length s.
Proof. induction s; simpl; congruence. Qed.

Lemma existsb_ascii_In a l : existsb (Ascii.eqb a) l = true <-> In a l.
Proof.
  rewrite existsb_exists. split.
  - intros (x & Hin & Heq). apply Ascii.eqb_eq in Heq. now subst.
  - intros Hin. exists a. split; [exact Hin | apply Ascii.eqb_refl].
Qed.

Lemma alleles_allowed_spec genome : forall possible,
  (length genome <= length possible)%nat ->
  exists bs,
    alleles_allowed possible genome = Some bs /\
    forall i allele alphabet,
      nth_error genome i = Some allele ->
      nth_error possible i = Some alphabet ->
      nth_error bs i
      = Some (existsb (Ascii.eqb allele) (list_ascii_of_string alphabet)).
Proof.
  induction genome as [| a genome IH]; intros possible Hlen.
  - exists []. split; [reflexivity |]. intros [| i]; discriminate.
  - destruct possible as [| alphabet possible]; simpl in Hlen; [lia |].
    destruct (IH possible) as (bs & Hbs & Hnth); [lia |].
    simpl. rewrite Hbs. eexists. split; [reflexivity |].
    intros [| i] allele alphabet' Hg Hp; simpl in *.
    + inversion Hg. inversion Hp. reflexivity.
    + eauto.
Qed.

Lemma forallb_nth_false (bs : list bool) i :
  nth_error bs i = Some false -> forallb (fun b => b) bs = false.
Proof.
  revert i. induction bs as [| b bs IH]; intros [| i] H; simpl in *;
    try discriminate.
  - inversion H. reflexivity.
  - rewrite (IH i H). apply andb_false_r.
Qed.

(** With one alphabet per locus, the test of the source rejects exactly
    as [genome_invalid] says. *)
Lemma genome_invalid_check p genome :
  length (possible_alleles p) = num_loci p ->
  genome_invalid p genome ->
  genome_check p genome = Some false.
Proof.
  intros Hwf Hinv. unfold genome_check.
  destruct (String.length genome =? num_loci p) eqn:E; [| reflexivity].
  apply Nat.eqb_eq in E.
  destruct Hinv as [Hlen | (i & allele & alphabet & Hg & Hp & Hout)];
    [contradiction |].
  destruct (alleles_allowed_spec (list_ascii_of_string genome)
              (possible_alleles p)) as (bs & Hbs & Hnth).
  { rewrite length_list_ascii_of_string. lia. }
  rewrite Hbs. f_equal. apply (forallb_nth_false _ i).
  rewrite (Hnth i allele alphabet Hg Hp). f_equal.
  destruct (existsb (Ascii.eqb allele) (list_ascii_of_string alphabet))
    eqn:Ex; [| reflexivity].
  apply existsb_ascii_In in Ex. contradiction.
Qed.

Lemma genome_check_same_setup p p' genome :
  same_setup p p' -> genome_check p' genome = genome_check p genome.
Proof. intros [H1 H2]. unfold genome_check. rewrite H1, H2. reflexivity. Qed.

Section AddPathogens.

Context {R : Random} {IC : IndividualContract}.

Lemma Host_acquirePathogen_same_setup o g p :
  same_setup p (final_state (Host_acquirePathogen o g p)).
Proof.
  unfold Host_acquirePathogen, same_setup.
  destruct (find_obj o (hosts p)); [| now split].
  destruct (set_row _ _ _); [| now split].
  cbn [infected_hosts set_coefficients_hosts set_hosts].
  destruct (mem_ref o (infected_hosts p)); [now split |].
  cbn [healthy_hosts set_infected_hosts set_coefficients_hosts set_hosts].
  destruct (list_remove o (healthy_hosts p)); now split.
Qed.

Lemma Vector_acquirePathogen_same_setup o g p :
  same_setup p (final_state (Vector_acquirePathogen o g p)).
Proof.
  unfold Vector_acquirePathogen, same_setup.
  destruct (find_obj o (vectors p)); [| now split].
  destruct (set_row _ _ _); [| now split].
  cbn [infected_vectors set_coefficients_vectors set_vectors].
  destruct (mem_ref o (infected_vectors p)); now split.
Qed.

Lemma same_setup_trans p q r :
  same_setup p q -> same_setup q r -> same_setup p r.
Proof. unfold same_setup. intuition congruence. Qed.

Lemma for_each_same_setup (body : nat -> M Population unit) l :
  (forall o p, same_setup p (final_state (body o p))) ->
  forall p, same_setup p (final_state (for_each l body p)).
Proof.
  intros Hbody. induction l as [| o l IH]; intros p; simpl.
  - now split.
  - unfold bind. specialize (Hbody o p).
    destruct (body o p) as [[] p' | e p']; simpl in *; [| exact Hbody].
    eapply same_setup_trans; [exact Hbody | apply IH].
Qed.

(** The loop over the genomes leaves the loci and alphabets as they
    are. *)
Lemma add_pathogens_same_setup acquire gn individuals :
  (forall o g p, same_setup p (final_state (acquire o g p))) ->
  forall p, same_setup p (final_state (add_pathogens acquire gn individuals p)).
Proof.
  intros Hacq. induction gn as [| [genome number] rest IH]; intros p;
    simpl.
  - now split.
  - unfold bind, get, or_raise.
    destruct (genome_check p genome) as [[|] |]; simpl; try now split.
    unfold np_random_choice.
    destruct (number <=? length individuals); simpl; [| now split].
    pose proof (for_each_same_setup (fun o => acquire o genome)
                  (choice_oracle individuals number)
                  (fun o q => Hacq o genome q) p) as Hfor.
    destruct (for_each _ _ p) as [[] p' | e p']; simpl in *;
      [| exact Hfor].
    eapply same_setup_trans; [exact Hfor | apply IH].
Qed.

(** The loop over a dictionary is the loop over its first entries
    followed, when that returns, by the loop over the others. *)
Lemma add_pathogens_app acquire pre rest individuals : forall p,
  add_pathogens acquire (pre ++ rest) individuals p
  = match add_pathogens acquire pre individuals p with
    | Ret _ p' => add_pathogens acquire rest individuals p'
    | Raise e p' => Raise e p'
    end.
Proof.
  induction pre as [| [genome number] pre IH]; intros p; simpl.
  - reflexivity.
  - unfold bind, get, or_raise.
    destruct (genome_check p genome) as [[|] |]; simpl; try reflexivity.
    destruct (np_random_choice individuals number p) as [l p1 | e p1];
      [| reflexivity].
    destruct (for_each l _ p1) as [[] p2 | e p2]; [apply IH | reflexivity].
Qed.

Lemma add_pathogens_invalid_head acquire g n post individuals p :
  genome_check p g = Some false ->
  add_pathogens acquire ((g, n) :: post) individuals p = Raise TypeError p.
Proof.
  intros H. simpl. unfold bind, get, or_raise. rewrite H. reflexivity.
Qed.

Lemma add_pathogens_first_invalid acquire pre g n post individuals p :
  (forall o g p, same_setup p (final_state (acquire o g p))) ->
  genome_check p g = Some false ->
  add_pathogens acquire (pre ++ (g, n) :: post) individuals p
  = match add_pathogens acquire pre individuals p with
    | Ret _ p' => Raise TypeError p'
    | Raise e p' => Raise e p'
    end.
Proof.
  intros Hacq Hbad. rewrite add_pathogens_app.
  pose proof (add_pathogens_same_setup acquire pre individuals Hacq p)
    as Hsame.
  destruct (add_pathogens acquire pre individuals p) as [[] p' | e p'];
    [| reflexivity].
  apply add_pathogens_invalid_head.
  rewrite (genome_check_same_setup p p' g Hsame). exact Hbad.
Qed.

(** With an invalid genome after the entries [pre], the loop raises where
    the loop over [pre] raises, or else in the state that the loop over
    [pre] leaves. *)
Lemma add_pathogens_raises_after acquire pre g n post individuals p :
  (forall o g p, same_setup p (final_state (acquire o g p))) ->
  genome_check p g = Some false ->
  match add_pathogens acquire pre individuals p with
  | Ret _ p' =>
      raises_in (add_pathogens acquire (pre ++ (g, n) :: post) individuals p)
        p'
  | Raise e p' =>
      add_pathogens acquire (pre ++ (g, n) :: post) individuals p
      = Raise e p'
  end.
Proof.
  intros Hacq Hbad.
  rewrite (add_pathogens_first_invalid acquire pre g n post individuals p
             Hacq Hbad).
  destruct (add_pathogens acquire pre individuals p) as [[] p' | e p'].
  - exists TypeError. reflexivity.
  - reflexivity.
Qed.

End AddPathogens.

(** C7, as amended. When a genome of the dictionary has a wrong length or
    an allele outside the alphabet of its locus (the population having
    one alphabet per locus), [addPathogensToHosts] and
    [addPathogensToVectors] raise, but not before the genomes that
    precede the first such genome have been added: the loop over those
    runs first, and if it returns, the call raises in the state that it
    left, with nothing added for the invalid genome or for a later one;
    if it raises, the call raises the same in the same state. When no
    genome precedes the invalid one, the call raises with the population
    unchanged. Which exception is raised is left open. *)
Theorem addPathogens_raise_at_first_invalid_genome
  {R : Random} {IC : IndividualContract}
  (p : Population) (pre post : dict nat) (g : string) (n : nat)
  (individuals : list nat) :
  length (possible_alleles p) = num_loci p ->
  genome_invalid p g ->
  match addPathogensToHosts pre individuals p with
  | Ret _ p' =>
      raises_in
        (addPathogensToHosts (pre ++ (g, n) :: post) individuals p) p'
  | Raise e p' =>
      addPathogensToHosts (pre ++ (g, n) :: post) individuals p
      = Raise e p'
  end /\
  raises_in (addPathogensToHosts ((g, n) :: post) individuals p) p /\
  match addPathogensToVectors pre individuals p with
  | Ret _ p' =>
      raises_in
        (addPathogensToVectors (pre ++ (g, n) :: post) individuals p) p'
  | Raise e p' =>
      addPathogensToVectors (pre ++ (g, n) :: post) individuals p
      = Raise e p'
  end /\
  raises_in (addPathogensToVectors ((g, n) :: post) individuals p) p.
Proof.
  intros Hwf Hinv.
  pose proof (genome_invalid_check p g Hwf Hinv) as Hbad.
  unfold addPathogensToHosts, addPathogensToVectors, bind, get.
  repeat split.
  - apply add_pathogens_raises_after;
      [apply Host_acquirePathogen_same_setup | exact Hbad].
  - exists TypeError. apply add_pathogens_invalid_head. exact Hbad.
  - apply add_pathogens_raises_after;
      [apply Vector_acquirePathogen_same_setup | exact Hbad].
  - exists TypeError. apply add_pathogens_invalid_head. exact Hbad.
Qed.

Lemma addPathogens_raise_at_first_invalid_genome_witness :
  let p := healthy_pair in
  let pre := [("A"%string, 1%nat)] in
  match addPathogensToHosts (R := first_draws) (IC := plain_individuals)
          pre [] p with
  | Ret _ p' =>
      raises_in
        (addPathogensToHosts (R := first_draws) (IC := plain_individuals)
           (pre ++ [("B"%string, 1%nat)]) [] p) p'
  | Raise e p' =>
      addPathogensToHosts (R := first_draws) (IC := plain_individuals)
        (pre ++ [("B"%string, 1%nat)]) [] p
      = Raise e p'
  end /\
  raises_in
    (addPathogensToHosts (R := first_draws) (IC := plain_individuals)
       [("B"%string, 1%nat)] [] p) p /\
  match addPathogensToVectors (R := first_draws) (IC := plain_individuals)
          pre [] p with
  | Ret _ p' =>
      raises_in
        (addPathogensToVectors (R := first_draws) (IC := plain_individuals)
           (pre ++ [("B"%string, 1%nat)]) [] p) p'
  | Raise e p' =>
      addPathogensToVectors (R := first_draws) (IC := plain_individuals)
        (pre ++ [("B"%string, 1%nat)]) [] p
      = Raise e p'
  end /\
  raises_in
    (addPathogensToVectors (R := first_draws) (IC := plain_individuals)
       [("B"%string, 1%nat)] [] p) p.
Proof.
  intros p pre.
  apply (addPathogens_raise_at_first_invalid_genome
           (R := first_draws) (IC := plain_individuals)
           p pre [] "B"%string 1%nat []).
  - reflexivity.
  - right. exists 0%nat, "B"%char, "A"%string.
    split; [reflexivity |]. split; [reflexivity |].
    simpl. intros [H | []]. discriminate H.
Defined.


(** ** Migration of one individual *)

Lemma dict_get_set_eq {V : Type} k (v : V) d :
  dict_get k (dict_set k v d) = Some v.
Proof.
  induction d as [| [k' v'] d IH]; simpl.
  - rewrite String.eqb_refl. reflexivity.
  - destruct (String.eqb k k') eqn:E; simpl.
    + rewrite String.eqb_refl. reflexivity.
    + rewrite E. exact IH.
Qed.

Lemma dict_get_set_neq {V : Type} k k' (v : V) d :
  k <> k' -> dict_get k' (dict_set k v d) = dict_get k' d.
Proof.
  intros Hneq. induction d as [| [k0 v0] d IH]; simpl.
  - destruct (String.eqb k' k) eqn:E; [| reflexivity].
    apply String.eqb_eq in E. congruence.
  - destruct (String.eqb k k0) eqn:E; simpl.
    + apply String.eqb_eq in E. subst k0.
      destruct (String.eqb k' k) eqn:E2; [| reflexivity].
      apply String.eqb_eq in E2. congruence.
    + destruct (String.eqb k' k0); [reflexivity | exact IH].
Qed.






Lemma find_obj_obj o l h : find_obj o l = Some h -> obj h = o.
Proof.
  intros H. apply find_some in H. destruct H as [_ H].
  apply Nat.eqb_eq in H. exact H.
Qed.


Lemma length_shift_down i l : length (shift_down i l) = length l.
Proof. apply length_map. Qed.

Lemma list_remove_mem o l :
  mem_ref o l = true -> exists r, list_remove o l = Some r.
Proof.
  unfold mem_ref. induction l as [| x l IH]; simpl; intros H.
  - discriminate.
  - rewrite (Nat.eqb_sym x o). destruct (o =? x); [eauto |].
    destruct (IH H) as [r Hr]. rewrite Hr. eauto.
Qed.






Section MigrationFacts.

Context {R : Random} {IC : IndividualContract}.














End MigrationFacts.

Lemma first_draws_sound : sampler_sound first_draws.
Proof.
  intros a k Hk. simpl. split.
  - rewrite length_firstn. lia.
  - intros x Hin. rewrite <- (firstn_skipn k a). apply in_or_app. now left.
Qed.




(** ** The host path keeps the row-index invariant *)

Lemma find_obj_split o l h :
  find_obj o l = Some h ->
  exists l1 l2,
    l = l1 ++ h :: l2 /\ Forall (fun x => obj x <> o) l1 /\ obj h = o.
Proof.
  unfold find_obj. induction l as [| x l IH]; simpl; intros H.
  - discriminate.
  - destruct (obj x =? o) eqn:E.
    + inversion H. subst. exists [], l. apply Nat.eqb_eq in E.
      repeat split; [constructor | exact E].
    + destruct (IH H) as (l1 & l2 & -> & Hfresh & Hobj).
      exists (x :: l1), l2. apply Nat.eqb_neq in E.
      repeat split; [constructor; assumption | exact Hobj].
Qed.

Lemma remove_obj_split o l1 h l2 :
  Forall (fun x => obj x <> o) l1 -> obj h = o ->
  remove_obj o (l1 ++ h :: l2) = l1 ++ l2.
Proof.
  intros Hfresh Hobj. induction Hfresh as [| x l1 Hx _ IH]; simpl.
  - subst o. rewrite Nat.eqb_refl. reflexivity.
  - apply Nat.eqb_neq in Hx. rewrite Hx, IH. reflexivity.
Qed.

Lemma length_np_delete {A : Type} (a a' : list A) i :
  np_delete a i = Some a' -> S (length a') = length a.
Proof.
  unfold np_delete. destruct (i <? length a) eqn:E; [| discriminate].
  apply Nat.ltb_lt in E. intros H. injection H as <-.
  rewrite length_app, length_firstn.
  destruct a as [| x l]; simpl in *; [lia |]. rewrite length_skipn. lia.
Qed.

(** Taking the individual at position [length l1] away and shifting the
    indices above it down keeps the correspondence with the matrix that
    lost the row. *)
Lemma rows_match_remove l1 h l2 a a' :
  rows_match (l1 ++ h :: l2) a ->
  np_delete a (length l1) = Some a' ->
  rows_match (shift_down (length l1) (l1 ++ l2)) a'.
Proof.
  intros [Hlen Hidx] Hdel. apply length_np_delete in Hdel. split.
  - rewrite length_shift_down. rewrite length_app in *. simpl in Hlen.
    lia.
  - intros i x Hx. unfold shift_down in Hx. rewrite nth_error_map in Hx.
    destruct (nth_error (l1 ++ l2) i) as [y |] eqn:Ey; [| discriminate].
    simpl in Hx. injection Hx as <-.
    destruct (Nat.lt_ge_cases i (length l1)) as [Hlt | Hge].
    + rewrite nth_error_app1 in Ey by exact Hlt.
      assert (Hy : coefficient_index y = i).
      { apply Hidx. rewrite nth_error_app1 by exact Hlt. exact Ey. }
      rewrite Hy.
      destruct (length l1 <? i) eqn:E;
        [apply Nat.ltb_lt in E; lia | exact Hy].
    + rewrite nth_error_app2 in Ey by exact Hge.
      assert (Hy : coefficient_index y = S i).
      { apply Hidx. rewrite nth_error_app2 by lia.
        replace (S i - length l1)%nat with (S (i - length l1)) by lia.
        exact Ey. }
      rewrite Hy.
      destruct (length l1 <? S i) eqn:E;
        [| apply Nat.ltb_ge in E; lia].
      cbn. lia.
Qed.

Section HostPath.

Context {R : Random}.

Lemma remove_host_keeps_rows_match p h p' :
  find_obj (obj h) (hosts p) = Some h ->
  rows_match (hosts p) (coefficients_hosts p) ->
  remove_host h p = Ret tt p' ->
  rows_match (hosts p') (coefficients_hosts p').
Proof.
  intros Hfind Hinv Hrem.
  destruct (find_obj_split _ _ _ Hfind) as (l1 & l2 & Hsplit & Hfresh & _).
  assert (Hk : coefficient_index h = length l1).
  { destruct Hinv as [_ Hidx]. apply Hidx. rewrite Hsplit.
    rewrite nth_error_app2, Nat.sub_diag by lia. reflexivity. }
  unfold remove_host, bind, get, modify, or_raise in Hrem.
  assert (Hgoal : forall q,
    hosts q = hosts p -> coefficients_hosts q = coefficients_hosts p ->
    forall rows,
    np_delete (coefficients_hosts q) (coefficient_index h) = Some rows ->
    rows_match (shift_down (coefficient_index h)
                  (remove_obj (obj h) (hosts q))) rows).
  { intros q Hh Hc rows Hdel. rewrite Hh, Hc in *. rewrite Hsplit in *.
    rewrite (remove_obj_split _ _ _ _ Hfresh eq_refl).
    rewrite Hk in *. eapply rows_match_remove; eassumption. }
  destruct (mem_ref (obj h) (infected_hosts p)).
  - destruct (list_remove (obj h) (infected_hosts p)) as [l |];
      [| discriminate].
    unfold ret in Hrem.
    cbn [coefficients_hosts set_hosts set_infected_hosts hosts] in Hrem.
    destruct (np_delete (coefficients_hosts p) (coefficient_index h))
      as [rows |] eqn:Edel; [| discriminate].
    injection Hrem as <-.
    cbn [hosts coefficients_hosts set_coefficients_hosts set_hosts
         set_infected_hosts].
    exact (Hgoal p eq_refl eq_refl rows Edel).
  - destruct (list_remove (obj h) (healthy_hosts p)) as [l |];
      [| discriminate].
    unfold ret in Hrem.
    cbn [coefficients_hosts set_hosts set_healthy_hosts hosts] in Hrem.
    destruct (np_delete (coefficients_hosts p) (coefficient_index h))
      as [rows |] eqn:Edel; [| discriminate].
    injection Hrem as <-.
    cbn [hosts coefficients_hosts set_coefficients_hosts set_hosts
         set_healthy_hosts].
    exact (Hgoal p eq_refl eq_refl rows Edel).
Qed.

(** [removeHosts] of a list of hosts keeps the hosts and the rows of their
    matrix in correspondence. *)
Lemma removeHosts_list_keeps_rows_match l : forall p p',
  rows_match (hosts p) (coefficients_hosts p) ->
  removeHosts (inr l) p = Ret tt p' ->
  rows_match (hosts p') (coefficients_hosts p').
Proof.
  induction l as [| o l IH]; intros p p' Hinv Hrem.
  - injection Hrem as <-. exact Hinv.
  - simpl in Hrem. unfold bind at 1 in Hrem. unfold bind at 1 in Hrem.
    unfold get at 1 in Hrem.
    destruct (find_obj o (hosts p)) as [h |] eqn:Efind.
    + destruct (remove_host h p) as [[] p1 | e p1] eqn:Er;
        [| discriminate].
      apply (IH p1 p'); [| exact Hrem].
      eapply remove_host_keeps_rows_match; [| exact Hinv | exact Er].
      rewrite (find_obj_obj _ _ _ Efind). exact Efind.
    + apply (IH p p'); assumption.
Qed.

End HostPath.

Lemma construct_cons init i ids p :
  construct init (i :: ids) p
  = match init i p with
    | Ret h p1 =>
        match construct init ids p1 with
        | Ret hs p2 => Ret (h :: hs) p2
        | Raise e p2 => Raise e p2
        end
    | Raise e p1 => Raise e p1
    end.
Proof. reflexivity. Qed.

Lemma construct_hosts ids : forall p,
  exists new p',
    construct Host_init ids p = Ret new p' /\
    hosts p' = hosts p /\
    length new = length ids /\
    length (coefficients_hosts p')
    = (length (coefficients_hosts p) + length ids)%nat /\
    forall i h, nth_error new i = Some h ->
      coefficient_index h = (length (coefficients_hosts p) + i)%nat.
Proof.
  induction ids as [| i0 ids IH]; intros p.
  - exists [], p. simpl. repeat split; try lia.
    intros [| i] h H; discriminate.
  - set (p0 := set_next_obj (S (next_obj p))
                 (set_coefficients_hosts
                    (coefficients_hosts p ++ [zeros NUM_COEFFICIENTS]) p)).
    set (h0 := {| obj := next_obj p; name := i0;
                  coefficient_index := length (coefficients_hosts p);
                  pathogens := []; protection_sequences := [] |}).
    destruct (IH p0) as (new & p' & Hc & Hh & Hl & Hr & Hi).
    exists (h0 :: new), p'. split.
    + rewrite construct_cons. change (Host_init i0 p) with (Ret h0 p0).
      cbv beta iota. rewrite Hc. reflexivity.
    + unfold p0 in *.
      cbn [hosts coefficients_hosts set_next_obj set_coefficients_hosts]
        in *.
      rewrite length_app in Hr, Hi. simpl in Hr, Hi. repeat split.
      * exact Hh.
      * simpl. lia.
      * simpl. lia.
      * intros [| i] h H; simpl in H.
        -- injection H as <-. simpl. lia.
        -- rewrite (Hi i h H). lia.
Qed.

(** [addHosts] keeps the hosts and the rows of their matrix in
    correspondence. *)
Lemma addHosts_keeps_rows_match n p :
  rows_match (hosts p) (coefficients_hosts p) ->
  exists new p',
    addHosts n p = Ret new p' /\
    rows_match (hosts p') (coefficients_hosts p').
Proof.
  intros [Hlen Hidx]. unfold addHosts, bind, get.
  match goal with
  | |- context [construct Host_init ?ids p] =>
      destruct (construct_hosts ids p) as (new & p1 & Hc & Hh & Hl & Hr & Hi);
      rewrite Hc
  end.
  rewrite length_map, length_seq in *.
  unfold modify, ret. eexists. eexists. split; [reflexivity |].
  cbn [hosts coefficients_hosts set_hosts set_healthy_hosts]. split.
  - rewrite length_app, Hh. lia.
  - intros i h H. rewrite Hh in H.
    destruct (Nat.lt_ge_cases i (length (hosts p))) as [Hlt | Hge].
    + rewrite nth_error_app1 in H by exact Hlt. exact (Hidx i h H).
    + rewrite nth_error_app2 in H by exact Hge.
      rewrite (Hi _ h H). lia.
Qed.


(** ** Killing, and what [doAction] reports *)

Lemma getWeightedRandom_returns draw r :
  0 <= draw -> draw < 1 -> 0 < np_sum r ->
  exists i res, getWeightedRandom draw r = Some (i, res).
Proof.
  intros H0 H1 HS. unfold getWeightedRandom.
  destruct (weighted_scan_spec r [] (draw * np_sum r) 0)
    as (k & e & res & Hs & _).
  - simpl. lra.
  - nra.
  - simpl. nra.
  - exists k, res. exact Hs.
Qed.

(** [killHost] never returns: it raises, and leaves the population as it
    is. *)
Lemma killHost_never_returns rand p :
  exists e, killHost rand p = Raise e p /\ (e = NameError \/ e = TypeError).
Proof.
  unfold killHost, bind, get, weighted_index, or_raise.
  destruct (getWeightedRandom rand _).
  - exists NameError. split; [reflexivity | now left].
  - exists TypeError. split; [reflexivity | now right].
Qed.

(** With a positive LETHALITY sum [killHost] raises NameError. *)
Lemma killHost_positive_column rand p :
  0 <= rand -> rand < 1 ->
  0 < np_sum (column LETHALITY (coefficients_hosts p)) ->
  killHost rand p = Raise NameError p.
Proof.
  intros H0 H1 HS.
  destruct (getWeightedRandom_returns rand _ H0 H1 HS) as (i & res & Hg).
  unfold killHost, bind, get, weighted_index, or_raise. rewrite Hg.
  reflexivity.
Qed.

Section DispatchFacts.

Context {R : Random} {IC : IndividualContract}.

(** [killVector] calls [die] on the vector at the index that the draw
    selects on the LETHALITY column. *)
Lemma killVector_kills_selected rand p :
  0 <= rand -> rand < 1 ->
  0 < np_sum (column LETHALITY (coefficients_vectors p)) ->
  exists i res,
    getWeightedRandom rand (column LETHALITY (coefficients_vectors p))
    = Some (i, res) /\
    killVector rand p
    = match nth_error (vectors p) i with
      | Some v => Vector_die (obj v) p
      | None => Raise IndexError p
      end.
Proof.
  intros H0 H1 HS.
  destruct (getWeightedRandom_returns rand _ H0 H1 HS) as (i & res & Hg).
  exists i, res. split; [exact Hg |].
  unfold killVector, bind, get, weighted_index, item, or_raise.
  rewrite Hg. cbn [fst ret].
  destruct (nth_error (vectors p) i); reflexivity.
Qed.

(** For the events of recovery, mutation, recombination and death,
    [doAction] returns True whenever the action of the population
    returns, whatever that action did. *)
Lemma doAction_reports_True pop rand m m' :
  (in_population pop (recoverHost rand) m = Ret tt m' ->
   doAction RECOVER_HOST pop rand m = Ret true m') /\
  (in_population pop (recoverVector rand) m = Ret tt m' ->
   doAction RECOVER_VECTOR pop rand m = Ret true m') /\
  (in_population pop (mutateHost rand) m = Ret tt m' ->
   doAction MUTATE_HOST pop rand m = Ret true m') /\
  (in_population pop (mutateVector rand) m = Ret tt m' ->
   doAction MUTATE_VECTOR pop rand m = Ret true m') /\
  (in_population pop (recombineHost rand) m = Ret tt m' ->
   doAction RECOMBINE_HOST pop rand m = Ret true m') /\
  (in_population pop (recombineVector rand) m = Ret tt m' ->
   doAction RECOMBINE_VECTOR pop rand m = Ret true m') /\
  (in_population pop (killHost rand) m = Ret tt m' ->
   doAction KILL_HOST pop rand m = Ret true m') /\
  (in_population pop (killVector rand) m = Ret tt m' ->
   doAction KILL_VECTOR pop rand m = Ret true m').
Proof.
  repeat split; intros H; unfold doAction; simpl; unfold bind;
    rewrite H; reflexivity.
Qed.

(** For the contacts within a population [doAction] returns what the
    action of the population returns. *)
Lemma doAction_contact_result pop rand :
  doAction CONTACT_HOST_HOST pop rand
  = in_population pop (contactHostHost rand) /\
  doAction CONTACT_HOST_VECTOR pop rand
  = in_population pop (contactHostVector rand) /\
  doAction CONTACT_VECTOR_HOST pop rand
  = in_population pop (contactVectorHost rand).
Proof. repeat split. Qed.

(** [doAction] never returns for the event KILL_HOST. *)
Lemma doAction_KILL_HOST_never_returns pop rand m b m' :
  doAction KILL_HOST pop rand m <> Ret b m'.
Proof.
  unfold doAction. simpl. unfold bind, in_population.
  destruct (dict_get pop (populations m)) as [p |]; [| discriminate].
  destruct (killHost_never_returns rand p) as (e & He & _). rewrite He.
  discriminate.
Qed.

End DispatchFacts.

(** ** The weighted draw in exact arithmetic: when there is no result *)

Lemma np_sum_nonneg r : (forall e, In e r -> 0 <= e) -> 0 <= np_sum r.
Proof.
  induction r as [| x r IH]; intros H; simpl.
  - lra.
  - assert (0 <= x) by (apply H; now left).
    assert (0 <= np_sum r) by (apply IH; intros e He; apply H; now right).
    lra.
Qed.

Lemma weighted_scan_exhausted r : forall u c i,
  (forall e, In e r -> 0 <= e) ->
  c + np_sum r <= u ->
  weighted_scan u c i r = None.
Proof.
  induction r as [| e r IH]; intros u c i Hpos Hu; simpl.
  - reflexivity.
  - assert (0 <= np_sum r)
      by (apply np_sum_nonneg; intros x Hx; apply Hpos; now right).
    simpl in Hu.
    destruct (Qltb u (c + e)) eqn:E.
    + apply Qltb_lt in E. lra.
    + apply IH; [intros x Hx; apply Hpos; now right | lra].
Qed.

Lemma np_sum_zero r : (forall e, In e r -> e == 0) -> np_sum r == 0.
Proof.
  induction r as [| x r IH]; intros H; simpl.
  - reflexivity.
  - rewrite (H x (or_introl eq_refl)), IH; [lra |].
    intros e He. apply H. now right.
Qed.

Lemma getWeightedRandom_no_weight rand r :
  (forall e, In e r -> e == 0) -> getWeightedRandom rand r = None.
Proof.
  intros H. unfold getWeightedRandom. apply weighted_scan_exhausted.
  - intros e He. rewrite (H e He). lra.
  - rewrite (np_sum_zero r H). lra.
Qed.

(** ** Events on a population without weight *)

Lemma np_multiply_no_weight a b :
  (forall e, In e b -> e == 0) ->
  forall e, In e (np_multiply a b) -> e == 0.
Proof.
  intros Hb e He. unfold np_multiply in He.
  apply in_map_iff in He. destruct He as ([x y] & <- & Hin).
  apply in_combine_r in Hin. simpl. rewrite (Hb y Hin). lra.
Qed.

Lemma all_zero_no_weight k a : all_zero a -> no_weight k a.
Proof.
  intros H e He. unfold column in He.
  apply in_map_iff in He. destruct He as (row & <- & Hrow).
  destruct (nth_in_or_default k row 0) as [Hin | ->].
  - exact (H row _ Hrow Hin).
  - reflexivity.
Qed.

Lemma weighted_index_no_weight {S : Type} rand r (s : S) :
  (forall e, In e r -> e == 0) ->
  weighted_index rand r s = Raise TypeError s.
Proof.
  intros H. unfold weighted_index.
  now rewrite (getWeightedRandom_no_weight rand r H).
Qed.

Section EventsWithoutWeight.

Context {R : Random} {IC : IndividualContract}.

Ltac first_draw_fails H :=
  unfold bind, get; rewrite weighted_index_no_weight; [reflexivity | exact H].

(** X3. On a population whose coefficients are all zero (nobody carries a
    pathogen), each of the twelve events inside a population raises
    TypeError at its first draw, which selects nothing, and leaves the
    population as it was. *)
Theorem events_without_weight_raise_TypeError (rand : Q) (p : Population) :
  all_zero (coefficients_hosts p) ->
  all_zero (coefficients_vectors p) ->
  contactHostHost rand p = Raise TypeError p /\
  contactHostVector rand p = Raise TypeError p /\
  contactVectorHost rand p = Raise TypeError p /\
  recoverHost rand p = Raise TypeError p /\
  recoverVector rand p = Raise TypeError p /\
  killHost rand p = Raise TypeError p /\
  killVector rand p = Raise TypeError p /\
  mutateHost rand p = Raise TypeError p /\
  mutateVector rand p = Raise TypeError p /\
  recombineHost rand p = Raise TypeError p /\
  recombineVector rand p = Raise TypeError p.
Proof.
  intros Hh Hv.
  assert (Ch : forall k e, In e (column k (coefficients_hosts p)) -> e == 0)
    by (intros k; apply all_zero_no_weight; exact Hh).
  assert (Cv : forall k e, In e (column k (coefficients_vectors p)) -> e == 0)
    by (intros k; apply all_zero_no_weight; exact Hv).
  repeat split.
  - unfold contactHostHost.
    first_draw_fails (np_multiply_no_weight
      (one_minus (column CONTACT (coefficients_hosts p))) _ (Ch INFECTED)).
  - unfold contactHostVector.
    first_draw_fails (np_multiply_no_weight
      (one_minus (column CONTACT (coefficients_hosts p))) _ (Ch INFECTED)).
  - unfold contactVectorHost.
    first_draw_fails (np_multiply_no_weight
      (one_minus (column CONTACT (coefficients_vectors p))) _ (Cv INFECTED)).
  - unfold recoverHost. first_draw_fails (Ch RECOVERY).
  - unfold recoverVector. first_draw_fails (Cv RECOVERY).
  - unfold killHost. first_draw_fails (Ch LETHALITY).
  - unfold killVector. first_draw_fails (Cv LETHALITY).
  - unfold mutateHost. first_draw_fails (Ch MUTATION).
  - unfold mutateVector. first_draw_fails (Cv MUTATION).
  - unfold recombineHost. first_draw_fails (Ch MUTATION).
  - unfold recombineVector. first_draw_fails (Cv MUTATION).
Qed.

(** X4. [recombineHost] and [recombineVector] draw on the MUTATION
    column: without weight in that column they raise TypeError and leave
    the population as it was, whatever the RECOMBINATION coefficients
    are. *)
Theorem recombination_needs_MUTATION_weight (rand : Q) (p : Population) :
  no_weight MUTATION (coefficients_hosts p) ->
  no_weight MUTATION (coefficients_vectors p) ->
  recombineHost rand p = Raise TypeError p /\
  recombineVector rand p = Raise TypeError p.
Proof.
  intros Hh Hv. split.
  - unfold recombineHost. first_draw_fails Hh.
  - unfold recombineVector. first_draw_fails Hv.
Qed.

End EventsWithoutWeight.

Lemma events_without_weight_raise_TypeError_witness :
  let p := healthy_pair in
  contactHostHost (IC := plain_individuals) (1 # 2) p = Raise TypeError p /\
  contactHostVector (IC := plain_individuals) (1 # 2) p
  = Raise TypeError p /\
  contactVectorHost (IC := plain_individuals) (1 # 2) p
  = Raise TypeError p /\
  recoverHost (IC := plain_individuals) (1 # 2) p = Raise TypeError p /\
  recoverVector (IC := plain_individuals) (1 # 2) p = Raise TypeError p /\
  killHost (1 # 2) p = Raise TypeError p /\
  killVector (IC := plain_individuals) (1 # 2) p = Raise TypeError p /\
  mutateHost (IC := plain_individuals) (1 # 2) p = Raise TypeError p /\
  mutateVector (IC := plain_individuals) (1 # 2) p = Raise TypeError p /\
  recombineHost (IC := plain_individuals) (1 # 2) p = Raise TypeError p /\
  recombineVector (IC := plain_individuals) (1 # 2) p = Raise TypeError p.
Proof.
  apply (events_without_weight_raise_TypeError (IC := plain_individuals)
           (1 # 2) healthy_pair).
  - intros row e [<- | []] He.
    repeat (destruct He as [<- | He]; [reflexivity |]). destruct He.
  - intros row e [<- | []] He.
    repeat (destruct He as [<- | He]; [reflexivity |]). destruct He.
Defined.

Lemma recombination_needs_MUTATION_weight_witness :
  0 < np_sum (column RECOMBINATION (coefficients_hosts recombination_only))
  /\
  0 < np_sum (column RECOMBINATION
                (coefficients_vectors recombination_only)) /\
  recombineHost (IC := plain_individuals) (1 # 2) recombination_only
  = Raise TypeError recombination_only /\
  recombineVector (IC := plain_individuals) (1 # 2) recombination_only
  = Raise TypeError recombination_only.
Proof.
  split; [reflexivity |]. split; [reflexivity |].
  apply (recombination_needs_MUTATION_weight (IC := plain_individuals)
           (1 # 2) recombination_only).
  - intros e [<- | []]. reflexivity.
  - intros e [<- | []]. reflexivity.
Defined.

(** ** addHosts, addVectors: what is added, and the rows *)

Lemma construct_Host_init ids : forall p,
  exists new,
    construct Host_init ids p
    = Ret new
        (set_next_obj (length ids + next_obj p)
           (set_coefficients_hosts
              (coefficients_hosts p
               ++ repeat (zeros NUM_COEFFICIENTS) (length ids)) p)) /\
    map obj new = seq (next_obj p) (length ids) /\
    map name new = ids /\
    map coefficient_index new
    = seq (length (coefficients_hosts p)) (length ids) /\
    Forall (fun h => pathogens h = [] /\ protection_sequences h = []) new.
Proof.
  induction ids as [| i0 ids IH]; intros p.
  - exists []. simpl. repeat split; [| constructor].
    destruct p. unfold ret, set_next_obj, set_coefficients_hosts. simpl.
    rewrite app_nil_r. reflexivity.
  - set (p0 := set_next_obj (S (next_obj p))
                 (set_coefficients_hosts
                    (coefficients_hosts p ++ [zeros NUM_COEFFICIENTS]) p)).
    set (h0 := {| obj := next_obj p; name := i0;
                  coefficient_index := length (coefficients_hosts p);
                  pathogens := []; protection_sequences := [] |}).
    destruct (IH p0) as (new & Hc & Ho & Hn & Hi & Hp).
    exists (h0 :: new). split; [| repeat split].
    + rewrite construct_cons. change (Host_init i0 p) with (Ret h0 p0).
      cbv beta iota. rewrite Hc. f_equal.
      destruct p. unfold p0, set_next_obj, set_coefficients_hosts. simpl.
      rewrite <- app_assoc, Nat.add_succ_r. reflexivity.
    + simpl. rewrite Ho. reflexivity.
    + simpl. rewrite Hn. reflexivity.
    + simpl. rewrite Hi. unfold p0. simpl. rewrite length_app, Nat.add_1_r.
      reflexivity.
    + constructor; [split; reflexivity | exact Hp].
Qed.

Lemma construct_Vector_init ids : forall p,
  exists new,
    construct Vector_init ids p
    = Ret new
        (set_next_obj (length ids + next_obj p)
           (set_coefficients_vectors
              (coefficients_vectors p
               ++ repeat (zeros NUM_COEFFICIENTS) (length ids)) p)) /\
    map obj new = seq (next_obj p) (length ids) /\
    map name new = ids /\
    map coefficient_index new
    = seq (length (coefficients_vectors p)) (length ids) /\
    Forall (fun h => pathogens h = [] /\ protection_sequences h = []) new.
Proof.
  induction ids as [| i0 ids IH]; intros p.
  - exists []. simpl. repeat split; [| constructor].
    destruct p. unfold ret, set_next_obj, set_coefficients_vectors. simpl.
    rewrite app_nil_r. reflexivity.
  - set (p0 := set_next_obj (S (next_obj p))
                 (set_coefficients_vectors
                    (coefficients_vectors p ++ [zeros NUM_COEFFICIENTS])
                    p)).
    set (h0 := {| obj := next_obj p; name := i0;
                  coefficient_index := length (coefficients_vectors p);
                  pathogens := []; protection_sequences := [] |}).
    destruct (IH p0) as (new & Hc & Ho & Hn & Hi & Hp).
    exists (h0 :: new). split; [| repeat split].
    + rewrite construct_cons. change (Vector_init i0 p) with (Ret h0 p0).
      cbv beta iota. rewrite Hc. f_equal.
      destruct p. unfold p0, set_next_obj, set_coefficients_vectors. simpl.
      rewrite <- app_assoc, Nat.add_succ_r. reflexivity.
    + simpl. rewrite Ho. reflexivity.
    + simpl. rewrite Hn. reflexivity.
    + simpl. rewrite Hi. unfold p0. simpl. rewrite length_app, Nat.add_1_r.
      reflexivity.
    + constructor; [split; reflexivity | exact Hp].
Qed.

(** New individuals whose indices continue the rows of the matrix keep
    the correspondence, with one more row each. *)
Lemma rows_match_app l a new n :
  rows_match l a ->
  map coefficient_index new = seq (length a) n ->
  rows_match (l ++ new) (a ++ repeat (zeros NUM_COEFFICIENTS) n).
Proof.
  intros [Hlen Hidx] Hnew.
  assert (Hn : length new = n).
  { rewrite <- (length_map coefficient_index), Hnew. apply length_seq. }
  split.
  - rewrite !length_app, repeat_length. lia.
  - intros i h H.
    destruct (Nat.lt_ge_cases i (length l)) as [Hlt | Hge].
    + rewrite nth_error_app1 in H by exact Hlt. exact (Hidx i h H).
    + rewrite nth_error_app2 in H by exact Hge.
      assert (Hk : (i - length l < n)%nat).
      { rewrite <- Hn. apply nth_error_Some. congruence. }
      apply (map_nth_error coefficient_index) in H.
      rewrite Hnew in H. apply (nth_error_nth _ _ 0%nat) in H.
      rewrite seq_nth in H by exact Hk. lia.
Qed.

Section Adding.

Context {R : Random} {IC : IndividualContract}.

(** X5. [addHosts(n)] always returns. It appends [n] new hosts to the
    hosts and their references to the healthy hosts, in the order in
    which it returns them; they carry no pathogen and no protection;
    their names are the id of the population, an underscore and the
    numbers that follow the number of hosts before the call; each gets a
    new row of zeros at the end of the hosts matrix. Nothing else of the
    population changes but the counter of objects. *)
Theorem addHosts_appends_healthy_hosts (n : nat) (p : Population) :
  exists new p',
    addHosts n p = Ret (map obj new) p' /\
    length new = n /\
    hosts p' = hosts p ++ new /\
    healthy_hosts p' = healthy_hosts p ++ map obj new /\
    coefficients_hosts p'
    = coefficients_hosts p ++ repeat (zeros NUM_COEFFICIENTS) n /\
    map obj new = seq (next_obj p) n /\
    map coefficient_index new = seq (length (coefficients_hosts p)) n /\
    map name new
    = map (fun i => String.append (id p)
                      (String.append "_" (str (i + length (hosts p)))))
        (seq 0 n) /\
    Forall (fun h => pathogens h = [] /\ protection_sequences h = []) new /\
    p' = set_healthy_hosts (healthy_hosts p')
           (set_hosts (hosts p')
              (set_coefficients_hosts (coefficients_hosts p')
                 (set_next_obj (next_obj p') p))).
Proof.
  unfold addHosts, bind, get.
  match goal with
  | |- context [construct Host_init ?ids p] =>
      destruct (construct_Host_init ids p) as (new & Hc & Ho & Hn & Hi & Hp);
      rewrite Hc
  end.
  rewrite length_map, length_seq in *.
  exists new. eexists. unfold modify, ret. split; [reflexivity |].
  destruct p.
  cbn [hosts healthy_hosts coefficients_hosts set_hosts set_healthy_hosts
       set_next_obj set_coefficients_hosts next_obj id] in *.
  repeat split; try assumption.
  rewrite <- (length_map obj), Ho. apply length_seq.
Qed.

(** X6. [addVectors(n)] always returns. It appends [n] new vectors to the
    vectors, in the order in which it returns them; they carry no
    pathogen and no protection; each gets a new row of zeros at the end
    of the vectors matrix. Nothing else of the population changes but the
    counter of objects: no list of hosts, and not the infected
    vectors. *)
Theorem addVectors_appends_vectors (n : nat) (p : Population) :
  exists new p',
    addVectors n p = Ret (map obj new) p' /\
    length new = n /\
    vectors p' = vectors p ++ new /\
    coefficients_vectors p'
    = coefficients_vectors p ++ repeat (zeros NUM_COEFFICIENTS) n /\
    map obj new = seq (next_obj p) n /\
    map coefficient_index new = seq (length (coefficients_vectors p)) n /\
    map name new
    = map (fun i => String.append (id p)
                      (String.append "_" (str (i + length (vectors p)))))
        (seq 0 n) /\
    Forall (fun h => pathogens h = [] /\ protection_sequences h = []) new /\
    p' = set_vectors (vectors p')
           (set_coefficients_vectors (coefficients_vectors p')
              (set_next_obj (next_obj p') p)).
Proof.
  unfold addVectors, bind, get.
  match goal with
  | |- context [construct Vector_init ?ids p] =>
      destruct (construct_Vector_init ids p)
        as (new & Hc & Ho & Hn & Hi & Hp);
      rewrite Hc
  end.
  rewrite length_map, length_seq in *.
  exists new. eexists. unfold modify, ret. split; [reflexivity |].
  destruct p.
  cbn [vectors coefficients_vectors set_vectors set_next_obj
       set_coefficients_vectors next_obj id] in *.
  repeat split; try assumption.
  rewrite <- (length_map obj), Ho. apply length_seq.
Qed.

(** X7. [addHosts] and [addVectors] keep the row-index invariant: after
    either, each matrix has one row per live individual, at the
    individual's index. *)
Theorem adding_keeps_row_index_invariant (n : nat) (p : Population) :
  row_index_invariant p ->
  (exists new p',
     addHosts n p = Ret new p' /\ row_index_invariant p') /\
  (exists new p',
     addVectors n p = Ret new p' /\ row_index_invariant p').
Proof.
  intros [Hh Hv]. split.
  - unfold addHosts, bind, get.
    match goal with
    | |- context [construct Host_init ?ids p] =>
        destruct (construct_Host_init ids p)
          as (new & Hc & Ho & Hn & Hi & Hp);
        rewrite Hc
    end.
    rewrite length_map, length_seq in *.
    eexists. eexists. unfold modify, ret. split; [reflexivity |].
    split;
      cbn [hosts vectors coefficients_hosts coefficients_vectors set_hosts
           set_healthy_hosts set_next_obj set_coefficients_hosts].
    + apply rows_match_app; assumption.
    + exact Hv.
  - unfold addVectors, bind, get.
    match goal with
    | |- context [construct Vector_init ?ids p] =>
        destruct (construct_Vector_init ids p)
          as (new & Hc & Ho & Hn & Hi & Hp);
        rewrite Hc
    end.
    rewrite length_map, length_seq in *.
    eexists. eexists. unfold modify, ret. split; [reflexivity |].
    split;
      cbn [hosts vectors coefficients_hosts coefficients_vectors
           set_vectors set_next_obj set_coefficients_vectors].
    + exact Hh.
    + apply rows_match_app; assumption.
Qed.

End Adding.

Lemma adding_keeps_row_index_invariant_witness :
  (exists new p',
     addHosts 3 two_by_two = Ret new p' /\ row_index_invariant p') /\
  (exists new p',
     addVectors 3 two_by_two = Ret new p' /\ row_index_invariant p').
Proof.
  apply (adding_keeps_row_index_invariant 3 two_by_two).
  split; (split; [reflexivity |]);
    intros [| [| [| i]]] h H; simpl in H; inversion H; reflexivity.
Defined.

(** ** removeHosts: who goes, who stays, and the rows *)

Lemma map_obj_shift_down i l : map obj (shift_down i l) = map obj l.
Proof.
  unfold shift_down. rewrite map_map. apply map_ext.
  intros h. destruct (i <? coefficient_index h); reflexivity.
Qed.

Lemma list_remove_mem_other o o' l r :
  list_remove o l = Some r -> o' <> o -> mem_ref o' r = mem_ref o' l.
Proof.
  revert r. induction l as [| x l IH]; intros r H Hneq; simpl in H.
  - discriminate.
  - destruct (x =? o) eqn:E.
    + injection H as <-. apply Nat.eqb_eq in E. subst x. simpl.
      apply Nat.eqb_neq in Hneq. rewrite Hneq. reflexivity.
    + destruct (list_remove o l) as [r' |]; [| discriminate].
      injection H as <-. simpl. rewrite (IH r' eq_refl Hneq). reflexivity.
Qed.

Lemma nth_error_delete_below {A : Type} (a : list A) k i :
  (k < length a)%nat -> (i < k)%nat ->
  nth_error (firstn k a ++ skipn (S k) a) i = nth_error a i.
Proof.
  intros Hk Hi. rewrite nth_error_app1.
  - rewrite nth_error_firstn. apply Nat.ltb_lt in Hi. rewrite Hi.
    reflexivity.
  - rewrite length_firstn. lia.
Qed.

Lemma nth_error_delete_above {A : Type} (a : list A) k i :
  (k < length a)%nat -> (k < i)%nat ->
  nth_error (firstn k a ++ skipn (S k) a) (i - 1) = nth_error a i.
Proof.
  intros Hk Hi. rewrite nth_error_app2; rewrite length_firstn.
  - rewrite nth_error_skipn. f_equal. lia.
  - lia.
Qed.

Lemma filter_fresh {B : Type} (f : Individual -> nat * B) o l :
  (forall x, fst (f x) = obj x) ->
  Forall (fun x => obj x <> o) l ->
  filter (fun y => negb (fst y =? o)) (map f l) = map f l.
Proof.
  intros Hf H. induction H as [| x l Hx _ IH]; simpl.
  - reflexivity.
  - rewrite Hf. apply Nat.eqb_neq in Hx. rewrite Hx. simpl.
    rewrite IH. reflexivity.
Qed.

Lemma filter_mem_cons {B : Type} o l (ys : list (nat * B)) :
  filter (fun y => negb (mem_ref (fst y) (o :: l))) ys
  = filter (fun y => negb (mem_ref (fst y) l))
      (filter (fun y => negb (fst y =? o)) ys).
Proof.
  induction ys as [| y ys IH]; cbn [filter].
  - reflexivity.
  - change (mem_ref (fst y) (o :: l))
      with ((fst y =? o) || mem_ref (fst y) l).
    rewrite IH.
    destruct (fst y =? o); cbn [negb orb filter]; reflexivity.
Qed.

Lemma find_obj_None_fresh o l :
  find_obj o l = None -> Forall (fun x => obj x <> o) l.
Proof.
  unfold find_obj. induction l as [| x l IH]; simpl; intros H.
  - constructor.
  - destruct (obj x =? o) eqn:E; [discriminate |].
    apply Nat.eqb_neq in E. constructor; auto.
Qed.

Lemma find_obj_In o l h : find_obj o l = Some h -> In h l.
Proof. unfold find_obj. intros H. apply find_some in H. tauto. Qed.

Section RemovingHosts.

Context {R : Random}.

Lemma remove_host_computes p h l rows :
  (if mem_ref (obj h) (infected_hosts p)
   then list_remove (obj h) (infected_hosts p)
   else list_remove (obj h) (healthy_hosts p)) = Some l ->
  np_delete (coefficients_hosts p) (coefficient_index h) = Some rows ->
  remove_host h p
  = Ret tt
      (set_coefficients_hosts rows
         (set_hosts
            (shift_down (coefficient_index h)
               (remove_obj (obj h) (hosts p)))
            ((if mem_ref (obj h) (infected_hosts p)
              then set_infected_hosts l else set_healthy_hosts l) p))).
Proof.
  intros Hl Hdel. unfold remove_host, bind, get, modify, or_raise.
  destruct (mem_ref (obj h) (infected_hosts p)); rewrite Hl; unfold ret;
    cbn [coefficients_hosts set_hosts set_infected_hosts set_healthy_hosts
         hosts];
    rewrite Hdel; reflexivity.
Qed.

(** One removal: the host goes, the others keep what they carry and their
    rows, and the bookkeeping holds again. *)
Lemma remove_host_step p h :
  host_bookkeeping p -> In h (hosts p) ->
  exists p',
    remove_host h p = Ret tt p' /\
    host_bookkeeping p' /\
    hosts_with_rows p'
    = filter (fun x => negb (fst x =? obj h)) (hosts_with_rows p) /\
    S (length (hosts p')) = length (hosts p) /\
    vectors p' = vectors p /\
    coefficients_vectors p' = coefficients_vectors p /\
    infected_vectors p' = infected_vectors p.
Proof.
  intros ((Hlen & Hidx) & Hnd & Hmem) Hin.
  destruct (in_split _ _ Hin) as (l1 & l2 & Hsplit).
  assert (Hnd' := Hnd). rewrite Hsplit, map_app in Hnd'. simpl in Hnd'.
  apply NoDup_remove in Hnd'. destruct Hnd' as [Hnd12 Hnotin].
  rewrite <- map_app in Hnd12, Hnotin.
  assert (Hfresh : Forall (fun x => obj x <> obj h) (l1 ++ l2)).
  { apply Forall_forall. intros x Hx E. apply Hnotin. rewrite <- E.
    apply in_map. exact Hx. }
  assert (Hfresh1 : Forall (fun x => obj x <> obj h) l1)
    by (apply Forall_app in Hfresh; tauto).
  assert (Hk : coefficient_index h = length l1).
  { apply Hidx. rewrite Hsplit, nth_error_app2, Nat.sub_diag by lia.
    reflexivity. }
  assert (Hlt : (length l1 < length (coefficients_hosts p))%nat).
  { rewrite Hlen, Hsplit, length_app. simpl. lia. }
  assert (Hdel : np_delete (coefficients_hosts p) (coefficient_index h)
                 = Some (firstn (length l1) (coefficients_hosts p)
                         ++ skipn (S (length l1)) (coefficients_hosts p))).
  { unfold np_delete. rewrite Hk.
    apply Nat.ltb_lt in Hlt. rewrite Hlt. reflexivity. }
  assert (Hl : exists l,
    (if mem_ref (obj h) (infected_hosts p)
     then list_remove (obj h) (infected_hosts p)
     else list_remove (obj h) (healthy_hosts p)) = Some l).
  { destruct (mem_ref (obj h) (infected_hosts p)) eqn:E.
    - apply list_remove_mem. exact E.
    - apply list_remove_mem. destruct (Hmem h Hin); congruence. }
  destruct Hl as (l & Hl).
  rewrite (remove_host_computes p h l _ Hl Hdel).
  eexists. split; [reflexivity |].
  assert (Hhosts : shift_down (coefficient_index h)
                     (remove_obj (obj h) (hosts p))
                   = shift_down (length l1) (l1 ++ l2)).
  { rewrite Hsplit, (remove_obj_split _ _ _ _ Hfresh1 eq_refl), Hk.
    reflexivity. }
  assert (Hlow : forall x, In x l1 -> (coefficient_index x < length l1)%nat).
  { intros x Hx. destruct (In_nth_error _ _ Hx) as (i & Hi).
    assert (i < length l1)%nat by (apply nth_error_Some; congruence).
    rewrite (Hidx i x); [assumption |].
    rewrite Hsplit, nth_error_app1; assumption. }
  assert (Hhigh : forall x, In x l2 -> (length l1 < coefficient_index x)%nat).
  { intros x Hx. destruct (In_nth_error _ _ Hx) as (i & Hi).
    rewrite (Hidx (length l1 + S i)%nat x); [lia |].
    rewrite Hsplit, nth_error_app2 by lia.
    replace (length l1 + S i - length l1)%nat with (S i) by lia.
    exact Hi. }
  split; [split; [| split] | split; [| repeat split]].
  - (* the rows *)
    destruct (mem_ref (obj h) (infected_hosts p));
      cbn [hosts coefficients_hosts set_coefficients_hosts set_hosts
           set_infected_hosts set_healthy_hosts];
      rewrite Hhosts;
      (eapply rows_match_remove;
       [rewrite <- Hsplit; split; eassumption
       | unfold np_delete; apply Nat.ltb_lt in Hlt; rewrite Hlt;
         reflexivity]).
  - (* no host twice *)
    destruct (mem_ref (obj h) (infected_hosts p));
      cbn [hosts set_coefficients_hosts set_hosts set_infected_hosts
           set_healthy_hosts];
      rewrite Hhosts, map_obj_shift_down; exact Hnd12.
  - (* infected or healthy *)
    intros x Hx.
    assert (Hx' : In (obj x) (map obj (l1 ++ l2))).
    { rewrite <- (map_obj_shift_down (length l1)), <- Hhosts.
      apply in_map.
      destruct (mem_ref (obj h) (infected_hosts p)); exact Hx. }
    apply in_map_iff in Hx'. destruct Hx' as (y & Hy & Hyin).
    assert (Hne : obj x <> obj h).
    { rewrite <- Hy. rewrite Forall_forall in Hfresh. auto. }
    assert (Hyp : In y (hosts p)).
    { rewrite Hsplit. apply in_app_or in Hyin. apply in_or_app. simpl.
      tauto. }
    specialize (Hmem y Hyp). rewrite Hy in Hmem.
    destruct (mem_ref (obj h) (infected_hosts p));
      cbn [infected_hosts healthy_hosts set_coefficients_hosts set_hosts
           set_infected_hosts set_healthy_hosts];
      rewrite (list_remove_mem_other _ _ _ _ Hl Hne); exact Hmem.
  - (* who stays *)
    unfold hosts_with_rows.
    assert (Hh : hosts
      (set_coefficients_hosts
         (firstn (length l1) (coefficients_hosts p)
          ++ skipn (S (length l1)) (coefficients_hosts p))
         (set_hosts
            (shift_down (coefficient_index h)
               (remove_obj (obj h) (hosts p)))
            ((if mem_ref (obj h) (infected_hosts p)
              then set_infected_hosts l else set_healthy_hosts l) p)))
      = shift_down (length l1) (l1 ++ l2)).
    { rewrite <- Hhosts.
      destruct (mem_ref (obj h) (infected_hosts p)); reflexivity. }
    rewrite Hh. cbn [coefficients_hosts set_coefficients_hosts].
    rewrite Hsplit. rewrite map_app. cbn [map].
    rewrite filter_app. cbn [filter fst]. rewrite Nat.eqb_refl.
    cbn [negb].
    apply Forall_app in Hfresh. destruct Hfresh as [F1 F2].
    rewrite (filter_fresh _ _ l1), (filter_fresh _ _ l2);
      [| reflexivity | exact F2 | reflexivity | exact F1].
    unfold shift_down. rewrite map_map, map_app. f_equal.
    + apply map_ext_in. intros x Hx. specialize (Hlow x Hx).
      destruct (length l1 <? coefficient_index x) eqn:E;
        [apply Nat.ltb_lt in E; lia |].
      cbv beta iota.
      rewrite nth_error_delete_below by assumption. reflexivity.
    + apply map_ext_in. intros x Hx. specialize (Hhigh x Hx).
      apply Nat.ltb_lt in Hhigh. rewrite Hhigh. apply Nat.ltb_lt in Hhigh.
      cbv beta iota.
      cbn [obj name pathogens coefficient_index set_coefficient_index].
      rewrite nth_error_delete_above by assumption. reflexivity.
  - destruct (mem_ref (obj h) (infected_hosts p));
      cbn [hosts set_coefficients_hosts set_hosts set_infected_hosts
           set_healthy_hosts];
      rewrite Hhosts, length_shift_down, Hsplit, !length_app; simpl; lia.
  - destruct (mem_ref (obj h) (infected_hosts p)); reflexivity.
  - destruct (mem_ref (obj h) (infected_hosts p)); reflexivity.
  - destruct (mem_ref (obj h) (infected_hosts p)); reflexivity.
Qed.

(** X8. On a population whose host bookkeeping holds, [removeHosts] with
    a list returns; the live hosts of the list are gone and no other; the
    hosts that stay keep their name, what they carry and, through their
    shifted index, their own coefficient row; the bookkeeping holds
    again; the vectors, their matrix and the infected vectors are as
    before. *)
Theorem removeHosts_list_removes_the_listed (l : list nat)
  (p : Population) :
  host_bookkeeping p ->
  exists p',
    removeHosts (inr l) p = Ret tt p' /\
    host_bookkeeping p' /\
    hosts_with_rows p'
    = filter (fun x => negb (mem_ref (fst x) l)) (hosts_with_rows p) /\
    vectors p' = vectors p /\
    coefficients_vectors p' = coefficients_vectors p /\
    infected_vectors p' = infected_vectors p.
Proof.
  revert p. induction l as [| o l IH]; intros p Hbk.
  - exists p. split; [reflexivity |]. split; [exact Hbk |].
    split; [| repeat split].
    induction (hosts_with_rows p) as [| y ys IHy]; simpl;
      [reflexivity | f_equal; exact IHy].
  - cbn [removeHosts for_each]. unfold bind at 1. unfold bind at 1.
    unfold get at 1.
    destruct (find_obj o (hosts p)) as [h |] eqn:Efind.
    + destruct (remove_host_step p h Hbk (find_obj_In _ _ _ Efind))
        as (p1 & Hr & Hbk1 & Hrows & _ & Hv & Hcv & Hiv).
      rewrite Hr.
      destruct (IH p1 Hbk1) as (p' & Hr' & Hbk' & Hrows' & Hv' & Hcv' & Hiv').
      exists p'. split; [exact Hr' |]. split; [exact Hbk' |].
      rewrite filter_mem_cons, <- (find_obj_obj _ _ _ Efind), <- Hrows.
      repeat split; congruence.
    + destruct (IH p Hbk) as (p' & Hr' & Hbk' & Hrows' & Hv' & Hcv' & Hiv').
      exists p'. split; [exact Hr' |]. split; [exact Hbk' |].
      rewrite filter_mem_cons.
      unfold hosts_with_rows at 2.
      rewrite filter_fresh;
        [| reflexivity | apply find_obj_None_fresh; exact Efind].
      repeat split; assumption.
Qed.

(** X9. On a population whose host bookkeeping holds, with a generator
    that picks a position of the list it is given, [removeHosts] with a
    number [n] removes [n] hosts and returns when there are that many;
    with fewer, it removes them all and then raises ValueError. The
    hosts that stay keep their name, what they carry and their row, and
    the bookkeeping holds again. *)
Theorem removeHosts_number_removes_that_many (sound : picker_sound R)
  (n : nat) (p : Population) :
  host_bookkeeping p ->
  exists p',
    removeHosts (inl n) p
    = (if n <=? length (hosts p) then Ret tt p' else Raise ValueError p') /\
    host_bookkeeping p' /\
    length (hosts p') = (length (hosts p) - n)%nat /\
    incl (hosts_with_rows p') (hosts_with_rows p) /\
    vectors p' = vectors p /\
    coefficients_vectors p' = coefficients_vectors p.
Proof.
  revert p. induction n as [| n IH]; intros p Hbk.
  - exists p. split; [reflexivity |]. split; [exact Hbk |].
    split; [rewrite Nat.sub_0_r; reflexivity |].
    split; [apply incl_refl | split; reflexivity].
  - cbn [removeHosts repeat_times]. unfold bind at 1. unfold bind at 1.
    unfold get at 1. unfold np_random_choice1, or_raise.
    destruct (hosts p) as [| h0 hs] eqn:Eh.
    + exists p. rewrite Eh.
      destruct (pick_oracle (length (@nil Individual))); simpl;
        (split; [unfold bind, raise; reflexivity |]);
        (split; [exact Hbk |]);
        (split; [reflexivity |]);
        (split; [apply incl_refl | split; reflexivity]).
    + rewrite <- Eh.
      assert (Hpos : (0 < length (hosts p))%nat)
        by (rewrite Eh; simpl; lia).
      specialize (sound _ Hpos).
      destruct (nth_error (hosts p) (pick_oracle (length (hosts p))))
        as [h |] eqn:En;
        [| apply nth_error_None in En; lia].
      unfold ret, bind.
      destruct (remove_host_step p h Hbk (nth_error_In _ _ En))
        as (p1 & Hr & Hbk1 & Hrows & Hlen & Hv & Hcv & _).
      rewrite Hr.
      destruct (IH p1 Hbk1) as (p' & Hr' & Hbk' & Hlen' & Hincl & Hv' & Hcv').
      exists p'. cbn [removeHosts] in Hr'.
      replace (S n <=? length (hosts p)) with (n <=? length (hosts p1))
        by (rewrite <- Hlen; reflexivity).
      split; [exact Hr' |]. split; [exact Hbk' |].
      repeat split; try congruence.
      * lia.
      * intros x Hx. apply Hincl in Hx. rewrite Hrows in Hx.
        apply filter_In in Hx. tauto.
Qed.

(** X10. [removeHosts] and [removeVectors] with a list of references
    none of which is a live host, or vector, of the population return and
    leave the population as it was. *)
Theorem removing_strangers_changes_nothing (l : list nat)
  (p : Population) :
  (forall o, In o l -> find_obj o (hosts p) = None) ->
  (forall o, In o l -> find_obj o (vectors p) = None) ->
  removeHosts (inr l) p = Ret tt p /\ removeVectors (inr l) p = Ret tt p.
Proof.
  intros Hh Hv. split.
  - induction l as [| o l IH]; [reflexivity |].
    cbn [removeHosts for_each]. unfold bind at 1. unfold bind at 1.
    unfold get at 1. rewrite (Hh o (or_introl eq_refl)). unfold ret at 1.
    apply IH; intros o' Ho'; [apply Hh | apply Hv]; now right.
  - induction l as [| o l IH]; [reflexivity |].
    cbn [removeVectors for_each]. unfold bind at 1. unfold bind at 1.
    unfold get at 1. rewrite (Hv o (or_introl eq_refl)). unfold ret at 1.
    apply IH; intros o' Ho'; [apply Hh | apply Hv]; now right.
Qed.

End RemovingHosts.

Lemma removeHosts_list_removes_the_listed_witness :
  exists p',
    removeHosts (R := first_draws) (inr [0%nat; 7%nat]) two_by_two
    = Ret tt p' /\
    host_bookkeeping p' /\
    hosts_with_rows p'
    = filter (fun x => negb (mem_ref (fst x) [0%nat; 7%nat]))
        (hosts_with_rows two_by_two) /\
    vectors p' = vectors two_by_two /\
    coefficients_vectors p' = coefficients_vectors two_by_two /\
    infected_vectors p' = infected_vectors two_by_two.
Proof.
  apply (removeHosts_list_removes_the_listed (R := first_draws)
           [0%nat; 7%nat] two_by_two).
  split; [split; [reflexivity |] | split].
  - intros [| [| [| i]]] h H; simpl in H; inversion H; reflexivity.
  - constructor; [simpl; intros [H | []]; discriminate H |].
    constructor; [intros [] | constructor].
  - intros h [<- | [<- | []]]; right; reflexivity.
Defined.

Lemma removeHosts_number_removes_that_many_witness :
  (exists p',
     removeHosts (R := first_draws) (inl 1%nat) two_by_two = Ret tt p' /\
     host_bookkeeping p' /\
     length (hosts p') = 1%nat /\
     incl (hosts_with_rows p') (hosts_with_rows two_by_two) /\
     vectors p' = vectors two_by_two /\
     coefficients_vectors p' = coefficients_vectors two_by_two) /\
  (exists p',
     removeHosts (R := first_draws) (inl 3%nat) two_by_two
     = Raise ValueError p' /\
     host_bookkeeping p' /\
     length (hosts p') = 0%nat /\
     incl (hosts_with_rows p') (hosts_with_rows two_by_two) /\
     vectors p' = vectors two_by_two /\
     coefficients_vectors p' = coefficients_vectors two_by_two).
Proof.
  assert (Hbk : host_bookkeeping two_by_two).
  { split; [split; [reflexivity |] | split].
    - intros [| [| [| i]]] h H; simpl in H; inversion H; reflexivity.
    - constructor; [simpl; intros [H | []]; discriminate H |].
      constructor; [intros [] | constructor].
    - intros h [<- | [<- | []]]; right; reflexivity. }
  split.
  - apply (removeHosts_number_removes_that_many (R := first_draws)
             (fun n Hn => Hn) 1 two_by_two Hbk).
  - apply (removeHosts_number_removes_that_many (R := first_draws)
             (fun n Hn => Hn) 3 two_by_two Hbk).
Defined.

Lemma removing_strangers_changes_nothing_witness :
  removeHosts (R := first_draws) (inr [7%nat; 8%nat]) two_by_two
  = Ret tt two_by_two /\
  removeVectors (inr [7%nat; 8%nat]) two_by_two = Ret tt two_by_two.
Proof.
  apply (removing_strangers_changes_nothing (R := first_draws)
           [7%nat; 8%nat] two_by_two).
  - intros o [<- | [<- | []]]; reflexivity.
  - intros o [<- | [<- | []]]; reflexivity.
Defined.

(** ** Migration neighbors and the dispatch of migrations *)

Lemma np_sum_dict_set k v (d : dict Q) :
  np_sum (values (dict_set k v d))
  == np_sum (values d)
     - match dict_get k d with Some old => old | None => 0 end
     + v.
Proof.
  unfold values. induction d as [| [k' v'] d IH]; simpl.
  - lra.
  - destruct (String.eqb k k'); simpl.
    + lra.
    + rewrite IH. lra.
Qed.


Lemma migration_scan_selected nbrs : forall u c n res,
  c <= u ->
  migration_scan u c nbrs = Some (n, res) ->
  exists rate, In (n, rate) nbrs /\ 0 < rate /\ 0 <= res /\ res < 1.
Proof.
  induction nbrs as [| [k rate] nbrs IH]; intros u c n res Hc H;
    simpl in H.
  - discriminate.
  - destruct (Qltb u (c + rate)) eqn:E.
    + apply Qltb_lt in E. injection H as <- <-.
      exists rate.
      assert (He : 0 < rate) by lra.
      destruct (residual_unit u c rate Hc E) as [R0 R1].
      assert (Hres : (u - (c + rate) + rate) / rate == (u - c) / rate)
        by (field; lra).
      split; [now left |]. rewrite Hres. auto.
    + apply Qltb_ge in E.
      destruct (IH u (c + rate) n res E H) as (rate' & Hin & Hr).
      exists rate'. split; [now right | exact Hr].
Qed.

Lemma migration_scan_finds nbrs : forall u c,
  c <= u -> u < c + np_sum (values nbrs) ->
  exists n res, migration_scan u c nbrs = Some (n, res).
Proof.
  unfold values.
  induction nbrs as [| [k rate] nbrs IH]; intros u c Hc Hu; simpl in *.
  - lra.
  - destruct (Qltb u (c + rate)) eqn:E.
    + eexists. eexists. reflexivity.
    + apply Qltb_ge in E. apply IH; [exact E | lra].
Qed.

Lemma migration_scan_exhausted nbrs : forall u c,
  (forall e, In e (values nbrs) -> 0 <= e) ->
  c + np_sum (values nbrs) <= u ->
  migration_scan u c nbrs = None.
Proof.
  unfold values.
  induction nbrs as [| [k rate] nbrs IH]; intros u c Hpos Hu; simpl in *.
  - reflexivity.
  - assert (0 <= np_sum (map snd nbrs))
      by (apply np_sum_nonneg; intros x Hx; apply Hpos; now right).
    destruct (Qltb u (c + rate)) eqn:E.
    + apply Qltb_lt in E. lra.
    + apply IH; [intros x Hx; apply Hpos; now right | lra].
Qed.

(** In exact arithmetic, [setHostMigrationNeighbor] and
    [setVectorMigrationNeighbor] keep each cached total equal to the sum of the rates of the
    neighbors, also when the neighbor is set again; the neighbor then
    reads back the new rate, and the other neighbors and the dictionary
    of the other kind are as before. [setHostPopulationContactNeighbor]
    and [setVectorPopulationContactNeighbor] set the contact rate of the
    neighbor in the same way and leave the migration rates and their
    totals alone. *)
Theorem migration_neighbor_setters_keep_totals (neighbor : string)
  (rate : Q) (p : Population) :
  migration_totals_hold (links p) ->
  (exists p',
     setHostMigrationNeighbor neighbor rate p = Ret tt p' /\
     migration_totals_hold (links p') /\
     dict_get neighbor (neighbors_hosts (links p')) = Some rate /\
     (forall k, k <> neighbor ->
        dict_get k (neighbors_hosts (links p'))
        = dict_get k (neighbors_hosts (links p))) /\
     neighbors_vectors (links p') = neighbors_vectors (links p)) /\
  (exists p',
     setVectorMigrationNeighbor neighbor rate p = Ret tt p' /\
     migration_totals_hold (links p') /\
     dict_get neighbor (neighbors_vectors (links p')) = Some rate /\
     (forall k, k <> neighbor ->
        dict_get k (neighbors_vectors (links p'))
        = dict_get k (neighbors_vectors (links p))) /\
     neighbors_hosts (links p') = neighbors_hosts (links p)) /\
  (exists p',
     setHostPopulationContactNeighbor neighbor rate p = Ret tt p' /\
     migration_totals_hold (links p') /\
     dict_get neighbor (neighbors_contact_hosts (links p')) = Some rate /\
     (forall k, k <> neighbor ->
        dict_get k (neighbors_contact_hosts (links p'))
        = dict_get k (neighbors_contact_hosts (links p))) /\
     neighbors_contact_vectors (links p')
     = neighbors_contact_vectors (links p)) /\
  (exists p',
     setVectorPopulationContactNeighbor neighbor rate p = Ret tt p' /\
     migration_totals_hold (links p') /\
     dict_get neighbor (neighbors_contact_vectors (links p')) = Some rate /\
     (forall k, k <> neighbor ->
        dict_get k (neighbors_contact_vectors (links p'))
        = dict_get k (neighbors_contact_vectors (links p))) /\
     neighbors_contact_hosts (links p')
     = neighbors_contact_hosts (links p)).
Proof.
  intros [Hh Hv]. split; [| split; [| split]];
    [| | unfold setHostPopulationContactNeighbor, modify;
         eexists; split; [reflexivity |];
         cbn [links set_links neighbors_contact_hosts
              neighbors_contact_vectors set_neighbors_contact_hosts];
         (split; [split; assumption |]);
         (split; [apply dict_get_set_eq |]);
         (split; [| reflexivity]);
         intros k Hk; apply dict_get_set_neq; congruence
       | unfold setVectorPopulationContactNeighbor, modify;
         eexists; split; [reflexivity |];
         cbn [links set_links neighbors_contact_hosts
              neighbors_contact_vectors set_neighbors_contact_vectors];
         (split; [split; assumption |]);
         (split; [apply dict_get_set_eq |]);
         (split; [| reflexivity]);
         intros k Hk; apply dict_get_set_neq; congruence].
  - unfold setHostMigrationNeighbor, bind, get, modify.
    pose proof (np_sum_dict_set neighbor rate (neighbors_hosts (links p)))
      as Hsum.
    destruct (dict_get neighbor (neighbors_hosts (links p))) as [old |];
      (eexists; split; [reflexivity |]);
      cbn [links set_links neighbors_hosts neighbors_vectors
           total_migration_rate_hosts total_migration_rate_vectors
           set_neighbors_hosts set_total_migration_rate_hosts];
      (split;
       [split;
        cbn [neighbors_hosts neighbors_vectors total_migration_rate_hosts
             total_migration_rate_vectors set_neighbors_hosts
             set_total_migration_rate_hosts];
        [lra | exact Hv] |]);
      (split; [apply dict_get_set_eq |]);
      (split; [| reflexivity]);
      intros k Hk; apply dict_get_set_neq; congruence.
  - unfold setVectorMigrationNeighbor, bind, get, modify.
    pose proof (np_sum_dict_set neighbor rate (neighbors_vectors (links p)))
      as Hsum.
    destruct (dict_get neighbor (neighbors_vectors (links p))) as [old |];
      (eexists; split; [reflexivity |]);
      cbn [links set_links neighbors_hosts neighbors_vectors
           total_migration_rate_hosts total_migration_rate_vectors
           set_neighbors_vectors set_total_migration_rate_vectors];
      (split;
       [split;
        cbn [neighbors_hosts neighbors_vectors total_migration_rate_hosts
             total_migration_rate_vectors set_neighbors_vectors
             set_total_migration_rate_vectors];
        [exact Hh | lra] |]);
      (split; [apply dict_get_set_eq |]);
      (split; [| reflexivity]);
      intros k Hk; apply dict_get_set_neq; congruence.
Qed.

Lemma migration_neighbor_setters_keep_totals_witness :
  let p := final_state (setHostMigrationNeighbor "B" 2 healthy_pair) in
  (exists p',
     setHostMigrationNeighbor "B" 3 p = Ret tt p' /\
     migration_totals_hold (links p') /\
     dict_get "B" (neighbors_hosts (links p')) = Some 3 /\
     (forall k, k <> "B"%string ->
        dict_get k (neighbors_hosts (links p'))
        = dict_get k (neighbors_hosts (links p))) /\
     neighbors_vectors (links p') = neighbors_vectors (links p)) /\
  (exists p',
     setVectorMigrationNeighbor "B" 3 p = Ret tt p' /\
     migration_totals_hold (links p') /\
     dict_get "B" (neighbors_vectors (links p')) = Some 3 /\
     (forall k, k <> "B"%string ->
        dict_get k (neighbors_vectors (links p'))
        = dict_get k (neighbors_vectors (links p))) /\
     neighbors_hosts (links p') = neighbors_hosts (links p)) /\
  (exists p',
     setHostPopulationContactNeighbor "B" 3 p = Ret tt p' /\
     migration_totals_hold (links p') /\
     dict_get "B" (neighbors_contact_hosts (links p')) = Some 3 /\
     (forall k, k <> "B"%string ->
        dict_get k (neighbors_contact_hosts (links p'))
        = dict_get k (neighbors_contact_hosts (links p))) /\
     neighbors_contact_vectors (links p')
     = neighbors_contact_vectors (links p)) /\
  (exists p',
     setVectorPopulationContactNeighbor "B" 3 p = Ret tt p' /\
     migration_totals_hold (links p') /\
     dict_get "B" (neighbors_contact_vectors (links p')) = Some 3 /\
     (forall k, k <> "B"%string ->
        dict_get k (neighbors_contact_vectors (links p'))
        = dict_get k (neighbors_contact_vectors (links p))) /\
     neighbors_contact_hosts (links p')
     = neighbors_contact_hosts (links p)).
Proof.
  apply (migration_neighbor_setters_keep_totals "B" 3
           (final_state (setHostMigrationNeighbor "B" 2 healthy_pair))).
  split; reflexivity.
Defined.

Section MigrationDispatch.

Context {R : Random} {IC : IndividualContract}.

(** In exact arithmetic: when the cached totals are the sums of the neighbor rates and
    are positive, and the draw is in [[0,1)], [doAction] turns
    MIGRATE_HOST into the migration of one host, and MIGRATE_VECTOR into
    the migration of one vector, towards a neighbor whose rate is
    positive, with a new draw in [[0,1)]; it reports True if the
    migration returns. *)
Theorem doAction_migration_goes_to_positive_neighbor (pop : string)
  (rand : Q) (m : Model) (p : Population) :
  dict_get pop (populations m) = Some p ->
  migration_totals_hold (links p) ->
  0 < total_migration_rate_hosts (links p) ->
  0 < total_migration_rate_vectors (links p) ->
  0 <= rand -> rand < 1 ->
  (exists neighbor rate rand',
     In (neighbor, rate) (neighbors_hosts (links p)) /\
     0 < rate /\ 0 <= rand' /\ rand' < 1 /\
     doAction MIGRATE_HOST pop rand m
     = (migrate pop neighbor 1 0 (Some rand') ;;; ret true) m) /\
  (exists neighbor rate rand',
     In (neighbor, rate) (neighbors_vectors (links p)) /\
     0 < rate /\ 0 <= rand' /\ rand' < 1 /\
     doAction MIGRATE_VECTOR pop rand m
     = (migrate pop neighbor 0 1 (Some rand') ;;; ret true) m).
Proof.
  intros Hp [Hh Hv] Th Tv H0 H1. split.
  - assert (Hu : 0 <= rand * total_migration_rate_hosts (links p)) by nra.
    destruct (migration_scan_finds (neighbors_hosts (links p))
                (rand * total_migration_rate_hosts (links p)) 0)
      as (n & res & Hs); [exact Hu | rewrite <- Hh; nra |].
    destruct (migration_scan_selected _ _ _ _ _ Hu Hs)
      as (rate & Hin & Hr).
    exists n, rate, res. split; [exact Hin |].
    repeat split; try tauto.
    unfold doAction. cbn [Nat.eqb MIGRATE_HOST].
    unfold bind at 1. unfold population_of at 1. rewrite Hp, Hs.
    reflexivity.
  - assert (Hu : 0 <= rand * total_migration_rate_vectors (links p))
      by nra.
    destruct (migration_scan_finds (neighbors_vectors (links p))
                (rand * total_migration_rate_vectors (links p)) 0)
      as (n & res & Hs); [exact Hu | rewrite <- Hv; nra |].
    destruct (migration_scan_selected _ _ _ _ _ Hu Hs)
      as (rate & Hin & Hr).
    exists n, rate, res. split; [exact Hin |].
    repeat split; try tauto.
    unfold doAction. cbn [Nat.eqb MIGRATE_HOST MIGRATE_VECTOR].
    unfold bind at 1. unfold population_of at 1. rewrite Hp, Hs.
    reflexivity.
Qed.

(** In exact arithmetic: when no neighbor rate is negative and [rand] times the cached
    total reaches the sum of the rates (all rates zero, as for a
    population that is only its own neighbor, or [rand >= 1]),
    [doAction] on MIGRATE_HOST and MIGRATE_VECTOR selects no neighbor: it
    returns False and the model is as before. *)
Theorem doAction_migration_without_neighbor (pop : string) (rand : Q)
  (m : Model) (p : Population) :
  dict_get pop (populations m) = Some p ->
  (forall e, In e (values (neighbors_hosts (links p))) -> 0 <= e) ->
  (forall e, In e (values (neighbors_vectors (links p))) -> 0 <= e) ->
  np_sum (values (neighbors_hosts (links p)))
  <= rand * total_migration_rate_hosts (links p) ->
  np_sum (values (neighbors_vectors (links p)))
  <= rand * total_migration_rate_vectors (links p) ->
  doAction MIGRATE_HOST pop rand m = Ret false m /\
  doAction MIGRATE_VECTOR pop rand m = Ret false m.
Proof.
  intros Hp Ph Pv Sh Sv. split.
  - unfold doAction. cbn [Nat.eqb MIGRATE_HOST].
    unfold bind at 1. unfold population_of at 1. rewrite Hp.
    rewrite migration_scan_exhausted; [reflexivity | exact Ph | lra].
  - unfold doAction. cbn [Nat.eqb MIGRATE_HOST MIGRATE_VECTOR].
    unfold bind at 1. unfold population_of at 1. rewrite Hp.
    rewrite migration_scan_exhausted; [reflexivity | exact Pv | lra].
Qed.






End MigrationDispatch.

Lemma doAction_migration_goes_to_positive_neighbor_witness :
  (exists neighbor rate rand',
     In (neighbor, rate) (neighbors_hosts (links linked_pair)) /\
     0 < rate /\ 0 <= rand' /\ rand' < 1 /\
     doAction (R := first_draws) (IC := plain_individuals)
       MIGRATE_HOST "A" (1 # 2) linked_model
     = (migrate (R := first_draws) (IC := plain_individuals)
          "A" neighbor 1 0 (Some rand') ;;; ret true) linked_model) /\
  (exists neighbor rate rand',
     In (neighbor, rate) (neighbors_vectors (links linked_pair)) /\
     0 < rate /\ 0 <= rand' /\ rand' < 1 /\
     doAction (R := first_draws) (IC := plain_individuals)
       MIGRATE_VECTOR "A" (1 # 2) linked_model
     = (migrate (R := first_draws) (IC := plain_individuals)
          "A" neighbor 0 1 (Some rand') ;;; ret true) linked_model).
Proof.
  apply (doAction_migration_goes_to_positive_neighbor
           (R := first_draws) (IC := plain_individuals)
           "A" (1 # 2) linked_model linked_pair).
  - reflexivity.
  - split; reflexivity.
  - reflexivity.
  - reflexivity.
  - vm_compute. intros X. discriminate X.
  - reflexivity.
Defined.

Lemma doAction_migration_without_neighbor_witness :
  doAction (R := first_draws) (IC := plain_individuals)
    MIGRATE_HOST "A" (1 # 2) idle_model = Ret false idle_model /\
  doAction (R := first_draws) (IC := plain_individuals)
    MIGRATE_VECTOR "A" (1 # 2) idle_model = Ret false idle_model.
Proof.
  apply (doAction_migration_without_neighbor
           (R := first_draws) (IC := plain_individuals)
           "A" (1 # 2) idle_model healthy_pair).
  - reflexivity.
  - intros e [<- | []]. vm_compute. intros X. discriminate X.
  - intros e [<- | []]. vm_compute. intros X. discriminate X.
  - vm_compute. intros X. discriminate X.
  - vm_compute. intros X. discriminate X.
Defined.





(** ** Groups of hosts and of vectors *)

Section GroupFacts.

Context {R : Random}.

Lemma np_random_choice_sound (sound : sampler_sound R) {S : Type}
  (a : list nat) (k : nat) (s : S) :
  (k <= length a)%nat ->
  exists g,
    np_random_choice a k s = Ret g s /\ incl g a /\ length g = k.
Proof.
  intros Hk. unfold np_random_choice.
  apply Nat.leb_le in Hk. rewrite Hk. apply Nat.leb_le in Hk.
  destruct (sound a k Hk) as [Hl Hi].
  exists (choice_oracle a k). repeat split; assumption.
Qed.

(** The second half of [newHostGroup] and [newVectorGroup] on a count
    that the pool can satisfy: an integer not above the size of the pool,
    or a [float] below 1. *)
Lemma sample_group_valid (sound : sampler_sound R) {S : Type}
  (count : number) (pool : list nat) (s : S) :
  match count with
  | py_int z => (z <= Z.of_nat (length pool))%Z
  | py_float q => q < 1
  end ->
  exists g,
    sample_group count pool s = Ret g s /\
    incl g pool /\
    length g
    = match count with
      | py_int z => if (z <? 0)%Z then length pool else Z.to_nat z
      | py_float q =>
          if Qltb q 0 then length pool
          else Z.to_nat (Qfloor (q * inject_Z (Z.of_nat (length pool))))
      end.
Proof.
  destruct count as [z | q]; intros Hc; cbn [sample_group].
  - destruct (z <? 0)%Z eqn:E0.
    + rewrite Nat.leb_refl. apply np_random_choice_sound; auto.
    + apply Z.ltb_ge in E0.
      destruct (z <? 1)%Z eqn:E1.
      * apply Z.ltb_lt in E1. assert (z = 0%Z) by lia. subst z.
        cbn [Z.mul Z.to_nat Nat.leb].
        apply np_random_choice_sound; [exact sound | lia].
      * apply Z.ltb_ge in E1.
        assert (Hk : (Z.to_nat z <= length pool)%nat) by lia.
        apply Nat.leb_le in Hk. rewrite Hk. apply Nat.leb_le in Hk.
        apply np_random_choice_sound; assumption.
  - destruct (Qltb q 0) eqn:E0.
    + apply np_random_choice_sound; auto.
    + apply Qltb_ge in E0.
      assert (Hq1 : Qltb q 1 = true) by (apply Qltb_lt; exact Hc).
      rewrite Hq1.
      set (n := inject_Z (Z.of_nat (length pool))).
      assert (Hn : 0 <= n).
      { unfold n. change 0 with (inject_Z 0). rewrite <- Zle_Qle. lia. }
      assert (Hpos : 0 <= q * n) by nra.
      unfold int_of_float.
      apply Qle_bool_iff in Hpos. rewrite Hpos. apply Qle_bool_iff in Hpos.
      assert (Hle : (Qfloor (q * n) <= Z.of_nat (length pool))%Z).
      { rewrite <- (Qfloor_Z (Z.of_nat (length pool))).
        apply Qfloor_resp_le. fold n. nra. }
      assert (Hk : (Z.to_nat (Qfloor (q * n)) <= length pool)%nat) by lia.
      apply Nat.leb_le in Hk. rewrite Hk. apply Nat.leb_le in Hk.
      apply np_random_choice_sound; assumption.
Qed.

(** With a sampler that returns elements of the list it samples,
    [newHostGroup] on a known type and a count that the pool can satisfy
    returns a group of hosts of the pool of that type (the healthy, the
    infected, or all the hosts) and leaves the population as it was. The
    group has the size of the pool for a negative count, the count itself
    for an integer count, and the integer part of the fraction of the
    pool for a [float] in [[0,1)], the product being exact. *)
Theorem newHostGroup_samples_the_pool (sound : sampler_sound R)
  (count : number) (type : string) (p : Population) (pool : list nat) :
  (type = "healthy"%string /\ pool = healthy_hosts p) \/
  (type = "infected"%string /\ pool = infected_hosts p) \/
  (type = "any"%string /\ pool = map obj (hosts p)) ->
  match count with
  | py_int z => (z <= Z.of_nat (length pool))%Z
  | py_float q => q < 1
  end ->
  exists g,
    newHostGroup count type p = Ret g p /\
    incl g pool /\
    length g
    = match count with
      | py_int z => if (z <? 0)%Z then length pool else Z.to_nat z
      | py_float q =>
          if Qltb q 0 then length pool
          else Z.to_nat (Qfloor (q * inject_Z (Z.of_nat (length pool))))
      end.
Proof.
  intros Ht Hc. unfold newHostGroup, bind, get.
  destruct Ht as [[-> ->] | [[-> ->] | [-> ->]]]; cbn [String.eqb Ascii.eqb
    Bool.eqb ret]; apply sample_group_valid; assumption.
Qed.

(** [newVectorGroup] likewise, on the pools of vectors; the healthy
    vectors are the live vectors that are not listed as infected, in the
    order of the vectors. *)
Theorem newVectorGroup_samples_the_pool (sound : sampler_sound R)
  (count : number) (type : string) (p : Population) (pool : list nat) :
  (type = "healthy"%string /\
   pool = map obj
            (filter
               (fun v => negb (mem_ref (obj v) (infected_vectors p)))
               (vectors p))) \/
  (type = "infected"%string /\ pool = infected_vectors p) \/
  (type = "any"%string /\ pool = map obj (vectors p)) ->
  match count with
  | py_int z => (z <= Z.of_nat (length pool))%Z
  | py_float q => q < 1
  end ->
  exists g,
    newVectorGroup count type p = Ret g p /\
    incl g pool /\
    length g
    = match count with
      | py_int z => if (z <? 0)%Z then length pool else Z.to_nat z
      | py_float q =>
          if Qltb q 0 then length pool
          else Z.to_nat (Qfloor (q * inject_Z (Z.of_nat (length pool))))
      end.
Proof.
  intros Ht Hc. unfold newVectorGroup, bind, get.
  destruct Ht as [[-> ->] | [[-> ->] | [-> ->]]]; cbn [String.eqb Ascii.eqb
    Bool.eqb ret]; apply sample_group_valid; assumption.
Qed.




End GroupFacts.

Lemma newHostGroup_samples_the_pool_witness :
  exists g,
    newHostGroup (R := first_draws) (py_float (1 # 2)) "healthy" two_by_two
    = Ret g two_by_two /\
    incl g (healthy_hosts two_by_two) /\
    length g = 1%nat.
Proof.
  apply (newHostGroup_samples_the_pool (R := first_draws)
           first_draws_sound (py_float (1 # 2)) "healthy" two_by_two
           (healthy_hosts two_by_two)).
  - left. split; reflexivity.
  - reflexivity.
Defined.

Lemma newVectorGroup_samples_the_pool_witness :
  exists g,
    newVectorGroup (R := first_draws) (py_int (-1)) "healthy" two_by_two
    = Ret g two_by_two /\
    incl g (map obj (vectors two_by_two)) /\
    length g = 2%nat.
Proof.
  apply (newVectorGroup_samples_the_pool (R := first_draws)
           first_draws_sound (py_int (-1)) "healthy" two_by_two
           (map obj (vectors two_by_two))).
  - left. split; [reflexivity | vm_compute; reflexivity].
  - intros X. discriminate X.
Defined.




(** ** Protection sequences *)

Lemma NoDup_obj_inj (l : list Individual) x y :
  NoDup (map obj l) -> In x l -> In y l -> obj x = obj y -> x = y.
Proof.
  induction l as [| a l IH]; simpl; intros Hnd Hx Hy E.
  - destruct Hx.
  - inversion Hnd as [| ? ? Hnotin Hnd']. subst.
    destruct Hx as [<- | Hx], Hy as [<- | Hy].
    + reflexivity.
    + exfalso. apply Hnotin. rewrite E. apply in_map. exact Hy.
    + exfalso. apply Hnotin. rewrite <- E. apply in_map. exact Hx.
    + apply IH; assumption.
Qed.

(** Finding the object [o] and storing its new state [f h] changes the
    individual of identity [o], and no other. *)
Lemma store_found_map (f : Individual -> Individual) o l :
  (forall h, obj (f h) = obj h) ->
  NoDup (map obj l) ->
  match find_obj o l with
  | Some h => store_obj (f h) l
  | None => l
  end
  = map (fun h => if obj h =? o then f h else h) l.
Proof.
  intros Hf Hnd. destruct (find_obj o l) as [h |] eqn:E.
  - unfold store_obj. apply map_ext_in. intros x Hx.
    rewrite Hf, (find_obj_obj _ _ _ E).
    destruct (obj x =? o) eqn:Ex; [| reflexivity].
    apply Nat.eqb_eq in Ex. f_equal.
    apply (NoDup_obj_inj l); auto.
    + apply find_some in E. tauto.
    + rewrite Ex. exact (find_obj_obj _ _ _ E).
  - apply find_obj_None_fresh in E. rewrite <- (map_id l) at 1.
    apply map_ext_in. intros x Hx. rewrite Forall_forall in E.
    specialize (E x Hx). apply Nat.eqb_neq in E. rewrite E. reflexivity.
Qed.

Lemma map_obj_update (f : Individual -> Individual) o l :
  (forall h, obj (f h) = obj h) ->
  map obj (map (fun h => if obj h =? o then f h else h) l) = map obj l.
Proof.
  intros Hf. rewrite map_map. apply map_ext. intros h.
  destruct (obj h =? o); [apply Hf | reflexivity].
Qed.

Lemma clear_protection_map o l :
  NoDup (map obj l) ->
  clear_protection o l
  = map (fun h => if obj h =? o then unprotected h else h) l.
Proof.
  intros Hnd. unfold clear_protection.
  exact (store_found_map unprotected o l (fun h => eq_refl) Hnd).
Qed.

Lemma append_protection_map s o l :
  NoDup (map obj l) ->
  append_protection s o l
  = map (fun h =>
           if obj h =? o
           then set_protection_sequences (protection_sequences h ++ [s]) h
           else h) l.
Proof.
  intros Hnd. unfold append_protection.
  exact (store_found_map
           (fun h =>
              set_protection_sequences (protection_sequences h ++ [s]) h)
           o l (fun h => eq_refl) Hnd).
Qed.

Lemma fold_clear_protection l : forall hs,
  NoDup (map obj hs) ->
  fold_left (fun hs o => clear_protection o hs) l hs
  = map (fun h => if mem_ref (obj h) l then unprotected h else h) hs.
Proof.
  induction l as [| o l IH]; intros hs Hnd; cbn [fold_left].
  - symmetry. rewrite <- (map_id hs) at 2. apply map_ext. reflexivity.
  - rewrite (clear_protection_map o hs Hnd), IH.
    + rewrite map_map. apply map_ext. intros h.
      change (mem_ref (obj h) (o :: l))
        with ((obj h =? o) || mem_ref (obj h) l).
      destruct (obj h =? o); cbn [orb]; [| reflexivity].
      change (obj (unprotected h)) with (obj h).
      destruct (mem_ref (obj h) l); reflexivity.
    + rewrite (map_obj_update unprotected); [exact Hnd | reflexivity].
Qed.

Lemma protections_append_one s o hs :
  NoDup (map obj hs) -> In o (map obj hs) ->
  protections
    (map (fun h =>
            if obj h =? o
            then set_protection_sequences (protection_sequences h ++ [s]) h
            else h) hs)
  = S (protections hs).
Proof.
  unfold protections, list_sum.
  induction hs as [| x hs IH]; intros Hnd Hin; [destruct Hin |].
  inversion Hnd as [| ? ? Hnotin Hnd']. subst. cbn [map fold_right].
  destruct (obj x =? o) eqn:E.
  - apply Nat.eqb_eq in E. subst o.
    cbn [protection_sequences set_protection_sequences].
    rewrite length_app. cbn [length].
    assert (Hrest : map (fun h =>
              if obj h =? obj x
              then set_protection_sequences (protection_sequences h ++ [s])
                     h
              else h) hs = hs).
    { rewrite <- (map_id hs) at 2. apply map_ext_in. intros h Hh.
      destruct (obj h =? obj x) eqn:Eh; [| reflexivity].
      apply Nat.eqb_eq in Eh. exfalso. apply Hnotin. rewrite <- Eh.
      apply in_map. exact Hh. }
    rewrite Hrest. lia.
  - apply Nat.eqb_neq in E. destruct Hin as [Hin | Hin]; [congruence |].
    rewrite (IH Hnd' Hin). lia.
Qed.

Lemma fold_append_protection s l : forall hs,
  NoDup (map obj hs) ->
  incl l (map obj hs) ->
  let hs' := fold_left (fun hs o => append_protection s o hs) l hs in
  map unprotected hs' = map unprotected hs /\
  protections hs' = (protections hs + length l)%nat.
Proof.
  induction l as [| o l IH]; intros hs Hnd Hincl; cbn [fold_left].
  - split; [reflexivity | cbn [length]; lia].
  - rewrite (append_protection_map s o hs Hnd).
    set (hs1 := map _ hs).
    assert (Hobj : map obj hs1 = map obj hs)
      by (apply map_obj_update; reflexivity).
    destruct (IH hs1) as [Hu Hp].
    + rewrite Hobj. exact Hnd.
    + rewrite Hobj. intros x Hx. apply Hincl. now right.
    + cbv zeta in Hu, Hp. split.
      * rewrite Hu. unfold hs1. rewrite map_map. apply map_ext.
        intros h. destruct (obj h =? o); reflexivity.
      * rewrite Hp. unfold hs1.
        rewrite protections_append_one;
          [cbn [length]; lia | exact Hnd | apply Hincl; now left].
Qed.

Lemma for_each_hosts (g : nat -> list Individual -> list Individual) l :
  forall p,
  for_each l (fun o => modify (fun p => set_hosts (g o (hosts p)) p)) p
  = Ret tt (set_hosts (fold_left (fun hs o => g o hs) l (hosts p)) p).
Proof.
  induction l as [| o l IH]; intros p.
  - destruct p. reflexivity.
  - cbn [for_each fold_left]. unfold bind at 1. unfold modify at 1.
    rewrite IH. reflexivity.
Qed.

Lemma for_each_vectors (g : nat -> list Individual -> list Individual) l :
  forall p,
  for_each l (fun o => modify (fun p => set_vectors (g o (vectors p)) p)) p
  = Ret tt (set_vectors (fold_left (fun vs o => g o vs) l (vectors p)) p).
Proof.
  induction l as [| o l IH]; intros p.
  - destruct p. reflexivity.
  - cbn [for_each fold_left]. unfold bind at 1. unfold modify at 1.
    rewrite IH. reflexivity.
Qed.

Lemma int_of_float_nonneg q : 0 <= q -> (0 <= int_of_float q)%Z.
Proof.
  intros H. unfold int_of_float.
  apply Qle_bool_iff in H. rewrite H. apply Qle_bool_iff in H.
  rewrite <- (Qfloor_Z 0). apply Qfloor_resp_le. exact H.
Qed.

Section Protection.

Context {R : Random}.

(** With an exact product [frac_hosts * len(hosts_to_consider)] and a
    sampler that returns elements of the list it samples,
    on a population that lists no host twice, and for a fraction that is
    not negative: [protectHosts] protects
    [int(frac_hosts * len(hosts_to_consider))] hosts when the population
    has that many, and then changes nothing but the protection sequences
    of its hosts, which hold that many more sequences; when the
    population has fewer hosts it raises ValueError and changes
    nothing. *)
Theorem protectHosts_adds_protection_only (sound : sampler_sound R)
  (frac_hosts : Q) (protection_sequence : string) (hosts_arg : list nat)
  (p : Population) :
  NoDup (map obj (hosts p)) ->
  0 <= frac_hosts ->
  let hosts_to_consider :=
    if 0 <? length hosts_arg then hosts_arg else map obj (hosts p) in
  let count :=
    Z.to_nat
      (int_of_float
         (frac_hosts * inject_Z (Z.of_nat (length hosts_to_consider)))) in
  exists hs',
    protectHosts frac_hosts protection_sequence hosts_arg p
    = (if count <=? length (hosts p) then Ret tt (set_hosts hs' p)
       else Raise ValueError p) /\
    map unprotected hs' = map unprotected (hosts p) /\
    protections hs'
    = (protections (hosts p)
       + (if count <=? length (hosts p) then count else 0))%nat.
Proof.
  intros Hnd Hfrac consider count.
  assert (Hz : (0 <= int_of_float
                       (frac_hosts
                        * inject_Z (Z.of_nat (length consider))))%Z).
  { apply int_of_float_nonneg.
    assert (0 <= inject_Z (Z.of_nat (length consider))).
    { change 0 with (inject_Z 0). rewrite <- Zle_Qle. lia. }
    nra. }
  unfold protectHosts. unfold bind at 1. unfold get at 1.
  fold consider. unfold np_random_choice_int.
  apply Z.ltb_ge in Hz. rewrite Hz. fold count.
  unfold np_random_choice. rewrite length_map.
  destruct (count <=? length (hosts p)) eqn:E.
  - apply Nat.leb_le in E. unfold bind, ret.
    rewrite (for_each_hosts (append_protection protection_sequence)).
    eexists. split; [reflexivity |].
    destruct (sound (map obj (hosts p)) count) as [Hlen Hincl];
      [rewrite length_map; exact E |].
    destruct (fold_append_protection protection_sequence
                (choice_oracle (map obj (hosts p)) count) (hosts p)
                Hnd Hincl) as [Hu Hp].
    split; [exact Hu |]. rewrite Hp, Hlen. reflexivity.
  - exists (hosts p). split; [reflexivity |]. split; [reflexivity | lia].
Qed.

(** [protectVectors] likewise, on the vectors of the population. *)
Theorem protectVectors_adds_protection_only (sound : sampler_sound R)
  (frac_vectors : Q) (protection_sequence : string)
  (vectors_arg : list nat) (p : Population) :
  NoDup (map obj (vectors p)) ->
  0 <= frac_vectors ->
  let vectors_to_consider :=
    if 0 <? length vectors_arg then vectors_arg else map obj (vectors p) in
  let count :=
    Z.to_nat
      (int_of_float
         (frac_vectors
          * inject_Z (Z.of_nat (length vectors_to_consider)))) in
  exists vs',
    protectVectors frac_vectors protection_sequence vectors_arg p
    = (if count <=? length (vectors p) then Ret tt (set_vectors vs' p)
       else Raise ValueError p) /\
    map unprotected vs' = map unprotected (vectors p) /\
    protections vs'
    = (protections (vectors p)
       + (if count <=? length (vectors p) then count else 0))%nat.
Proof.
  intros Hnd Hfrac consider count.
  assert (Hz : (0 <= int_of_float
                       (frac_vectors
                        * inject_Z (Z.of_nat (length consider))))%Z).
  { apply int_of_float_nonneg.
    assert (0 <= inject_Z (Z.of_nat (length consider))).
    { change 0 with (inject_Z 0). rewrite <- Zle_Qle. lia. }
    nra. }
  unfold protectVectors. unfold bind at 1. unfold get at 1.
  fold consider. unfold np_random_choice_int.
  apply Z.ltb_ge in Hz. rewrite Hz. fold count.
  unfold np_random_choice. rewrite length_map.
  destruct (count <=? length (vectors p)) eqn:E.
  - apply Nat.leb_le in E. unfold bind, ret.
    rewrite (for_each_vectors (append_protection protection_sequence)).
    eexists. split; [reflexivity |].
    destruct (sound (map obj (vectors p)) count) as [Hlen Hincl];
      [rewrite length_map; exact E |].
    destruct (fold_append_protection protection_sequence
                (choice_oracle (map obj (vectors p)) count) (vectors p)
                Hnd Hincl) as [Hu Hp].
    split; [exact Hu |]. rewrite Hp, Hlen. reflexivity.
  - exists (vectors p). split; [reflexivity |]. split; [reflexivity | lia].
Qed.


End Protection.

(** On a population that lists no host and no vector twice,
    [wipeProtectionHosts] and [wipeProtectionVectors] return; the
    individuals of the list given, or all of them for an empty list, have
    no protection sequence left, and nothing else changes. *)
Theorem wipeProtection_clears_the_listed (arg : list nat)
  (p : Population) :
  NoDup (map obj (hosts p)) ->
  NoDup (map obj (vectors p)) ->
  wipeProtectionHosts arg p
  = Ret tt
      (set_hosts
         (map (fun h =>
                 if mem_ref (obj h)
                      (if 0 <? length arg then arg else map obj (hosts p))
                 then unprotected h else h) (hosts p)) p) /\
  wipeProtectionVectors arg p
  = Ret tt
      (set_vectors
         (map (fun v =>
                 if mem_ref (obj v)
                      (if 0 <? length arg then arg else map obj (vectors p))
                 then unprotected v else v) (vectors p)) p) /\
  wipeProtectionHosts [] p
  = Ret tt (set_hosts (map unprotected (hosts p)) p) /\
  wipeProtectionVectors [] p
  = Ret tt (set_vectors (map unprotected (vectors p)) p).
Proof.
  intros Hh Hv.
  assert (Hall : forall l : list Individual,
            map (fun h => if mem_ref (obj h) (map obj l)
                          then unprotected h else h) l
            = map unprotected l).
  { intros l. apply map_ext_in. intros h Hin.
    assert (E : mem_ref (obj h) (map obj l) = true).
    { unfold mem_ref. apply existsb_exists. exists (obj h).
      split; [apply in_map; exact Hin | apply Nat.eqb_refl]. }
    rewrite E. reflexivity. }
  unfold wipeProtectionHosts, wipeProtectionVectors, bind, get.
  rewrite !(for_each_hosts clear_protection),
    !(for_each_vectors clear_protection).
  rewrite !fold_clear_protection by assumption.
  cbn [length Nat.ltb Nat.leb]. rewrite !Hall.
  repeat split.
Qed.

Lemma protectHosts_adds_protection_only_witness :
  exists hs',
    protectHosts (R := first_draws) (1 # 2) "A" [] two_by_two
    = Ret tt (set_hosts hs' two_by_two) /\
    map unprotected hs' = map unprotected (hosts two_by_two) /\
    protections hs' = 1%nat.
Proof.
  apply (protectHosts_adds_protection_only (R := first_draws)
           first_draws_sound (1 # 2) "A" [] two_by_two).
  - constructor; [simpl; intros [H | []]; discriminate H |].
    constructor; [intros [] | constructor].
  - intros X. discriminate X.
Defined.

Lemma protectVectors_adds_protection_only_witness :
  exists vs',
    protectVectors (R := first_draws) (1 # 2) "A" [] two_by_two
    = Ret tt (set_vectors vs' two_by_two) /\
    map unprotected vs' = map unprotected (vectors two_by_two) /\
    protections vs' = (protections (vectors two_by_two) + 1)%nat.
Proof.
  destruct (protectVectors_adds_protection_only (R := first_draws)
              first_draws_sound (1 # 2) "A" [] two_by_two)
    as (vs' & H1 & H2 & H3).
  - vm_compute. constructor; [intros [H | []]; discriminate H |].
    constructor; [intros [] | constructor].
  - intros X. discriminate X.
  - exists vs'. split; [| split].
    + vm_compute. vm_compute in H1. exact H1.
    + exact H2.
    + vm_compute. vm_compute in H3. exact H3.
Defined.


Lemma wipeProtection_clears_the_listed_witness :
  wipeProtectionHosts [1%nat] protected_pair
  = Ret tt
      (set_hosts
         (map (fun h => if mem_ref (obj h) [1%nat] then unprotected h else h)
            (hosts protected_pair)) protected_pair) /\
  wipeProtectionVectors [1%nat] protected_pair
  = Ret tt
      (set_vectors
         (map (fun v => if mem_ref (obj v) [1%nat] then unprotected v else v)
            (vectors protected_pair)) protected_pair) /\
  wipeProtectionHosts [] protected_pair
  = Ret tt (set_hosts (map unprotected (hosts protected_pair))
              protected_pair) /\
  wipeProtectionVectors [] protected_pair
  = Ret tt (set_vectors (map unprotected (vectors protected_pair))
              protected_pair).
Proof.
  destruct (wipeProtection_clears_the_listed [1%nat] protected_pair)
    as (H1 & H2 & H3 & H4).
  - vm_compute. constructor; [intros [H | []]; discriminate H |].
    constructor; [intros [] | constructor].
  - vm_compute. constructor; [intros [H | []]; discriminate H |].
    constructor; [intros [] | constructor].
  - split; [exact H1 | split; [exact H2 | split; [exact H3 | exact H4]]].
Defined.

(** ** The driver: what a run returns, and what it does not record *)

Section RunReturns.

Context {R : Random} {IC : IndividualContract} {MC : ModelContract}.

Lemma history_get_set t x h : history_get t (history_set t x h) = Some x.
Proof.
  induction h as [| [t' x'] h IH]; simpl.
  - assert (E : Qeq_bool t t = true) by (apply Qeq_bool_iff; reflexivity).
    rewrite E. reflexivity.
  - destruct (Qeq_bool t t') eqn:E; simpl; rewrite E; [reflexivity | exact IH].
Qed.

Lemma run_loop_returns_at_horizon fuel tf ts pe : forall s s',
  run_loop fuel tf ts pe s = Some (Ret tt s') -> tf <= t_var s'.
Proof.
  induction fuel as [| fuel IH]; intros s s' H; simpl in H.
  - destruct (Qltb (t_var s) tf) eqn:E; [discriminate |].
    injection H as <-. apply Qltb_ge. exact E.
  - destruct (Qltb (t_var s) tf) eqn:E.
    + destruct (run_iteration tf ts pe s) as [[] s1 | e s1];
        [apply (IH s1 s' H) | discriminate].
    + injection H as <-. apply Qltb_ge. exact E.
Qed.


(** Whenever [run] returns, the clock has reached [tf], and the
    returned history is the history of the loop with, under the key
    [tf], a deep copy of the final model whose own history is None. *)
Theorem run_returns_final_snapshot (fuel : nat) (t0 tf : Q)
  (time_sampling host_sampling vector_sampling : Z)
  (print_every_n_events : nat) (m : Model) (h : list (Q * Snapshot))
  (s : RunState) :
  run fuel t0 tf time_sampling host_sampling vector_sampling
    print_every_n_events m = Some (Ret h s) ->
  tf <= t_var s /\
  h = history_set tf (Deep (model s) true) (history s) /\
  history_get tf h = Some (Deep (model s) true).
Proof.
  unfold run. intros H.
  destruct (run_loop fuel tf time_sampling print_every_n_events
              (initial_state t0 m)) as [[[] s' | e s'] |] eqn:E;
    try discriminate.
  injection H as <- <-. split; [| split].
  - exact (run_loop_returns_at_horizon _ _ _ _ _ _ E).
  - reflexivity.
  - apply history_get_set.
Qed.

Lemma interventions_zero_frame pending : forall s,
  exists s',
    interventions_zero pending s = Ret tt s' /\
    history s' = history s /\ draws s' = draws s /\
    printed s' = printed s /\
    sampling_counter s' = sampling_counter s.
Proof.
  induction pending as [| i rest IH]; intros s.
  - exists s. repeat split.
  - cbn [interventions_zero]. unfold bind at 1. unfold get at 1.
    destruct (Qle_bool (time i) (t_var s)).
    + unfold carry_out, bind, modify.
      match goal with
      | |- context [interventions_zero rest ?s1] =>
          destruct (IH s1) as (s' & Hr & Hh & Hd & Hp & Hc)
      end.
      exists s'. rewrite Hr. repeat split; assumption.
    + exists s. repeat split.
Qed.

(** A turn of the loop that finds no positive rate always returns;
    it takes no draw, prints nothing and writes no snapshot, also when it
    carries out interventions. *)
Theorem zero_rate_turn_records_nothing (tf : Q) (time_sampling : Z)
  (print_every_n_events : nat) (s s1 : RunState)
  (rates : list string * list (list Q) * Q) :
  current_rates s = Ret rates s1 ->
  snd rates <= 0 ->
  exists s',
    run_iteration tf time_sampling print_every_n_events s = Ret tt s' /\
    history s' = history s /\ draws s' = draws s /\
    printed s' = printed s /\
    sampling_counter s' = sampling_counter s.
Proof.
  intros Hr Hz. unfold run_iteration. unfold bind at 1. rewrite Hr.
  apply Qltb_ge in Hz. rewrite Hz.
  assert (Hs1 : history s1 = history s /\ draws s1 = draws s /\
                printed s1 = printed s /\
                sampling_counter s1 = sampling_counter s).
  { unfold current_rates, bind, get, on_populations in Hr.
    destruct (getRates (keys (populations (model s)))
                (populations (model s))) as [r ps | e ps];
      [| discriminate].
    unfold ret in Hr. injection Hr as _ <-. repeat split. }
  destruct Hs1 as (Hh & Hd & Hp & Hc).
  unfold bind at 1. unfold get at 1.
  destruct (nth_error (interventions (model s1)) (intervention_tracker s1)).
  - destruct (interventions_zero_frame
                (skipn (intervention_tracker s1) (interventions (model s1)))
                s1) as (s' & Hr' & Hh' & Hd' & Hp' & Hc').
    exists s'. split; [exact Hr' |]. repeat split; congruence.
  - eexists. split; [reflexivity |]. repeat split; assumption.
Qed.


End RunReturns.


Lemma run_returns_final_snapshot_witness :
  exists h s,
    run (R := first_draws) (IC := plain_individuals) (MC := no_rates)
      1 5 10 0 0 0 1000 idle_model = Some (Ret h s) /\
    10 <= t_var s /\
    h = history_set 10 (Deep (model s) true) (history s) /\
    history_get 10 h = Some (Deep (model s) true).
Proof.
  destruct (run (R := first_draws) (IC := plain_individuals)
              (MC := no_rates) 1 5 10 0 0 0 1000 idle_model)
    as [[h s | e s] |] eqn:E;
    [| exfalso; vm_compute in E; discriminate E
     | exfalso; vm_compute in E; discriminate E].
  exists h, s. split; [reflexivity |].
  exact (run_returns_final_snapshot
           (R := first_draws) (IC := plain_individuals) (MC := no_rates)
           1 5 10 0 0 0 1000 idle_model h s E).
Defined.

Lemma zero_rate_turn_records_nothing_witness :
  let s := initial_state (MC := no_rates) 5 idle_model in
  exists s',
    run_iteration (R := first_draws) (IC := plain_individuals)
      10 0 1000 s = Ret tt s' /\
    history s' = history s /\ draws s' = draws s /\
    printed s' = printed s /\
    sampling_counter s' = sampling_counter s.
Proof.
  intros s.
  eapply (zero_rate_turn_records_nothing
            (R := first_draws) (IC := plain_individuals) (MC := no_rates)
            10 0 1000 s).
  - vm_compute. reflexivity.
  - vm_compute. intros X. discriminate X.
Defined.


(** ** The weighted draw and the event search over binary64 *)

Section Binary64Facts.

Import PrimFloat.
Import Binary64.

Lemma add_all_cons (c e : float) (l : list float) :
  add_all c (e :: l) = add_all (c + e)%float l.
Proof. reflexivity. Qed.

(** What a result of the scan says, and what the absence of one says, in
    terms of the values that [r_cum] takes. *)
Lemma weighted_scan_Some (r : list float) : forall u c i k x,
  Binary64.weighted_scan u c i r = Some (k, x) ->
  exists e,
    (i <= k)%nat /\ nth_error r (k - i) = Some e /\
    (u <? add_all c (firstn (S (k - i)) r))%float = true /\
    (forall j, (j < k - i)%nat ->
       (u <? add_all c (firstn (S j) r))%float = false) /\
    x = ((u - add_all c (firstn (S (k - i)) r) + e) / e)%float.
Proof.
  induction r as [| e r IH]; intros u c i k x H; simpl in H.
  - discriminate.
  - destruct (u <? c + e)%float eqn:E.
    + injection H as <- <-. exists e. rewrite Nat.sub_diag.
      cbn [firstn nth_error]. unfold add_all. cbn [fold_left].
      repeat split; auto. intros j Hj. lia.
    + destruct (IH u (c + e)%float (S i) k x H)
        as (e' & Hi & Hn & Hlt & Hbefore & Hx).
      exists e'. replace (k - i)%nat with (S (k - S i)) by lia.
      cbn [nth_error]. rewrite !firstn_cons, add_all_cons.
      repeat split; auto; try lia.
      intros [| j] Hj.
      * exact E.
      * rewrite firstn_cons, add_all_cons. apply Hbefore. lia.
Qed.

Lemma weighted_scan_None (r : list float) : forall u c i,
  Binary64.weighted_scan u c i r = None <->
  forall j, (j < length r)%nat ->
    (u <? add_all c (firstn (S j) r))%float = false.
Proof.
  induction r as [| e r IH]; intros u c i;
    cbn [Binary64.weighted_scan length].
  - split; [intros _ j Hj; lia | reflexivity].
  - destruct (u <? c + e)%float eqn:E.
    + split; [discriminate |]. intros H.
      specialize (H 0%nat ltac:(lia)). cbn in H. congruence.
    + rewrite IH. split.
      * intros H [| j] Hj; [exact E |].
        rewrite firstn_cons, add_all_cons. apply H. lia.
      * intros H j Hj. specialize (H (S j) ltac:(lia)).
        rewrite firstn_cons, add_all_cons in H. exact H.
Qed.






Lemma running_sum_next (r : list float) (i : nat) (e : float) :
  nth_error r i = Some e ->
  running_sum r (S i) = (running_sum r i + e)%float.
Proof.
  intros H. unfold running_sum, add_all.
  assert (Hf : firstn (S i) r = firstn i r ++ [e]).
  { revert i H. induction r as [| a r IH]; intros [| i] H; simpl in H;
      try discriminate.
    - inversion H. reflexivity.
    - cbn [firstn app]. f_equal. apply IH. exact H. }
  rewrite Hf, fold_left_app. reflexivity.
Qed.

(** X1. Over binary64, a result [(i, x)] of [getWeightedRandom] says
    this and no more: [i] is an index of the array, the running sum
    through [i] is the first one that [u = rand * np.sum(r)] is below,
    and [x] is [(u - r_cum + r[i]) / r[i]] computed with that running
    sum. *)
Theorem getWeightedRandom_result_binary64 (rand : float) (r : list float)
  (i : nat) (x : float) :
  Binary64.getWeightedRandom rand r = Some (i, x) ->
  let u := (rand * Binary64.np_sum r)%float in
  exists e,
    nth_error r i = Some e /\ (i < length r)%nat /\
    (u <? running_sum r (S i))%float = true /\
    (forall j, (j < i)%nat -> (u <? running_sum r (S j))%float = false) /\
    running_sum r (S i) = (running_sum r i + e)%float /\
    x = ((u - running_sum r (S i) + e) / e)%float.
Proof.
  intros H u. unfold Binary64.getWeightedRandom in H.
  destruct (weighted_scan_Some r _ _ _ _ _ H)
    as (e & _ & Hn & Hlt & Hbefore & Hx).
  rewrite Nat.sub_0_r in Hn, Hlt, Hbefore, Hx.
  exists e. repeat split; try assumption.
  - apply nth_error_Some. congruence.
  - apply running_sum_next. exact Hn.
Qed.

Lemma getWeightedRandom_result_binary64_witness :
  let u := (1 * Binary64.np_sum eight_weights)%float in
  exists e,
    nth_error eight_weights 3 = Some e /\
    (3 < length eight_weights)%nat /\
    (u <? running_sum eight_weights 4)%float = true /\
    (forall j, (j < 3)%nat ->
       (u <? running_sum eight_weights (S j))%float = false) /\
    running_sum eight_weights 4 = (running_sum eight_weights 3 + e)%float /\
    (-0x1.5555555555556p-1)%float
    = ((u - running_sum eight_weights 4 + e) / e)%float.
Proof.
  apply (getWeightedRandom_result_binary64 1%float eight_weights 3
           (-0x1.5555555555556p-1)%float).
  vm_compute. reflexivity.
Defined.

(** X2. Over binary64, [getWeightedRandom] returns [None] exactly when
    [u = rand * np.sum(r)] is below none of the running sums of the
    array. *)
Theorem getWeightedRandom_None_binary64 (rand : float) (r : list float) :
  Binary64.getWeightedRandom rand r = None <->
  forall j, (j < length r)%nat ->
    (rand * Binary64.np_sum r <? running_sum r (S j))%float = false.
Proof.
  unfold Binary64.getWeightedRandom. apply weighted_scan_None.
Qed.


(** C2. With the weights 1 and [1.5 * 2**-53], whose sum [np.sum] gives
    as [1 + 2**-52], and the draw [1 - 2**-52] of [[0,1)]: [u] is 1, the
    running sum before index 1 is 1 and through it [1 + 2**-52], so
    index 1 is selected as claimed, but the number returned with it is
    [-1/3]: neither [(u - 1) / r[1] = 0] nor a number of [[0,1)]. *)
Theorem getWeightedRandom_returns_negative_number :
  Binary64.np_sum [1; tiny]%float = 0x1.0000000000001p+0%float /\
  (0 <? Binary64.np_sum [1; tiny])%float = true /\
  (0 <=? almost_one)%float = true /\ (almost_one <? 1)%float = true /\
  (almost_one * Binary64.np_sum [1; tiny])%float = 1%float /\
  running_sum [1; tiny]%float 1 = 1%float /\
  running_sum [1; tiny]%float 2 = 0x1.0000000000001p+0%float /\
  ((1 - running_sum [1; tiny] 1) / tiny)%float = 0%float /\
  Binary64.getWeightedRandom almost_one [1; tiny]%float
  = Some (1%nat, (-1 / 3)%float) /\
  (-1 / 3 <? 0)%float = true.
Proof. vm_compute. repeat split. Qed.

(** C3. One population with the rate 1 for the event 0, the rate
    [1.5 * 2**-53] for the event 1 and no other rate; [np.sum] of the
    rates is [1 + 2**-52 > 0], and [np.random.random()] returns
    [1 - 2**-52]. The search selects the event 1, the first cell whose
    running sum exceeds [u = 1], and calls [doAction] for it with the
    number [-1/3], where [(u - running_sum_before_cell) / cell_value] is
    0. *)
Theorem run_forwards_negative_number :
  length two_rates = 16%nat /\
  Binary64.np_sum2 two_rates = 0x1.0000000000001p+0%float /\
  (0 <? Binary64.np_sum2 two_rates)%float = true /\
  (0 <=? almost_one)%float = true /\ (almost_one <? 1)%float = true /\
  (almost_one * Binary64.np_sum2 two_rates)%float = 1%float /\
  ((1 - running_sum (concat two_rates) 1) / tiny)%float = 0%float /\
  Binary64.handle_event two_rates (Binary64.np_sum2 two_rates) almost_one
  = Some (MIGRATE_VECTOR, 0%nat, (-1 / 3)%float) /\
  (-1 / 3 <? 0)%float = true.
Proof. vm_compute. repeat split. Qed.

End Binary64Facts.
